(** * recipekeeper-ai-api: a shallow embedding of the ingestion pipeline

    The first part embeds the program, file by file:

    - [Js], [Util]       the JavaScript values the code manipulates (JSON
                         values, truthiness, [typeof], property access);
    - [RecipeModel]      models/recipe.model: [validateRecipe];
    - [Regex], [Webpage] services/webpage.service.mjs: [extractTextFromHtml];
    - [Effect]           the environment of a run, the trace it leaves and
                         the monad of the asynchronous code;
    - [Response]         utils/response.util.mjs;
    - [Bedrock], [Lambda], [S3], [WebpageService]   the services;
    - [Controller]       controllers/recipe.controller.mjs;
    - [Handler]          handler.mjs;
    - [Legacy]           the CommonJS handler of the first version;
    - [Textract]         services/textract.service.mjs, from the responses
                         of the Textract client.

    It ends with what the specification says of these functions, with the
    vocabulary of the properties and with sample data.  The second part
    proves the properties. *)

From Stdlib Require Import List ZArith NArith Bool Lia String Ascii.
From Stdlib Require Import Floats.SpecFloat.
From Stdlib Require Import DecimalString.
Import ListNotations.

Set Implicit Arguments.
Open Scope string_scope.
Open Scope list_scope.
Set Warnings "-register-all".

(* ===================================================================== *)
(** ** JavaScript strings *)
(* ===================================================================== *)

(** A JavaScript string is a sequence of UTF-16 code units. *)
Definition jsstring := list N.

(** Code units of an ASCII literal of the source. *)
Definition js (s : string) : jsstring :=
  map N_of_ascii (list_ascii_of_string s).

Fixpoint str_eqb (a b : jsstring) : bool :=
  match a, b with
  | [], [] => true
  | x :: a', y :: b' => N.eqb x y && str_eqb a' b'
  | _, _ => false
  end.

(** [prefixb p s]: [s.startsWith(p)]. *)
Fixpoint prefixb (p s : jsstring) : bool :=
  match p, s with
  | [], _ => true
  | x :: p', y :: s' => N.eqb x y && prefixb p' s'
  | _ :: _, [] => false
  end.

(** [includes s needle]: [s.includes(needle)]. *)
Fixpoint includes (s needle : jsstring) : bool :=
  prefixb needle s ||
  match s with
  | [] => false
  | _ :: s' => includes s' needle
  end.

(** [endsWith s suffix]. *)
Definition endsWith (s suffix : jsstring) : bool :=
  prefixb (rev suffix) (rev s).

(** [arr.join(sep)] on an array of strings. *)
Fixpoint join (sep : jsstring) (l : list jsstring) : jsstring :=
  match l with
  | [] => []
  | [x] => x
  | x :: l' => x ++ sep ++ join sep l'
  end.

(** Decimal rendering of an array index inside a template literal. *)
Definition string_of_index (n : nat) : jsstring :=
  js (NilEmpty.string_of_uint (Nat.to_uint n)).

(** The code units that [\s] matches and that [trim()] strips
    (ECMAScript WhiteSpace and LineTerminator). *)
Definition is_space (c : N) : bool :=
  match c with
  | 9%N | 10%N | 11%N | 12%N | 13%N | 32%N | 160%N | 5760%N
  | 8232%N | 8233%N | 8239%N | 8287%N | 12288%N | 65279%N => true
  | _ => (8192 <=? c)%N && (c <=? 8202)%N
  end.

Fixpoint trimStart (s : jsstring) : jsstring :=
  match s with
  | c :: s' => if is_space c then trimStart s' else s
  | [] => []
  end.

Definition trimEnd (s : jsstring) : jsstring := rev (trimStart (rev s)).

Definition trim (s : jsstring) : jsstring := trimEnd (trimStart s).

(* ===================================================================== *)
(** ** JavaScript values *)
(* ===================================================================== *)

Module Js.

(** Numbers are IEEE 754 binary64 values; [SpecFloat] gives them as data. *)
Definition number := spec_float.

(** The number denoted by an integer literal of the source. *)
Definition num_of_Z (z : Z) : number := binary_normalize 53 1024 z 0 false.

(** Values: what [JSON.parse] produces, [undefined], and arrays that have
    received extra named properties by assignment ([extra]). *)
Inductive value : Type :=
| JUndefined
| JNull
| JBool (b : bool)
| JNum (x : number)
| JStr (s : jsstring)
| JArr (items : list value) (extra : list (jsstring * value))
| JObj (props : list (jsstring * value)).

Definition num (z : Z) : value := JNum (num_of_Z z).
Definition str (s : string) : value := JStr (js s).
Definition arr (items : list value) : value := JArr items [].
Definition obj (props : list (string * value)) : value :=
  JObj (map (fun kv => (js (fst kv), snd kv)) props).

(** Exceptions: the [name] and [message] of the thrown [Error], and whether
    it carries the [$metadata] field the AWS SDK attaches to service errors. *)
Record error := mkError {
  err_name : jsstring;
  err_message : jsstring;
  err_metadata : bool
}.

Definition Error (msg : jsstring) : error := mkError (js "Error") msg false.
Definition TypeError (msg : jsstring) : error := mkError (js "TypeError") msg false.
Definition SyntaxError (msg : jsstring) : error := mkError (js "SyntaxError") msg false.

Inductive result (A : Type) : Type :=
| Return (a : A)
| Throw (e : error).
Arguments Return {A} a.
Arguments Throw {A} e.

Definition rbind {A B} (r : result A) (k : A -> result B) : result B :=
  match r with
  | Return a => k a
  | Throw e => Throw e
  end.

(** ToBoolean. *)
Definition truthy (v : value) : bool :=
  match v with
  | JUndefined | JNull => false
  | JBool b => b
  | JNum (S754_zero _) | JNum S754_nan => false
  | JNum _ => true
  | JStr [] => false
  | JStr _ => true
  | JArr _ _ | JObj _ => true
  end.

Inductive type := TUndefined | TObject | TBoolean | TNumber | TString.

Definition type_eqb (a b : type) : bool :=
  match a, b with
  | TUndefined, TUndefined | TObject, TObject | TBoolean, TBoolean
  | TNumber, TNumber | TString, TString => true
  | _, _ => false
  end.

Definition typeof (v : value) : type :=
  match v with
  | JUndefined => TUndefined
  | JNull | JArr _ _ | JObj _ => TObject
  | JBool _ => TBoolean
  | JNum _ => TNumber
  | JStr _ => TString
  end.

Definition isArray (v : value) : bool :=
  match v with JArr _ _ => true | _ => false end.

Fixpoint lookup (k : jsstring) (props : list (jsstring * value)) : value :=
  match props with
  | [] => JUndefined
  | (k', v) :: rest => if str_eqb k k' then v else lookup k rest
  end.

(** Assignment to a property: an existing key keeps its position, a new
    key is added last. *)
Fixpoint assign (k : jsstring) (v : value) (props : list (jsstring * value))
  : list (jsstring * value) :=
  match props with
  | [] => [(k, v)]
  | (k', v') :: rest =>
      if str_eqb k k' then (k', v) :: rest else (k', v') :: assign k v rest
  end.

(** The message V8 gives when a property of [null] or [undefined] is read. *)
Definition cannot_read (v : value) (k : jsstring) : error :=
  TypeError (js "Cannot read properties of "
             ++ (match v with JNull => js "null" | _ => js "undefined" end)
             ++ js " (reading '" ++ k ++ js "')").

(** [v.k] for the property names the program uses: none of them is found
    on the prototype of a primitive or of an array. *)
Definition get (v : value) (k : string) : result value :=
  match v with
  | JUndefined | JNull => Throw (cannot_read v (js k))
  | JObj props => Return (lookup (js k) props)
  | JArr _ extra => Return (lookup (js k) extra)
  | JBool _ | JNum _ | JStr _ => Return JUndefined
  end.

(** The name [typeof] gives to a type. *)
Definition type_name (t : type) : jsstring :=
  match t with
  | TUndefined => js "undefined"
  | TObject => js "object"
  | TBoolean => js "boolean"
  | TNumber => js "number"
  | TString => js "string"
  end.

(** The message V8 gives when a property is created on a primitive: it
    names the property, the type of the primitive and the primitive
    itself, as [toString] prints it. *)
Definition cannot_create (toString : value -> jsstring) (v : value)
    (k : jsstring) : error :=
  TypeError (js "Cannot create property '" ++ k ++ js "' on "
             ++ type_name (typeof v) ++ js " '"
             ++ (match v with
                 | JStr s => s
                 | JBool true => js "true"
                 | JBool false => js "false"
                 | _ => toString v
                 end)
             ++ js "'").

(** [v.k = x] in a module (strict mode): creating a property on a primitive
    throws.  [toString] is the conversion of numbers to strings. *)
Definition set (toString : value -> jsstring) (v : value) (k : string)
    (x : value) : result value :=
  match v with
  | JObj props => Return (JObj (assign (js k) x props))
  | JArr items extra => Return (JArr items (assign (js k) x extra))
  | JUndefined | JNull =>
      Throw (TypeError (js "Cannot set properties of "
             ++ (match v with JNull => js "null" | _ => js "undefined" end)
             ++ js " (setting '" ++ js k ++ js "')"))
  | JBool _ | JNum _ | JStr _ => Throw (cannot_create toString v (js k))
  end.

(** [a || b]. *)
Definition or_else (a b : value) : value := if truthy a then a else b.

End Js.
Import Js.

Notation "x <~ c ;; k" := (rbind c (fun x => k))
  (at level 61, c at next level, right associativity).

(* ===================================================================== *)
(** ** models/recipe.model: [validateRecipe] *)
(* ===================================================================== *)

Module RecipeModel.

(** The object [{ valid, errors }] the validator returns. *)
Record validation := mkValidation {
  valid : bool;
  errors : list jsstring
}.

(** [if (cond) errors.push(msg)]. *)
Definition push_if (cond : bool) (msg : jsstring) (errors : list jsstring)
  : list jsstring :=
  if cond then errors ++ [msg] else errors.

(** [!v || typeof v !== t]. *)
Definition missing_or_not (t : type) (v : value) : bool :=
  negb (truthy v) || negb (type_eqb (typeof v) t).

(** [typeof v !== t]. *)
Definition not_a (t : type) (v : value) : bool :=
  negb (type_eqb (typeof v) t).

(** [items.forEach((item, index) => ...)] with the array [errors] threaded
    through the callback. *)
Fixpoint forEach (f : value -> nat -> list jsstring -> result (list jsstring))
    (items : list value) (index : nat) (errors : list jsstring)
  : result (list jsstring) :=
  match items with
  | [] => Return errors
  | item :: rest =>
      errors' <~ f item index errors ;;
      forEach f rest (S index) errors'
  end.

Definition ingredient_name_msg (index : nat) : jsstring :=
  js "Ingredient " ++ string_of_index index
    ++ js ": name is required and must be a string".
Definition ingredient_quantity_msg (index : nat) : jsstring :=
  js "Ingredient " ++ string_of_index index ++ js ": quantity must be a number".
Definition ingredient_unit_msg (index : nat) : jsstring :=
  js "Ingredient " ++ string_of_index index
    ++ js ": unit is required and must be a string".
Definition step_order_msg (index : nat) : jsstring :=
  js "Step " ++ string_of_index index ++ js ": order must be a number".
Definition step_text_msg (index : nat) : jsstring :=
  js "Step " ++ string_of_index index
    ++ js ": text is required and must be a string".

(** The callback of [recipe.ingredients.forEach]. *)
Definition checkIngredient (ingredient : value) (index : nat)
    (errors : list jsstring) : result (list jsstring) :=
  name <~ get ingredient "name" ;;
  let errors := push_if (missing_or_not TString name)
                        (ingredient_name_msg index) errors in
  quantity <~ get ingredient "quantity" ;;
  let errors := push_if (not_a TNumber quantity)
                        (ingredient_quantity_msg index) errors in
  unit <~ get ingredient "unit" ;;
  let errors := push_if (missing_or_not TString unit)
                        (ingredient_unit_msg index) errors in
  Return errors.

(** The callback of [recipe.steps.forEach]. *)
Definition checkStep (step : value) (index : nat)
    (errors : list jsstring) : result (list jsstring) :=
  order <~ get step "order" ;;
  let errors := push_if (not_a TNumber order) (step_order_msg index) errors in
  text <~ get step "text" ;;
  let errors := push_if (missing_or_not TString text)
                        (step_text_msg index) errors in
  Return errors.

Definition validateRecipe (recipe : value) : result validation :=
  let errors := [] in
  if negb (truthy recipe) then
    Return (mkValidation false [js "Recipe object is required"])
  else
    title <~ get recipe "title" ;;
    let errors := push_if (missing_or_not TString title)
                    (js "Title is required and must be a string") errors in
    servings <~ get recipe "servings" ;;
    let errors := push_if (missing_or_not TNumber servings)
                    (js "Servings is required and must be a number") errors in
    ingredients <~ get recipe "ingredients" ;;
    errors <~ match ingredients with
              | JArr items _ => forEach checkIngredient items 0 errors
              | _ => Return (errors ++ [js "Ingredients must be an array"])
              end ;;
    steps <~ get recipe "steps" ;;
    errors <~ match steps with
              | JArr items _ => forEach checkStep items 0 errors
              | _ => Return (errors ++ [js "Steps must be an array"])
              end ;;
    tags <~ get recipe "tags" ;;
    let errors := push_if (negb (isArray tags))
                    (js "Tags must be an array") errors in
    Return (mkValidation (Nat.eqb (List.length errors) 0) errors).

(** *** The rules, one by one

    What each rule of the validator reports when it is looked at alone.
    [field v k] is [v.k] for a value that is neither [null] nor
    [undefined]. *)

Definition field (v : value) (k : string) : value :=
  match get v k with
  | Return x => x
  | Throw _ => JUndefined
  end.

Definition title_errors (recipe : value) : list jsstring :=
  if missing_or_not TString (field recipe "title")
  then [js "Title is required and must be a string"] else [].

Definition servings_errors (recipe : value) : list jsstring :=
  if missing_or_not TNumber (field recipe "servings")
  then [js "Servings is required and must be a number"] else [].

Definition ingredient_errors (ingredient : value) (index : nat)
  : list jsstring :=
  (if missing_or_not TString (field ingredient "name")
   then [ingredient_name_msg index] else [])
  ++ (if not_a TNumber (field ingredient "quantity")
      then [ingredient_quantity_msg index] else [])
  ++ (if missing_or_not TString (field ingredient "unit")
      then [ingredient_unit_msg index] else []).

Definition step_errors (step : value) (index : nat) : list jsstring :=
  (if not_a TNumber (field step "order") then [step_order_msg index] else [])
  ++ (if missing_or_not TString (field step "text")
      then [step_text_msg index] else []).

(** The reports of a per-element rule over a whole array, in index order. *)
Fixpoint each_errors (rule : value -> nat -> list jsstring)
    (items : list value) (index : nat) : list jsstring :=
  match items with
  | [] => []
  | item :: rest => rule item index ++ each_errors rule rest (S index)
  end.

Definition ingredients_errors (recipe : value) : list jsstring :=
  match field recipe "ingredients" with
  | JArr items _ => each_errors ingredient_errors items 0
  | _ => [js "Ingredients must be an array"]
  end.

Definition steps_errors (recipe : value) : list jsstring :=
  match field recipe "steps" with
  | JArr items _ => each_errors step_errors items 0
  | _ => [js "Steps must be an array"]
  end.

Definition tags_errors (recipe : value) : list jsstring :=
  if isArray (field recipe "tags") then [] else [js "Tags must be an array"].

(** A value whose properties can be read. *)
Definition readable (v : value) : bool :=
  match v with
  | JUndefined | JNull => false
  | _ => true
  end.

(** Every element of the [ingredients] and [steps] arrays can be read. *)
Definition elements_readable (recipe : value) : bool :=
  match field recipe "ingredients" with
  | JArr items _ => forallb readable items
  | _ => true
  end
  &&
  match field recipe "steps" with
  | JArr items _ => forallb readable items
  | _ => true
  end.

End RecipeModel.

(* ===================================================================== *)
(** ** Regular expressions, as far as the program uses them *)
(* ===================================================================== *)

Module Regex.

(** Patterns.  Every quantifier of the program is applied to a single
    character class, so [Star] and [LazyStar] take the class itself. *)
Inductive re : Type :=
| Eps
| Chr (p : N -> bool)            (* one code unit of a class *)
| Seq (a b : re)
| Alt (a b : re)                 (* a|b, the left branch first *)
| Star (p : N -> bool)           (* [class]*   greedy *)
| LazyStar (p : N -> bool).      (* [class]*?  lazy *)

Definition only (c : ascii) : N -> bool := N.eqb (N_of_ascii c).
Definition except (c : ascii) : N -> bool := fun x => negb (N.eqb (N_of_ascii c) x).
Definition any : N -> bool := fun _ => true.
Definition between (lo hi : ascii) : N -> bool :=
  fun x => (N_of_ascii lo <=? x)%N && (x <=? N_of_ascii hi)%N.

(** Case folding of the [i] flag on an ASCII pattern character: only the
    two ASCII cases of a letter match it. *)
Definition fold_case (x : N) : N :=
  if (65 <=? x)%N && (x <=? 90)%N then (x + 32)%N else x.
Definition only_i (c : ascii) : N -> bool :=
  fun x => N.eqb (fold_case (N_of_ascii c)) (fold_case x).

(** A literal followed by the rest of the pattern. *)
Fixpoint lit_then (cls : ascii -> N -> bool) (s : string) (rest : re) : re :=
  match s with
  | EmptyString => rest
  | String c s' => Seq (Chr (cls c)) (lit_then cls s' rest)
  end.
Definition lit (s : string) : re := lit_then only s Eps.
Definition lit_i (s : string) : re := lit_then only_i s Eps.

(** Backtracking matcher: [exec r s k] matches [r] at the head of [s] and
    hands what is left to [k]; when [k] refuses, the next alternative is
    tried, in the order of the ECMAScript semantics. *)
Fixpoint star_greedy {A} (p : N -> bool) (s : jsstring)
    (k : jsstring -> option A) : option A :=
  match s with
  | c :: s' =>
      if p c then
        match star_greedy p s' k with
        | Some x => Some x
        | None => k s
        end
      else k s
  | [] => k []
  end.

Fixpoint star_lazy {A} (p : N -> bool) (s : jsstring)
    (k : jsstring -> option A) : option A :=
  match k s with
  | Some x => Some x
  | None =>
      match s with
      | c :: s' => if p c then star_lazy p s' k else None
      | [] => None
      end
  end.

Fixpoint exec {A} (r : re) (s : jsstring) (k : jsstring -> option A)
  : option A :=
  match r with
  | Eps => k s
  | Chr p =>
      match s with
      | c :: s' => if p c then k s' else None
      | [] => None
      end
  | Seq a b => exec a s (fun s' => exec b s' k)
  | Alt a b =>
      match exec a s k with
      | Some x => Some x
      | None => exec b s k
      end
  | Star p => star_greedy p s k
  | LazyStar p => star_lazy p s k
  end.

(** [match_at r s]: what is left of [s] after the match of [r] at its head. *)
Definition match_at (r : re) (s : jsstring) : option jsstring :=
  exec r s (fun rest => Some rest).

(** [s.replace(/r/g, rep)] for a replacement without [$] patterns.  The scan
    goes left to right; [skip] counts the code units of the current match
    that are still to be passed over.  After an empty match the scan moves
    one unit on. *)
Fixpoint replace_from (r : re) (rep : jsstring) (skip : nat) (s : jsstring)
  : jsstring :=
  match s with
  | [] =>
      match skip, match_at r [] with
      | 0, Some _ => rep
      | _, _ => []
      end
  | c :: s' =>
      match skip with
      | S n => replace_from r rep n s'
      | 0 =>
          match match_at r s with
          | Some rest =>
              match List.length s - List.length rest with
              | 0 => rep ++ c :: replace_from r rep 0 s'
              | S n => rep ++ replace_from r rep n s'
              end
          | None => c :: replace_from r rep 0 s'
          end
      end
  end.

Definition replace (r : re) (rep : jsstring) (s : jsstring) : jsstring :=
  replace_from r rep 0 s.

End Regex.

(* ===================================================================== *)
(** ** services/webpage.service.mjs: [extractTextFromHtml] *)
(* ===================================================================== *)

Module Webpage.
Import Regex.

(** [<tag[^>]*>[\s\S]*?<\/tag>] with the [i] flag. *)
Definition re_block (tag : string) : re :=
  lit_then only_i (String.append "<" tag)
    (Seq (Star (except ">"))
      (Seq (Chr (only ">"))
        (Seq (LazyStar any) (lit_i (String.append "</" (String.append tag ">")))))).

Definition re_script := re_block "script".
Definition re_style := re_block "style".
Definition re_noscript := re_block "noscript".

(** [<!--[\s\S]*?-->] *)
Definition re_comment : re :=
  lit_then only "<!--" (Seq (LazyStar any) (lit "-->")).

(** [<\/(div|p|br|li|tr|h[1-6])[^>]*>] with the [i] flag. *)
Definition re_block_close : re :=
  lit_then only_i "</"
    (Seq (Alt (lit_i "div")
           (Alt (lit_i "p")
             (Alt (lit_i "br")
               (Alt (lit_i "li")
                 (Alt (lit_i "tr")
                      (Seq (Chr (only_i "h")) (Chr (between "1" "6"))))))))
      (Seq (Star (except ">")) (Chr (only ">")))).

(** [<(br|hr)[^>]*>] with the [i] flag. *)
Definition re_break : re :=
  lit_then only_i "<"
    (Seq (Alt (lit_i "br") (lit_i "hr"))
      (Seq (Star (except ">")) (Chr (only ">")))).

(** [<[^>]+>] *)
Definition re_tag : re :=
  lit_then only "<"
    (Seq (Chr (except ">")) (Seq (Star (except ">")) (Chr (only ">")))).

(** [\n\s*\n] *)
Definition re_blank_lines : re :=
  Seq (Chr (N.eqb 10)) (Seq (Star is_space) (Chr (N.eqb 10))).

(** [[ \t]+] *)
Definition space_or_tab (c : N) : bool := N.eqb c 32 || N.eqb c 9.
Definition re_spaces : re := Seq (Chr space_or_tab) (Star space_or_tab).

Definition newline : jsstring := [10%N].
Definition euro : jsstring := [8364%N].
Definition quote : jsstring := [34%N].

Definition extractTextFromHtml (html : jsstring) : jsstring :=
  let text := html in
  (* scripts and styles *)
  let text := replace re_script [] text in
  let text := replace re_style [] text in
  let text := replace re_noscript [] text in
  (* comments *)
  let text := replace re_comment [] text in
  (* block tags become line breaks *)
  let text := replace re_block_close newline text in
  let text := replace re_break newline text in
  (* every other tag *)
  let text := replace re_tag (js " ") text in
  (* common entities *)
  let text := replace (lit "&nbsp;") (js " ") text in
  let text := replace (lit "&amp;") (js "&") text in
  let text := replace (lit "&lt;") (js "<") text in
  let text := replace (lit "&gt;") (js ">") text in
  let text := replace (lit "&quot;") quote text in
  let text := replace (lit "&#39;") (js "'") text in
  let text := replace (lit "&euro;") euro text in
  (* blank lines and runs of blanks *)
  let text := replace re_blank_lines (newline ++ newline) text in
  let text := replace re_spaces (js " ") text in
  let text := trim text in
  text.

End Webpage.


(* ===================================================================== *)
(** ** The environment of a run and the monad of the asynchronous code *)
(* ===================================================================== *)

Module Effect.

(** One event per call that leaves the process, with what came back, and
    one per completion of the two service calls of the controller
    ([EvExtractRecipe], [EvSendRecipe]).  Console output is not kept. *)
Inductive event : Type :=
| EvConfig (ns key : jsstring) (out : result (option jsstring))
| EvBedrockSend (modelId : jsstring) (payload : value) (out : result jsstring)
| EvLambdaSend (functionName : jsstring) (payload : value)
    (out : result (jsstring * value))
| EvFetch (url : value) (out : result jsstring)
| EvTextractStart (bucket : value) (key : jsstring)
    (topic role : option jsstring) (out : result value)
| EvTextractResult (jobId : value) (out : result jsstring)
| EvTextractDetect (bucket : value) (key : jsstring) (out : result jsstring)
| EvClock (iso : jsstring)
| EvExtractRecipe (recipeText : value) (out : result value)
| EvSendRecipe (recipe : value) (out : result value).

Definition history := list event.

(** Everything the code takes from outside its own files.  The library
    functions are pure.  The answer of a collaborator may depend on all
    that happened before the call. *)
Record Env := mkEnv {
  (* ECMAScript and Node library *)
  toLowerCase : jsstring -> jsstring;
  JSON_parse : jsstring -> value + jsstring;      (* inr: SyntaxError *)
  JSON_stringify : value -> jsstring;
  ToNumber : value -> number;
  ToString : value -> jsstring;
  URL_protocol : value -> option jsstring;        (* None: new URL throws *)
  decodeURIComponent : jsstring -> jsstring + jsstring; (* inr: URIError *)
  (* process.env *)
  AWS_REGION : option jsstring;
  ENVIRONMENT : option jsstring;
  USE_SYNC_TEXTRACT : option jsstring;
  (* utils/config.appconfig.mjs: configuration values are strings, an
     absent key reads as undefined *)
  config_get : history -> jsstring -> jsstring -> result (option jsstring);
  (* bedrockClient.send(new InvokeModelCommand(..)), response body decoded *)
  bedrock_send : history -> jsstring -> value -> result jsstring;
  (* lambdaClient.send(new InvokeCommand(..)): Payload decoded, FunctionError *)
  lambda_send : history -> jsstring -> value -> result (jsstring * value);
  (* fetchWebpage: the HTTP GET with its redirects and its timeout *)
  http_fetch : history -> value -> result jsstring;
  (* services/textract.service.mjs, at its interface *)
  textract_start : history -> value -> jsstring -> option jsstring
                   -> option jsstring -> result value;
  textract_result : history -> value -> result jsstring;
  textract_detect : history -> value -> jsstring -> result jsstring;
  (* new Date().toISOString() *)
  clock : history -> jsstring
}.

(** A computation reads the history so far and yields its outcome and the
    events it added. *)
Definition M (A : Type) : Type := history -> result A * list event.

Definition ret {A} (a : A) : M A := fun _ => (Return a, []).
Definition throw {A} (e : error) : M A := fun _ => (Throw e, []).
Definition lift {A} (r : result A) : M A := fun _ => (r, []).

Definition bind {A B} (m : M A) (k : A -> M B) : M B :=
  fun h =>
    match m h with
    | (Return a, evs) =>
        let (r, evs') := k a (h ++ evs) in (r, evs ++ evs')
    | (Throw e, evs) => (Throw e, evs)
    end.

(** [try { m } catch (error) { handler error }] *)
Definition try_catch {A} (m : M A) (handler : error -> M A) : M A :=
  fun h =>
    match m h with
    | (Return a, evs) => (Return a, evs)
    | (Throw e, evs) =>
        let (r, evs') := handler e (h ++ evs) in (r, evs ++ evs')
    end.

(** A call to a collaborator. *)
Definition call {A} (oracle : history -> result A) (ev : result A -> event)
  : M A :=
  fun h => let r := oracle h in (r, [ev r]).

(** [m], with its completion recorded. *)
Definition observed (ev : result value -> event) (m : M value) : M value :=
  fun h => let (r, evs) := m h in (r, evs ++ [ev r]).

(** [new Date().toISOString()] *)
Definition now (env : Env) : M jsstring :=
  fun h => (Return (clock env h), [EvClock (clock env h)]).

End Effect.
Import Effect.

Notation "x <- c ;; k" := (bind c (fun x => k))
  (at level 61, c at next level, right associativity).

(** Helpers shared by the services. *)
Module Util.

(** [process.env.X || 'default'] *)
Definition or_default (o : option jsstring) (d : string) : jsstring :=
  match o with
  | Some (c :: s) => c :: s
  | _ => js d
  end.

Definition opt_value (o : option jsstring) : value :=
  match o with
  | Some s => JStr s
  | None => JUndefined
  end.

(** [!o] on a string or undefined. *)
Definition opt_falsy (o : option jsstring) : bool :=
  match o with
  | Some (_ :: _) => false
  | _ => true
  end.

(** [s.replace(pat, rep)] with a string pattern: the first occurrence. *)
Fixpoint replace_first (pat rep s : jsstring) : jsstring :=
  if prefixb pat s then rep ++ skipn (List.length pat) s
  else match s with
       | [] => []
       | c :: s' => c :: replace_first pat rep s'
       end.

(** [v === 'literal'] *)
Definition is_str (v : value) (s : string) : bool :=
  match v with
  | JStr x => str_eqb x (js s)
  | _ => false
  end.

(** [String(v)] where the code hands a value to a string parameter. *)
Definition to_string (env : Env) (v : value) : jsstring :=
  match v with
  | JStr s => s
  | _ => ToString env v
  end.

Definition to_number (env : Env) (v : value) : number :=
  match v with
  | JNum x => x
  | _ => ToNumber env v
  end.

(** [JSON.parse(v)] *)
Definition parse (env : Env) (v : value) : result value :=
  match JSON_parse env (to_string env v) with
  | inl x => Return x
  | inr msg => Throw (SyntaxError msg)
  end.

(** [${JSON.stringify(v)}] inside a template literal. *)
Definition template_json (env : Env) (v : value) : jsstring :=
  match v with
  | JUndefined => js "undefined"
  | _ => JSON_stringify env v
  end.

(** [arr.find(pred)] *)
Fixpoint find (pred : value -> result bool) (items : list value)
  : result value :=
  match items with
  | [] => Return JUndefined
  | item :: rest =>
      b <~ pred item ;;
      if b then Return item else find pred rest
  end.

(** [arr.map((item, index) => f item index)] *)
Fixpoint map_indexed (f : value -> nat -> result value) (items : list value)
    (index : nat) : result (list value) :=
  match items with
  | [] => Return []
  | item :: rest =>
      x <~ f item index ;;
      xs <~ map_indexed f rest (S index) ;;
      Return (x :: xs)
  end.

(** [v.length > n]: lengths of strings and arrays are exact integers. *)
Definition length_gt (env : Env) (v : value) (n : Z) : bool :=
  match v with
  | JStr s => (n <? Z.of_nat (List.length s))%Z
  | JArr items _ => (n <? Z.of_nat (List.length items))%Z
  | JObj props => SFltb (num_of_Z n) (to_number env (lookup (js "length") props))
  | _ => false
  end.

(** [v >= n] *)
Definition num_ge (env : Env) (v : value) (n : Z) : bool :=
  SFleb (num_of_Z n) (to_number env v).

(** [{...v}] *)
Definition spread (v : value) : list (jsstring * value) :=
  match v with
  | JObj props => props
  | JArr items extra =>
      combine (map string_of_index (seq 0 (List.length items))) items ++ extra
  | JStr s =>
      combine (map string_of_index (seq 0 (List.length s)))
              (map (fun c => JStr [c]) s)
  | _ => []
  end.

(** [v === null || v === undefined], the test of [?.]. *)
Definition nullish (v : value) : bool :=
  match v with
  | JUndefined | JNull => true
  | _ => false
  end.

(** [v[i]] on a value that is neither [null] nor [undefined]. *)
Definition at_index (v : value) (i : nat) : value :=
  match v with
  | JArr items _ => nth i items JUndefined
  | JStr s => match nth_error s i with
              | Some c => JStr [c]
              | None => JUndefined
              end
  | JObj props => lookup (string_of_index i) props
  | _ => JUndefined
  end.

(** [receiver.method(..)] where the value [v] of [receiver] has no such
    method: V8 names the callee as the source writes it. *)
Definition not_a_function (receiver : jsstring) (v : value) (method : string)
  : error :=
  match v with
  | JUndefined | JNull => cannot_read v (js method)
  | _ => TypeError (receiver ++ js "." ++ js method ++ js " is not a function")
  end.

End Util.
Import Util.

(* ===================================================================== *)
(** ** utils/response.util.mjs *)
(* ===================================================================== *)

Module Response.

Record response := mkResponse {
  statusCode : Z;
  headers : list (jsstring * value);
  body : jsstring
}.

Definition json_headers : list (jsstring * value) :=
  [ (js "Content-Type", str "application/json");
    (js "Access-Control-Allow-Origin", str "*");
    (js "Access-Control-Allow-Credentials", JBool true) ].

Definition success_body (data : value) : value :=
  obj [ ("success", JBool true); ("data", data) ].

Definition error_body (message : jsstring) (details : list jsstring) : value :=
  obj [ ("success", JBool false);
        ("error", obj [ ("message", JStr message);
                        ("details", arr (map JStr details)) ]) ].

Definition successResponse (env : Env) (data : value) (statusCode : Z)
  : response :=
  mkResponse statusCode json_headers (JSON_stringify env (success_body data)).

Definition errorResponse (env : Env) (message : jsstring) (statusCode : Z)
    (details : list jsstring) : response :=
  mkResponse statusCode json_headers
             (JSON_stringify env (error_body message details)).

End Response.
Import Response.

(* ===================================================================== *)
(** ** services/bedrock.service.mjs *)
(* ===================================================================== *)

Module Bedrock.
Section WithEnv.
Variable env : Env.

Definition quoted (s : string) : jsstring := [34%N] ++ js s ++ [34%N].

Definition SYSTEM_PROMPT : jsstring :=
  js "Tu es un extracteur de recettes. Retourne UNIQUEMENT un JSON valide, sans texte autour. Sch"
  ++ [233%N] ++ js "ma: { " ++ quoted "title" ++ js ": string, "
  ++ quoted "servings" ++ js ": number, " ++ quoted "ingredients" ++ js ": [{"
  ++ quoted "name" ++ js ": string, " ++ quoted "quantity" ++ js ": number, "
  ++ quoted "unit" ++ js ": string}], " ++ quoted "steps" ++ js ": [{"
  ++ quoted "order" ++ js ": number, " ++ quoted "text" ++ js ": string}], "
  ++ quoted "tags" ++ js ": [string] } Contraintes:" ++ [10%N; 10%N]
  ++ js "servings: si absent -> 4" ++ [10%N]
  ++ js "ingredients: quantity num" ++ [233%N]
  ++ js "rique (si inconnu -> 1), unit en minuscule" ++ [10%N]
  ++ js "steps: order commence " ++ [224%N] ++ js " 1".

(** The binary64 value of the literal [0.2]. *)
Definition temperature : value := JNum (S754_finite false 7205759403792794 (-55)).

(** The inference profile of a Nova model. *)
Definition inferenceProfile (modelId : jsstring) : jsstring :=
  if includes modelId (js "amazon.nova") then
    let modelName :=
      replace_first (js "nova-2-") (js "nova-")
        (replace_first (js "amazon.") [] modelId) in
    let region := or_default (AWS_REGION env) "us-east-1" in
    let regionPrefix :=
      if prefixb (js "us-") region then js "us"
      else if prefixb (js "eu-") region then js "eu"
      else if prefixb (js "ap-") region then js "ap"
      else js "us" in
    regionPrefix ++ js ".amazon." ++ modelName
  else modelId.

Definition payload (recipeText : value) : value :=
  obj [ ("schemaVersion", str "messages-v1");
        ("system", arr [ obj [ ("text", JStr SYSTEM_PROMPT) ] ]);
        ("messages", arr [ obj [ ("role", str "user");
                                 ("content", arr [ obj [ ("text", recipeText) ] ]) ] ]);
        ("inferenceConfig", obj [ ("max_new_tokens", num 4096);
                                  ("temperature", temperature) ]) ].

(** The first textual content item of either response shape. *)
Definition textContentOf (responseBody : value) : result value :=
  output <~ get responseBody "output" ;;
  message <~ (if truthy output then get output "message" else Return output) ;;
  if truthy message then
    (* Nova / Messages API *)
    content <~ get message "content" ;;
    match content with
    | JArr (item :: items) _ =>
        find (fun item => text <~ get item "text" ;; Return (truthy text))
             (item :: items)
    | _ => Return JUndefined
    end
  else
    (* Claude / Anthropic *)
    content <~ get responseBody "content" ;;
    match content with
    | JArr items _ =>
        find (fun item => type <~ get item "type" ;; Return (is_str type "text"))
             items
    | _ => Return JUndefined
    end.

(** [ingredient => ({ name, quantity: quantity || 1, unit: (unit || '').toLowerCase() })] *)
Definition normalizeIngredient (ingredient : value) (index : nat)
  : result value :=
  name <~ get ingredient "name" ;;
  quantity <~ get ingredient "quantity" ;;
  unit <~ get ingredient "unit" ;;
  unit <~ match or_else unit (JStr []) with
          | JStr s => Return (JStr (toLowerCase env s))
          | v => Throw (not_a_function
                          (js "(ingredient.unit || " ++ [34%N; 34%N] ++ js ")")
                          v "toLowerCase")
          end ;;
  Return (obj [ ("name", name);
                ("quantity", or_else quantity (num 1));
                ("unit", unit) ]).

(** [(step, index) => ({ order: step.order || index + 1, text: step.text })] *)
Definition normalizeStep (step : value) (index : nat) : result value :=
  order <~ get step "order" ;;
  text <~ get step "text" ;;
  Return (obj [ ("order", or_else order (num (Z.of_nat index + 1)));
                ("text", text) ]).

(** The defaults applied to the parsed recipe (in place, in the source). *)
Definition applyDefaults (recipe : value) : result value :=
  servings <~ get recipe "servings" ;;
  recipe <~ (if negb (truthy servings)
             then set (ToString env) recipe "servings" (num 4)
             else Return recipe) ;;
  ingredients <~ get recipe "ingredients" ;;
  recipe <~ match ingredients with
            | JArr items _ =>
                items' <~ map_indexed normalizeIngredient items 0 ;;
                set (ToString env) recipe "ingredients" (arr items')
            | _ => Return recipe
            end ;;
  steps <~ get recipe "steps" ;;
  recipe <~ match steps with
            | JArr items _ =>
                items' <~ map_indexed normalizeStep items 0 ;;
                set (ToString env) recipe "steps" (arr items')
            | _ => Return recipe
            end ;;
  tags <~ get recipe "tags" ;;
  recipe <~ (if negb (truthy tags)
             then set (ToString env) recipe "tags" (arr [])
             else Return recipe) ;;
  Return recipe.

Definition no_text_content : jsstring :=
  js "No text content found in Bedrock response".
Definition parse_failure : jsstring :=
  js "Failed to parse recipe JSON from Bedrock response".

(** From the decoded response body to the parsed recipe: the part of the
    [try] block between the call and the defaults. *)
Definition parsedRecipe (raw : jsstring) : result value :=
  responseBody <~ parse env (JStr raw) ;;
  textContent <~ textContentOf responseBody ;;
  text <~ (if truthy textContent then get textContent "text"
           else Return JUndefined) ;;
  if negb (truthy textContent) || negb (truthy text) then
    Throw (Error no_text_content)
  else parse env text.

Definition recipeOfResponse (raw : jsstring) : result value :=
  recipe <~ parsedRecipe raw ;;
  applyDefaults recipe.

(** The [catch] block of [extractRecipe]. *)
Definition catchExtract (error : error) : M value :=
  if str_eqb (err_name error) (js "SyntaxError") then
    throw (Error parse_failure)
  else if err_metadata error then
    throw (Error (js "AWS Bedrock error: " ++ err_message error))
  else throw error.

Definition extractRecipe (recipeText : value) : M value :=
  observed (EvExtractRecipe recipeText) (
    modelId <- call (fun h => config_get env h (js "bedrock") (js "MODEL_ID"))
                    (EvConfig (js "bedrock") (js "MODEL_ID")) ;;
    modelId <- match modelId with
               | Some s => ret (inferenceProfile s)
               | None => throw (not_a_function (js "modelId") JUndefined
                                  "includes")
               end ;;
    if negb (truthy recipeText) || negb (type_eqb (typeof recipeText) TString)
    then throw (Error (js "Recipe text is required and must be a string"))
    else
      try_catch (
        raw <- call (fun h => bedrock_send env h modelId (payload recipeText))
                    (EvBedrockSend modelId (payload recipeText)) ;;
        lift (recipeOfResponse raw))
      catchExtract).

Definition checkBedrockAvailability : M bool :=
  try_catch (
    _ <- extractRecipe (str "Test recipe: pasta with tomato sauce") ;;
    ret true)
  (fun _ => ret false).

End WithEnv.
End Bedrock.

(* ===================================================================== *)
(** ** services/lambda.service.mjs *)
(* ===================================================================== *)

Module Lambda.
Section WithEnv.
Variable env : Env.

Definition lambdaName : jsstring :=
  js "recipekeeper-api-" ++ or_default (ENVIRONMENT env) "preprod".

(** The [try] block of [sendRecipeToAPI] after the invocation. *)
Definition responseOfInvocation (response : jsstring * value) : result value :=
  let (Payload, FunctionError) := response in
  responsePayload <~ parse env (JStr Payload) ;;
  if truthy FunctionError then
    Throw (Error (js "Lambda execution failed: "
                  ++ template_json env responsePayload))
  else
    body <~ get responsePayload "body" ;;
    parsedResponse <~
      (if truthy body && type_eqb (typeof body) TString then
         parsedBody <~ parse env body ;;
         Return (JObj (assign (js "body") parsedBody (spread responsePayload)))
       else Return responsePayload) ;;
    statusCode <~ get parsedResponse "statusCode" ;;
    if truthy statusCode && num_ge env statusCode 400 then
      parsedBody <~ get parsedResponse "body" ;;
      Throw (Error (js "API returned error status " ++ to_string env statusCode
                    ++ js ": " ++ template_json env parsedBody))
    else Return parsedResponse.

(** The [catch] block of [sendRecipeToAPI]. *)
Definition catchSend (error : error) : M value :=
  if str_eqb (err_name error) (js "ResourceNotFoundException") then
    throw (Error (js "Lambda function " ++ lambdaName
                  ++ js " not found. Check ENV variable."))
  else if str_eqb (err_name error) (js "AccessDeniedException") then
    throw (Error (js "No permission to invoke Lambda " ++ lambdaName))
  else throw error.

Definition sendRecipeToAPI (recipe : value) : M value :=
  observed (EvSendRecipe recipe) (
    try_catch (
      let payload :=
        obj [ ("httpMethod", str "POST");
              ("path", str "/recipes");
              ("headers", obj [ ("Content-Type", str "application/json") ]);
              ("body", JStr (JSON_stringify env recipe)) ] in
      response <- call (fun h => lambda_send env h lambdaName payload)
                       (EvLambdaSend lambdaName payload) ;;
      lift (responseOfInvocation response))
    catchSend).

Definition checkAPIAvailability : M bool :=
  try_catch (
    let testPayload :=
      obj [ ("httpMethod", str "GET"); ("path", str "/health");
            ("headers", obj []) ] in
    _ <- call (fun h => lambda_send env h lambdaName testPayload)
              (EvLambdaSend lambdaName testPayload) ;;
    ret true)
  (fun _ => ret false).

End WithEnv.
End Lambda.

(* ===================================================================== *)
(** ** services/s3.service.mjs and the effectful half of webpage.service *)
(* ===================================================================== *)

Module S3.

Definition isSupportedFile (env : Env) (key : jsstring) : bool :=
  let lowerKey := toLowerCase env key in
  endsWith lowerKey (js ".pdf") || endsWith lowerKey (js ".jpg")
  || endsWith lowerKey (js ".jpeg") || endsWith lowerKey (js ".png").

Definition isPdfFile (env : Env) (key : jsstring) : bool :=
  endsWith (toLowerCase env key) (js ".pdf").

End S3.

Module WebpageService.
Section WithEnv.
Variable env : Env.

(** The object [{ url, html, text, contentLength }]. *)
Record webContent := mkWebContent {
  wc_url : value;
  wc_html : jsstring;
  wc_text : jsstring;
  wc_contentLength : nat
}.

Definition fetchAndExtractWebpage (url : value) : M webContent :=
  html <- call (fun h => http_fetch env h url) (EvFetch url) ;;
  let text := Webpage.extractTextFromHtml html in
  ret (mkWebContent url html text (List.length text)).

Definition isValidUrl (url : value) : bool :=
  match URL_protocol env url with
  | Some protocol =>
      str_eqb protocol (js "http:") || str_eqb protocol (js "https:")
  | None => false
  end.

End WithEnv.
End WebpageService.

(* ===================================================================== *)
(** ** controllers/recipe.controller.mjs *)
(* ===================================================================== *)

Module Controller.
Section WithEnv.
Variable env : Env.

(** [{ error: apiError.message, sent: false }] *)
Definition notSent (apiError : error) : value :=
  obj [ ("error", JStr (err_message apiError)); ("sent", JBool false) ].

(** The object [extractRecipeFromText] returns. *)
Definition extraction (extractedRecipe apiResponse : value)
    (extractedAt : jsstring) (modelId : option jsstring) : value :=
  obj [ ("recipe", extractedRecipe);
        ("apiResponse", apiResponse);
        ("metadata", obj [ ("extractedAt", JStr extractedAt);
                           ("modelUsed", opt_value modelId) ]) ].

(** [!recipeText || typeof recipeText !== 'string' || recipeText.trim().length === 0] *)
Definition blank (recipeText : value) : bool :=
  match recipeText with
  | JStr s => match trim s with [] => true | _ => false end
  | _ => true
  end.

(** The outer [catch] block of [extractRecipeFromText]. *)
Definition catchExtraction (error : error) : M value :=
  if includes (err_message error) (js "Bedrock") then
    throw (Error (js "Bedrock service error: " ++ err_message error))
  else if includes (err_message error) (js "parse") then
    throw (Error (js "Failed to parse recipe from AI response. The text might not be a valid recipe."))
  else throw error.

(** The [try] block of [extractRecipeFromText]. *)
Definition attempt (modelId : option jsstring) (recipeText : value) : M value :=
  extractedRecipe <- Bedrock.extractRecipe env recipeText ;;
  validation <- lift (RecipeModel.validateRecipe extractedRecipe) ;;
  if negb (RecipeModel.valid validation) then
    throw (Error (js "Invalid recipe format: "
                  ++ join (js ", ") (RecipeModel.errors validation)))
  else
    apiResponse <- try_catch (Lambda.sendRecipeToAPI env extractedRecipe)
                             (fun apiError => ret (notSent apiError)) ;;
    extractedAt <- now env ;;
    ret (extraction extractedRecipe apiResponse extractedAt modelId).

Definition extractRecipeFromText (recipeText : value) : M value :=
  modelId <- call (fun h => config_get env h (js "bedrock") (js "MODEL_ID"))
                  (EvConfig (js "bedrock") (js "MODEL_ID")) ;;
  if blank recipeText then
    throw (Error (js "Recipe text is required and cannot be empty"))
  else
    try_catch (attempt modelId recipeText) catchExtraction.

Definition available (b : bool) : value :=
  if b then str "available" else str "unavailable".

(** [healthCheck] over the two probes it awaits. *)
Definition healthCheckWith (checkBedrockAvailability checkAPIAvailability : M bool)
  : M value :=
  try_catch (
    bedrockAvailable <- checkBedrockAvailability ;;
    apiAvailable <- checkAPIAvailability ;;
    let allHealthy := bedrockAvailable && apiAvailable in
    timestamp <- now env ;;
    ret (obj [ ("status", if allHealthy then str "healthy" else str "degraded");
               ("services", obj [ ("bedrock", available bedrockAvailable);
                                  ("recipeKeeperAPI", available apiAvailable) ]);
               ("timestamp", JStr timestamp) ]))
  (fun error =>
    timestamp <- now env ;;
    ret (obj [ ("status", str "unhealthy");
               ("error", JStr (err_message error));
               ("timestamp", JStr timestamp) ])).

Definition healthCheck : M value :=
  healthCheckWith (Bedrock.checkBedrockAvailability env)
                  (Lambda.checkAPIAvailability env).

End WithEnv.
End Controller.

(* ===================================================================== *)
(** ** handler.mjs *)
(* ===================================================================== *)

Module Handler.
Section WithEnv.
Variable env : Env.

Definition config (ns key : string) : M (option jsstring) :=
  call (fun h => config_get env h (js ns) (js key)) (EvConfig (js ns) (js key)).

(** One record of an S3 event. *)
Definition processS3Record (useSyncMode : bool)
    (snsTopicArn textractRoleArn : option jsstring) (record : value)
  : M value :=
  s3 <- lift (get record "s3") ;;
  bucket <- lift (b <~ get s3 "bucket" ;; get b "name") ;;
  rawKey <- lift (o <~ get s3 "object" ;; get o "key") ;;
  key <- match rawKey with
         | JStr k =>
             match decodeURIComponent env
                     (Regex.replace (Regex.lit "+") (js " ") k) with
             | inl key => ret key
             | inr msg => throw (mkError (js "URIError") msg false)
             end
         | v => throw (not_a_function (js "record.s3.object.key") v "replace")
         end ;;
  if negb (S3.isSupportedFile env key) then
    ret (obj [ ("bucket", bucket); ("key", JStr key);
               ("status", str "skipped"); ("reason", str "Not a PDF file") ])
  else
    try_catch (
      if useSyncMode then
        extractedText <- call (fun h => textract_detect env h bucket key)
                              (EvTextractDetect bucket key) ;;
        recipe <- Controller.extractRecipeFromText env (JStr extractedText) ;;
        ret (obj [ ("bucket", bucket); ("key", JStr key);
                   ("status", str "completed"); ("mode", str "synchronous");
                   ("recipe", recipe) ])
      else
        textractResult <-
          call (fun h => textract_start env h bucket key snsTopicArn textractRoleArn)
               (EvTextractStart bucket key snsTopicArn textractRoleArn) ;;
        jobId <- lift (get textractResult "jobId") ;;
        ret (obj [ ("bucket", bucket); ("key", JStr key);
                   ("status", str "processing"); ("mode", str "asynchronous");
                   ("jobId", jobId) ]))
    (fun error =>
      ret (obj [ ("bucket", bucket); ("key", JStr key);
                 ("status", str "error");
                 ("error", JStr (err_message error)) ])).

(** [for (const record of records) results.push(..)] *)
Fixpoint forRecords (f : value -> M value) (records : list value)
  : M (list value) :=
  match records with
  | [] => ret []
  | record :: rest =>
      x <- f record ;;
      xs <- forRecords f rest ;;
      ret (x :: xs)
  end.

(** [for (const record of event.Records)]: only an array can be iterated
    among the values that reach the loop. *)
Definition iterate (records : value) : M (list value) :=
  match records with
  | JArr items _ => ret items
  | _ => throw (TypeError (js "event.Records is not iterable"))
  end.

Definition handleS3Event (event : value) : M response :=
  let useSyncMode :=
    match USE_SYNC_TEXTRACT env with
    | Some s => str_eqb s (js "true")
    | None => false
    end in
  let run (snsTopicArn textractRoleArn : option jsstring) : M response :=
    records <- lift (get event "Records") ;;
    records <- iterate records ;;
    results <- forRecords
                 (processS3Record useSyncMode snsTopicArn textractRoleArn)
                 records ;;
    ret (successResponse env
           (obj [ ("message", str "S3 event processed");
                  ("results", arr results) ]) 202) in
  if negb useSyncMode then
    snsTopicArn <- config "textract" "SNS_TEXTRACT_ARN" ;;
    textractRoleArn <- config "textract" "ROLE_ARN" ;;
    if opt_falsy snsTopicArn || opt_falsy textractRoleArn then
      ret (errorResponse env (js "Missing Textract configuration") 500
             [js "TEXTRACT_SNS_TOPIC_ARN and TEXTRACT_ROLE_ARN must be set for async mode"])
    else run snsTopicArn textractRoleArn
  else run None None.

(** One record of an SQS event. *)
Definition processSqsRecord (record : value) : M value :=
  try_catch (
    recordBody <- lift (get record "body") ;;
    snsMessage <- lift (parse env recordBody) ;;
    inner <- lift (get snsMessage "Message") ;;
    textractMessage <- lift (parse env inner) ;;
    jobId <- lift (get textractMessage "JobId") ;;
    status <- lift (get textractMessage "Status") ;;
    if negb (is_str status "SUCCEEDED") then
      ret (obj [ ("jobId", jobId); ("status", status);
                 ("processed", JBool false) ])
    else
      extractedText <- call (fun h => textract_result env h jobId)
                            (EvTextractResult jobId) ;;
      if Controller.blank (JStr extractedText) then
        throw (Error (js "No text extracted from document"))
      else
        result <- Controller.extractRecipeFromText env (JStr extractedText) ;;
        recipe <- lift (get result "recipe") ;;
        apiResponse <- lift (get result "apiResponse") ;;
        ret (obj [ ("jobId", jobId); ("status", str "completed");
                   ("recipe", recipe); ("apiResponse", apiResponse) ]))
  (fun error =>
    messageId <- lift (get record "messageId") ;;
    ret (obj [ ("messageId", messageId); ("status", str "error");
               ("error", JStr (err_message error)) ])).

Definition handleSqsEvent (event : value) : M response :=
  records <- lift (get event "Records") ;;
  records <- iterate records ;;
  results <- forRecords processSqsRecord records ;;
  ret (successResponse env
         (obj [ ("message", str "SQS event processed");
                ("results", arr results) ]) 200).

(** Extraction from a URL. *)
Definition handleUrlExtraction (url : value) : M response :=
  if negb (WebpageService.isValidUrl env url) then
    ret (errorResponse env (js "Invalid URL format") 400 [])
  else
    try_catch (
      webContent <- WebpageService.fetchAndExtractWebpage env url ;;
      let text := WebpageService.wc_text webContent in
      if Controller.blank (JStr text) then
        ret (errorResponse env (js "No text content found at URL") 422 [])
      else
        let textToProcess :=
          if (50000 <? Z.of_nat (List.length text))%Z
          then firstn (Z.to_nat 50000) text
          else text in
        result <- Controller.extractRecipeFromText env (JStr textToProcess) ;;
        ret (successResponse env
               (JObj (assign (js "extractedTextLength")
                        (num (Z.of_nat (List.length text)))
                        (assign (js "sourceUrl") url (spread result))))
               200))
    (fun error =>
      if includes (err_message error) (js "fetch")
         || includes (err_message error) (js "timeout")
      then ret (errorResponse env (js "Failed to fetch webpage") 502
                  [err_message error])
      else throw error).

(** Extraction from literal text. *)
Definition handleTextExtraction (recipeText : value) : M response :=
  if length_gt env recipeText 50000 then
    ret (errorResponse env (js "Recipe text too long (max 50000 characters)")
           400 [])
  else
    result <- Controller.extractRecipeFromText env recipeText ;;
    ret (successResponse env result 200).

(** The [catch] block of [handleApiGatewayEvent]. *)
Definition apiErrorResponse (error : error) : response :=
  let message := err_message error in
  if includes message (js "Bedrock") then
    errorResponse env (js "AI service temporarily unavailable") 503 [message]
  else if includes message (js "parse") || includes message (js "Invalid recipe")
  then errorResponse env (js "Could not extract valid recipe from text") 422
         [message]
  else if includes message (js "required") then
    errorResponse env message 400 []
  else errorResponse env (js "Internal server error") 500 [message].

(** [typeof event.body === 'string' ? JSON.parse(event.body) : event.body] *)
Definition requestBody (event : value) : result value :=
  eventBody <~ get event "body" ;;
  match eventBody with
  | JStr _ => parse env eventBody
  | _ => Return eventBody
  end.

(** The [try] block of [handleApiGatewayEvent]. *)
Definition processRequest (event : value) : M response :=
  match requestBody event with
  | Throw parseError =>
      ret (errorResponse env (js "Invalid JSON in request body") 400 [])
  | Return body =>
      if negb (truthy body) then
        ret (errorResponse env (js "Missing request body") 400 [])
      else
        url <- lift (get body "url") ;;
        if truthy url then handleUrlExtraction url
        else
          recipeText <- lift (get body "recipeText") ;;
          if truthy recipeText then handleTextExtraction recipeText
          else ret (errorResponse env
                      (js "Missing required parameter: url or recipeText")
                      400 [])
  end.

Definition handleApiGatewayEvent (event : value) : M response :=
  try_catch (processRequest event)
            (fun error => ret (apiErrorResponse error)).

(** [event.Records && event.Records[0]?.eventSource === source] *)
Definition firstRecordIs (event : value) (source : string) : result bool :=
  records <~ get event "Records" ;;
  if truthy records then
    let first := at_index records 0 in
    eventSource <~ (if nullish first then Return JUndefined
                    else get first "eventSource") ;;
    Return (is_str eventSource source)
  else Return false.

Definition handler (event : value) : M response :=
  try_catch (
    isSqs <- lift (firstRecordIs event "aws:sqs") ;;
    if isSqs then handleSqsEvent event
    else
      isS3 <- lift (firstRecordIs event "aws:s3") ;;
      if isS3 then handleS3Event event
      else handleApiGatewayEvent event)
  (fun error =>
    ret (errorResponse env (js "Internal server error") 500
           [err_message error])).

Definition healthCheck : M response :=
  try_catch (
    health <- Controller.healthCheck env ;;
    status <- lift (get health "status") ;;
    let statusCode :=
      if is_str status "healthy" then 200%Z
      else if is_str status "degraded" then 207%Z
      else 503%Z in
    ret (successResponse env health statusCode))
  (fun error =>
    ret (errorResponse env (js "Health check failed") 500 [err_message error])).

Definition options : response :=
  mkResponse 200
    [ (js "Access-Control-Allow-Origin", str "*");
      (js "Access-Control-Allow-Methods", str "POST, GET, OPTIONS");
      (js "Access-Control-Allow-Headers", str "Content-Type, Authorization");
      (js "Access-Control-Max-Age", str "86400") ]
    [].

End WithEnv.
End Handler.

(* ===================================================================== *)
(** ** What the specification says of the validator *)
(* ===================================================================== *)

Module ValidatorSpec.
Import RecipeModel.

(** All the rules of the validator, each looked at alone, in the order of
    the source. *)
Definition all_errors (recipe : value) : list jsstring :=
  title_errors recipe ++ servings_errors recipe ++ ingredients_errors recipe
  ++ steps_errors recipe ++ tags_errors recipe.

(** The validator returns on [recipe], reports every rule that applies and
    sets [valid] exactly when nothing is reported. *)
Definition accumulates (recipe : value) : Prop :=
  exists res,
    validateRecipe recipe = Return res
    /\ errors res = all_errors recipe
    /\ (valid res = true <-> errors res = []).

End ValidatorSpec.

(* ===================================================================== *)
(** ** Sample data *)
(* ===================================================================== *)

Module Samples.

Definition farine : value :=
  obj [ ("name", str "farine"); ("quantity", num 200); ("unit", str "g") ].

Definition cuire : value :=
  obj [ ("order", num 1); ("text", str "Cuire 35 minutes") ].

(** A recipe without title and without servings. *)
Definition untitled : value :=
  obj [ ("ingredients", arr [farine]); ("steps", arr [cuire]);
        ("tags", arr []) ].

(** A recipe whose list of ingredients holds [null]. *)
Definition null_ingredient : value :=
  obj [ ("title", str "Tarte"); ("servings", num 6);
        ("ingredients", arr [JNull]); ("steps", arr [cuire]);
        ("tags", arr []) ].

End Samples.

(* ===================================================================== *)
(** ** What the specification says of the adapter's defaults *)
(* ===================================================================== *)

Module AdapterSpec.
Import RecipeModel.

Definition elements (v : value) : list value :=
  match v with
  | JArr items _ => items
  | _ => []
  end.

Definition positive (x : number) : bool :=
  match x with
  | S754_finite false _ _ | S754_infinity false => true
  | _ => false
  end.

Definition positive_number (v : value) : bool :=
  match v with
  | JNum x => positive x
  | _ => false
  end.

(** A string in lower case: the image of some string under [toLowerCase]. *)
Definition lower_case (env : Env) (v : value) : Prop :=
  exists s, v = JStr (toLowerCase env s).

(** A field the backend left out, or set to zero. *)
Definition omitted_or_zero (v : value) : Prop :=
  v = JUndefined \/ exists sign, v = JNum (S754_zero sign).

(** The [i]-th element of an array field. *)
Definition element (v : value) (k : string) (i : nat) : value :=
  nth i (elements (field v k)) JUndefined.

(** C2 as the specification states it, for the parsed backend JSON
    [parsed] and the recipe [r] the adapter returns. *)
Definition defaults_as_stated (env : Env) (parsed r : value) : Prop :=
  positive_number (field r "servings") = true
  /\ (forall ing, In ing (elements (field r "ingredients")) ->
        typeof (field ing "quantity") = TNumber
        /\ lower_case env (field ing "unit"))
  /\ (forall i, i < List.length (elements (field parsed "steps")) ->
        field (element parsed "steps" i) "order" = JUndefined ->
        field (element r "steps" i) "order" = num (Z.of_nat i + 1))
  /\ isArray (field r "tags") = true.

(** What the defaults do, field by field. *)
Definition defaulted_ingredient (env : Env) (ing out : value) : Prop :=
  exists s,
    or_else (field ing "unit") (JStr []) = JStr s
    /\ out = obj [ ("name", field ing "name");
                   ("quantity", or_else (field ing "quantity") (num 1));
                   ("unit", JStr (toLowerCase env s)) ].

Definition defaulted_step (i : nat) (step out : value) : Prop :=
  out = obj [ ("order", or_else (field step "order") (num (Z.of_nat i + 1)));
              ("text", field step "text") ].

(** [ys] is [xs] with [R i] between the elements at index [start + i]. *)
Fixpoint pointwise (R : nat -> value -> value -> Prop) (start : nat)
    (xs ys : list value) : Prop :=
  match xs, ys with
  | [], [] => True
  | x :: xs', y :: ys' => R start x y /\ pointwise R (S start) xs' ys'
  | _, _ => False
  end.

Definition defaults_applied (env : Env) (parsed r : value) : Prop :=
  field r "servings" = or_else (field parsed "servings") (num 4)
  /\ match field parsed "ingredients" with
     | JArr items _ =>
         exists items', field r "ingredients" = arr items'
           /\ pointwise (fun _ => defaulted_ingredient env) 0 items items'
     | v => field r "ingredients" = v
     end
  /\ match field parsed "steps" with
     | JArr items _ =>
         exists items', field r "steps" = arr items'
           /\ pointwise defaulted_step 0 items items'
     | v => field r "steps" = v
     end
  /\ field r "tags" = (if truthy (field parsed "tags")
                       then field parsed "tags" else arr []).


(** C2 as the code has it, for the parsed backend JSON [parsed] and the
    recipe [r] the adapter returns. *)
Definition normalised (env : Env) (parsed r : value) : Prop :=
  (field r "servings" = or_else (field parsed "servings") (num 4)
   /\ truthy (field r "servings") = true)
  /\ (forall i, i < List.length (elements (field r "ingredients")) ->
        field (element r "ingredients" i) "quantity"
        = or_else (field (element parsed "ingredients" i) "quantity") (num 1)
        /\ truthy (field (element r "ingredients" i) "quantity") = true
        /\ lower_case env (field (element r "ingredients" i) "unit"))
  /\ (forall i, i < List.length (elements (field r "steps")) ->
        field (element r "steps" i) "order"
        = or_else (field (element parsed "steps" i) "order")
                  (num (Z.of_nat i + 1)))
  /\ (field r "tags" = (if truthy (field parsed "tags")
                        then field parsed "tags" else arr [])
      /\ truthy (field r "tags") = true).

(** C9: a zero is defaulted like an omitted field. *)
Definition zero_defaulted (parsed r : value) : Prop :=
  (omitted_or_zero (field parsed "servings") -> field r "servings" = num 4)
  /\ (forall i, i < List.length (elements (field parsed "ingredients")) ->
        omitted_or_zero (field (element parsed "ingredients" i) "quantity") ->
        field (element r "ingredients" i) "quantity" = num 1)
  /\ (forall i, i < List.length (elements (field parsed "steps")) ->
        omitted_or_zero (field (element parsed "steps" i) "order") ->
        field (element r "steps" i) "order" = num (Z.of_nat i + 1)).

End AdapterSpec.

(* ===================================================================== *)
(** ** Sample environments *)
(* ===================================================================== *)

Module Demo.

(** JSON text written with ['] for its double quotes. *)
Definition json (s : string) : jsstring :=
  map (fun c => if N.eqb c 39 then 34%N else c) (js s).

(** [toLowerCase] on ASCII text. *)
Definition ascii_lower (s : jsstring) : jsstring :=
  map (fun c => if (65 <=? c)%N && (c <=? 90)%N then (c + 32)%N else c) s.

Fixpoint assoc (k : jsstring) (table : list (jsstring * value))
  : option value :=
  match table with
  | [] => None
  | (k', v) :: rest => if str_eqb k k' then Some v else assoc k rest
  end.

(** An environment in which [JSON.parse] knows the documents of [table],
    the model is configured as [modelId], and the backend, the downstream
    Lambda and the web answer [bedrock], [lambda] and [page] to every
    call. *)
Definition env_of (table : list (jsstring * value))
    (modelId : result (option jsstring)) (bedrock : result jsstring)
    (lambda : result (jsstring * value)) (page : result jsstring) : Env :=
  {| toLowerCase := ascii_lower;
     JSON_parse := fun s => match assoc s table with
                            | Some v => inl v
                            | None => inr (js "Unexpected token in JSON")
                            end;
     JSON_stringify := fun _ => js "{}";   (* a stand-in: no sample reads it *)
     ToNumber := fun _ => S754_nan;
     ToString := fun _ => js "[object Object]";
     URL_protocol := fun v =>
       match v with
       | JStr s => if prefixb (js "https://") s then Some (js "https:")
                   else if prefixb (js "http://") s then Some (js "http:")
                   else None
       | _ => None
       end;
     decodeURIComponent := fun s => inl s;
     AWS_REGION := None;
     ENVIRONMENT := None;
     USE_SYNC_TEXTRACT := None;
     config_get := fun _ _ _ => modelId;
     bedrock_send := fun _ _ _ => bedrock;
     lambda_send := fun _ _ _ => lambda;
     http_fetch := fun _ _ => page;
     textract_start := fun _ _ _ _ _ =>
       Throw (Error (js "Failed to start Textract: unavailable"));
     textract_result := fun _ _ =>
       Throw (Error (js "Failed to get Textract results: unavailable"));
     textract_detect := fun _ _ _ =>
       Throw (Error (js "Failed to extract text (sync): unavailable"));
     clock := fun _ => js "2026-01-16T10:30:00.000Z" |}.

Definition claude : option jsstring :=
  Some (js "anthropic.claude-3-sonnet-20240229-v1:0").

(** A response of the backend in the Claude shape carrying [text]. *)
Definition claude_response (text : jsstring) : value :=
  obj [ ("content", arr [ obj [ ("type", str "text"); ("text", JStr text) ] ]) ].

(** *** A well-formed recipe *)

Definition salade_text : jsstring :=
  json "{'title':'Salade verte','servings':0,'ingredients':[{'name':'laitue','quantity':0,'unit':'Piece'}],'steps':[{'order':0,'text':'Laver'},{'text':'Assaisonner'}]}".

Definition salade_raw : jsstring :=
  json "{'content':[{'type':'text','text':'{\'title\':\'Salade verte\',\'servings\':0,\'ingredients\':[{\'name\':\'laitue\',\'quantity\':0,\'unit\':\'Piece\'}],\'steps\':[{\'order\':0,\'text\':\'Laver\'},{\'text\':\'Assaisonner\'}]}'}]}".

Definition salade_parsed : value :=
  obj [ ("title", str "Salade verte");
        ("servings", num 0);
        ("ingredients", arr [ obj [ ("name", str "laitue");
                                    ("quantity", num 0);
                                    ("unit", str "Piece") ] ]);
        ("steps", arr [ obj [ ("order", num 0); ("text", str "Laver") ];
                        obj [ ("text", str "Assaisonner") ] ]) ].

Definition salade_table : list (jsstring * value) :=
  [ (salade_raw, claude_response salade_text);
    (salade_text, salade_parsed) ].

(** The downstream Lambda is down. *)
Definition lambda_down : result (jsstring * value) :=
  Throw (mkError (js "ServiceException") (js "Service unavailable") true).

Definition no_page : result jsstring :=
  Throw (Error (js "Failed to fetch webpage: getaddrinfo ENOTFOUND")).

Definition salade_env : Env :=
  env_of salade_table (Return claude) (Return salade_raw) lambda_down no_page.

(** *** A recipe with a negative number of servings, a quantity in words
    and a single tag given as a string *)

Definition tarte_text : jsstring :=
  json "{'title':'Tarte','servings':-2,'ingredients':[{'name':'farine','quantity':'deux','unit':'G'}],'steps':[{'text':'Cuire'}],'tags':'dessert'}".

Definition tarte_raw : jsstring :=
  json "{'content':[{'type':'text','text':'{\'title\':\'Tarte\',\'servings\':-2,\'ingredients\':[{\'name\':\'farine\',\'quantity\':\'deux\',\'unit\':\'G\'}],\'steps\':[{\'text\':\'Cuire\'}],\'tags\':\'dessert\'}'}]}".

Definition tarte_parsed : value :=
  obj [ ("title", str "Tarte");
        ("servings", num (-2));
        ("ingredients", arr [ obj [ ("name", str "farine");
                                    ("quantity", str "deux");
                                    ("unit", str "G") ] ]);
        ("steps", arr [ obj [ ("text", str "Cuire") ] ]);
        ("tags", str "dessert") ].

Definition tarte_env : Env :=
  env_of [ (tarte_raw, claude_response tarte_text); (tarte_text, tarte_parsed) ]
         (Return claude) (Return tarte_raw) lambda_down no_page.

(** *** Both dependencies down *)

Definition bedrock_down : result jsstring :=
  Throw (mkError (js "ServiceUnavailableException")
                 (js "Service unavailable") true).

Definition down_env : Env :=
  env_of [] (Return claude) bedrock_down lambda_down no_page.

(** *** The backend answers without any content item *)

Definition empty_raw : jsstring := json "{'content':[]}".

Definition empty_env : Env :=
  env_of [ (empty_raw, obj [ ("content", arr []) ]) ]
         (Return claude) (Return empty_raw) lambda_down no_page.

(** *** The backend answers in prose *)

Definition prose_raw : jsstring :=
  json "{'content':[{'type':'text','text':'Voici la recette demandee.'}]}".

Definition prose_env : Env :=
  env_of [ (prose_raw, claude_response (js "Voici la recette demandee.")) ]
         (Return claude) (Return prose_raw) lambda_down no_page.

(** *** Requests *)

Definition request (fields : list (string * value)) : value :=
  obj [ ("body", obj fields) ].

Definition salade_event : value :=
  request [ ("recipeText", str "Salade verte: laitue. Laver, assaisonner.") ].

Definition sqs_event : value :=
  obj [ ("Records", arr [ obj [ ("eventSource", str "aws:sqs");
                                ("messageId", str "m-1");
                                ("body", str "{}") ] ]) ].

Definition tarte_request : value := str "Tarte: deux G de farine. Cuire.".
Definition salade_request : value :=
  str "Salade verte: laitue. Laver, assaisonner.".

End Demo.


(* ===================================================================== *)
(** ** White space in normal form *)
(* ===================================================================== *)

Module Whitespace.
Import Regex Webpage.

Fixpoint drop_while (p : N -> bool) (s : jsstring) : jsstring :=
  match s with
  | c :: s' => if p c then drop_while p s' else s
  | [] => []
  end.

(** The white space at the head of [s] holds a line feed. *)
Fixpoint ws_has_nl (s : jsstring) : bool :=
  match s with
  | c :: s' =>
      if N.eqb c 10 then true
      else if is_space c then ws_has_nl s' else false
  | [] => false
  end.

(** A line feed that white space separates from another line feed is
    directly followed by it, and no third one follows in that white
    space. *)
Fixpoint lines_normal (s : jsstring) : Prop :=
  match s with
  | [] => True
  | c :: t =>
      (c = 10%N -> ws_has_nl t = true ->
       exists t', t = 10%N :: t' /\ ws_has_nl t' = false)
      /\ lines_normal t
  end.

(** No tab, and no blank next to a blank. *)
Fixpoint blanks_normal (s : jsstring) : Prop :=
  match s with
  | [] => True
  | c :: t =>
      c <> 9%N
      /\ (c = 32%N -> match t with
                      | c' :: _ => space_or_tab c' = false
                      | [] => True
                      end)
      /\ blanks_normal t
  end.

(** Neither white space at the head nor at the end. *)
Definition trimmed (s : jsstring) : Prop := trim s = s.

(** What [\n] hands over to in [\n\s*\n]. *)
Definition line_feed (s : jsstring) : option jsstring :=
  match s with
  | c :: s' => if N.eqb 10 c then Some s' else None
  | [] => None
  end.

Definition squeeze_lines : jsstring -> jsstring :=
  replace re_blank_lines (newline ++ newline).
Definition squeeze_blanks : jsstring -> jsstring :=
  replace re_spaces (js " ").

(** No code unit of [s] is [<] or [&]. *)
Definition plain (s : jsstring) : Prop :=
  Forall (fun c => c <> 60%N /\ c <> 38%N) s.

(** [r] cannot match a string whose first code unit is outside [p]. *)
Definition starts_with (p : N -> bool) (r : re) : Prop :=
  forall (s : jsstring),
    match s with
    | c :: _ => p c = false
    | [] => True
    end ->
    match_at r s = None.

End Whitespace.

Module Pages.

(** A page whose text needs no entity. *)
Definition tarte : jsstring :=
  js "<html><head><style>p { margin: 0 }</style></head><body><h1>Tarte  aux pommes</h1>

<p>250g	de farine<br>5 pommes</p>   <!-- fin --></body></html>".

(** The text of an ampersand written as an entity, as a page shows it. *)
Definition escaped_entity : jsstring := js "&amp;amp;".

End Pages.

(* ===================================================================== *)
(** ** Reading a trace *)
(* ===================================================================== *)

Module Trace.

(** An event of a collaborator, as opposed to the completion of a service
    call of the controller. *)
Definition outside (ev : event) : Prop :=
  match ev with
  | EvExtractRecipe _ _ | EvSendRecipe _ _ => False
  | _ => True
  end.

(** Every event a computation adds satisfies [P]. *)
Definition emits {A} (P : event -> Prop) (m : M A) : Prop :=
  forall h out evs, m h = (out, evs) -> Forall P evs.


(** The completion of a call to [sendRecipeToAPI]. *)
Definition not_a_send (ev : event) : Prop :=
  match ev with
  | EvSendRecipe _ _ => False
  | _ => True
  end.

(** What [extractRecipeFromText] stores as [apiResponse] for an outcome of
    the submission. *)
Definition apiResponseOf (outcome : result value) : value :=
  match outcome with
  | Return response => response
  | Throw apiError => Controller.notSent apiError
  end.

End Trace.


(* ===================================================================== *)
(** ** What the specification says of the health check *)
(* ===================================================================== *)

Module HealthSpec.

(** What the two probes report in a run started at [h]: [None] when one of
    them throws. *)
Definition probed (checkBedrockAvailability checkAPIAvailability : M bool)
    (h : history) : option (bool * bool) :=
  match checkBedrockAvailability h with
  | (Return bedrockAvailable, evs) =>
      match checkAPIAvailability (h ++ evs) with
      | (Return apiAvailable, _) => Some (bedrockAvailable, apiAvailable)
      | (Throw _, _) => None
      end
  | (Throw _, _) => None
  end.

(** C4 as the specification states it: degraded exactly when one
    dependency is available and the other is not. *)
Definition status_as_stated (bedrockAvailable apiAvailable : bool) (status : value)
  : Prop :=
  (status = str "healthy" <-> bedrockAvailable && apiAvailable = true)
  /\ (status = str "degraded" <-> xorb bedrockAvailable apiAvailable = true).

End HealthSpec.

(* ===================================================================== *)
(** ** What the specification says of the router and of the envelope *)
(* ===================================================================== *)

Module RoutingSpec.
Import RecipeModel.

Inductive path := JobCompletion | StorageUpload | DirectRequest.

(** [Records[0].eventSource]; undefined when [Records] is absent or empty
    and when the first record carries no marker. *)
Definition first_event_source (event : value) : value :=
  let records := field event "Records" in
  if truthy records then field (at_index records 0) "eventSource"
  else JUndefined.

Definition classify (event : value) : path :=
  if is_str (first_event_source event) "aws:sqs" then JobCompletion
  else if is_str (first_event_source event) "aws:s3" then StorageUpload
  else DirectRequest.

Definition dispatch (env : Env) (p : path) (event : value) : M response :=
  match p with
  | JobCompletion => Handler.handleSqsEvent env event
  | StorageUpload => Handler.handleS3Event env event
  | DirectRequest => Handler.handleApiGatewayEvent env event
  end.

(** The [try]/[catch] around the three paths. *)
Definition guarded (env : Env) (m : M response) : M response :=
  try_catch m (fun error =>
    ret (errorResponse env (js "Internal server error") 500
           [err_message error])).

(** The answer to an event that is [null] or [undefined]: its [Records]
    cannot be read, and the [catch] block reports the [TypeError]. *)
Definition unrouted (env : Env) (event : value) : response :=
  errorResponse env (js "Internal server error") 500
    [err_message (cannot_read event (js "Records"))].

End RoutingSpec.

Module EnvelopeSpec.

Definition success_envelope (env : Env) (r : response) : Prop :=
  exists data, body r = JSON_stringify env (success_body data).

Definition error_envelope (env : Env) (r : response) : Prop :=
  exists message details,
    body r = JSON_stringify env (error_body message details).

(** The three headers, and a body that says [success: true] under a
    success status or [success: false] with [error.message] and
    [error.details] under an error status. *)
Definition envelope (env : Env) (r : response) : Prop :=
  headers r = json_headers
  /\ ((success_envelope env r /\ statusCode r = 200%Z)
      \/ (error_envelope env r
          /\ In (statusCode r) [400; 422; 500; 502; 503]%Z)).

(** Every response a computation returns satisfies [Q]. *)
Definition yields {A} (Q : A -> Prop) (m : M A) : Prop :=
  forall h out evs, m h = (out, evs) ->
    match out with
    | Return r => Q r
    | Throw _ => True
    end.

End EnvelopeSpec.

Module LengthSpec.

(** The response of the URL path to a successful extraction. *)
Definition url_success (env : Env) (url : value) (text : jsstring)
    (result : value) : response :=
  successResponse env
    (JObj (assign (js "extractedTextLength")
             (num (Z.of_nat (List.length text)))
             (assign (js "sourceUrl") url (spread result))))
    200.

Definition too_long (env : Env) : response :=
  errorResponse env (js "Recipe text too long (max 50000 characters)") 400 [].

(** The first 50,000 code units. *)
Definition capped (text : jsstring) : jsstring := firstn (Z.to_nat 50000) text.

(** A page of 60,000 letters, the site that serves it, and the request
    for it. *)
Definition long_page : jsstring := repeat 97%N (Z.to_nat 60000).

Definition page_env : Env :=
  Demo.env_of Demo.salade_table (Return Demo.claude) (Return Demo.salade_raw)
              Demo.lambda_down (Return long_page).

Definition url_event : value :=
  Demo.request [ ("url", str "https://example.org/salade") ].

(** A request with a literal text of 50,001 letters. *)
Definition long_text_event : value :=
  Demo.request [ ("recipeText", JStr (repeat 97%N (Z.to_nat 50001))) ].

End LengthSpec.

(* ===================================================================== *)
(** ** handler.js: the CommonJS handler *)
(* ===================================================================== *)

Module Legacy.
Section WithController.
Variable env : Env.

(** [recipeController.extractRecipeFromText], of
    './controllers/recipe.controller'. *)
Variable extractRecipeFromText : value -> M value.

(** The [try] block of [exports.extractRecipe]. *)
Definition processRequest (event : value) : M response :=
  match Handler.requestBody env event with
  | Throw parseError =>
      ret (errorResponse env (js "Invalid JSON in request body") 400 [])
  | Return body =>
      if negb (truthy body) then
        ret (errorResponse env (js "Missing required parameter: recipeText")
               400 [])
      else
        recipeText <- lift (get body "recipeText") ;;
        if negb (truthy recipeText) then
          ret (errorResponse env (js "Missing required parameter: recipeText")
                 400 [])
        else if length_gt env recipeText 50000 then
          ret (errorResponse env
                 (js "Recipe text too long (max 50000 characters)") 400 [])
        else
          result <- extractRecipeFromText recipeText ;;
          ret (successResponse env result 200)
  end.

Definition extractRecipe (event : value) : M response :=
  try_catch (processRequest event)
            (fun error => ret (Handler.apiErrorResponse env error)).

End WithController.
End Legacy.

(* ===================================================================== *)
(** ** services/textract.service.mjs *)
(* ===================================================================== *)

Module Textract.
Section WithEnv.
Variable env : Env.

(** [blocks.filter(block => block.BlockType === 'LINE')] *)
Fixpoint lineBlocks (blocks : list value) : result (list value) :=
  match blocks with
  | [] => Return []
  | block :: rest =>
      blockType <~ get block "BlockType" ;;
      kept <~ lineBlocks rest ;;
      Return (if is_str blockType "LINE" then block :: kept else kept)
  end.

(** [.map(block => block.Text)] *)
Fixpoint texts (blocks : list value) : result (list value) :=
  match blocks with
  | [] => Return []
  | block :: rest =>
      text <~ get block "Text" ;;
      others <~ texts rest ;;
      Return (text :: others)
  end.

(** [blocks.filter(..).map(..)] on the [Blocks] of a response. *)
Definition linesOf (blocks : value) : result (list value) :=
  match blocks with
  | JArr items _ => kept <~ lineBlocks items ;; texts kept
  | v => Throw (not_a_function (js "response.Blocks") v "filter")
  end.

(** [lines.join('\n')]: [undefined] and [null] count as empty strings. *)
Definition joinLines (lines : list value) : jsstring :=
  join [10%N]
       (map (fun line => match line with
                         | JUndefined | JNull => []
                         | _ => to_string env line
                         end) lines).

(** [detectDocumentTextSync], from the outcome of the call to Textract. *)
Definition detectDocumentTextSync (sent : result value) : result jsstring :=
  match (response <~ sent ;;
         blocks <~ get response "Blocks" ;;
         lines <~ linesOf blocks ;;
         Return (joinLines lines)) with
  | Return extractedText => Return extractedText
  | Throw error =>
      Throw (Error (js "Failed to extract text (sync): " ++ err_message error))
  end.

(** One turn of the loop of [getTextExtractionResult] on the response of
    Textract: the lines gathered so far and the next token. *)
Definition page (response : value) (allText : list value)
  : result (list value * value) :=
  jobStatus <~ get response "JobStatus" ;;
  if is_str jobStatus "FAILED" then
    statusMessage <~ get response "StatusMessage" ;;
    Throw (Error (js "Textract job failed: " ++ to_string env statusMessage))
  else if negb (is_str jobStatus "SUCCEEDED") then
    Throw (Error (js "Textract job not completed yet. Status: "
                  ++ to_string env jobStatus))
  else
    blocks <~ get response "Blocks" ;;
    allText <~ (if truthy blocks then
                  lines <~ linesOf blocks ;; Return (allText ++ lines)
                else Return allText) ;;
    nextToken <~ get response "NextToken" ;;
    Return (allText, nextToken).

(** The [do .. while (nextToken)] loop.  [send n nextToken] is what Textract
    answers to the [n]-th request of the run, made with [nextToken]; the
    loop has no bound of its own, [fuel] bounds the number of requests. *)
Fixpoint pages (fuel : nat) (send : nat -> value -> result value) (n : nat)
    (nextToken : value) (allText : list value) : option (result (list value)) :=
  match fuel with
  | 0 => None
  | S fuel' =>
      match (response <~ send n nextToken ;; page response allText) with
      | Throw e => Some (Throw e)
      | Return (allText', nextToken') =>
          if truthy nextToken' then pages fuel' send (S n) nextToken' allText'
          else Some (Return allText')
      end
  end.

Definition getTextExtractionResult (fuel : nat)
    (send : nat -> value -> result value) : option (result jsstring) :=
  match pages fuel send 0 JNull [] with
  | None => None
  | Some (Return allText) => Some (Return (joinLines allText))
  | Some (Throw error) =>
      Some (Throw (Error (js "Failed to get Textract results: "
                          ++ err_message error)))
  end.

End WithEnv.

(** *** A job in pages *)

(** The texts of the LINE blocks, in order. *)
Definition lineTexts (blocks : list value) : list value :=
  map (fun block => RecipeModel.field block "Text")
      (filter (fun block => is_str (RecipeModel.field block "BlockType") "LINE")
              blocks).

(** A page of a finished job: its blocks and the token of the next page. *)
Definition succeeded (blocks : list value) (nextToken : value) : value :=
  obj [ ("JobStatus", str "SUCCEEDED");
        ("Blocks", arr blocks);
        ("NextToken", nextToken) ].

(** The responses of a job of several pages: page [n] carries the token
    [tokens n], but for the last page, which carries none. *)
Fixpoint paged (tokens : nat -> jsstring) (n : nat) (job : list (list value))
  : list value :=
  match job with
  | [] => []
  | [blocks] => [succeeded blocks JUndefined]
  | blocks :: rest =>
      succeeded blocks (JStr (tokens n)) :: paged tokens (S n) rest
  end.

(** The token Textract expects with the [n]-th request for the job: none
    with the first one, then the token of the page before. *)
Definition expected (tokens : nat -> jsstring) (n : nat) (nextToken : value)
  : bool :=
  match n, nextToken with
  | 0, JNull => true
  | S m, JStr token => str_eqb token (tokens m)
  | _, _ => false
  end.

(** Textract answering the pages of [responses], one per request, and
    refusing a request that does not carry the expected token. *)
Definition serving (tokens : nat -> jsstring) (responses : list value)
  : nat -> value -> result value :=
  fun n nextToken =>
    if expected tokens n nextToken then
      match nth_error responses n with
      | Some response => Return response
      | None => Throw (Error (js "InvalidJobIdException"))
      end
    else Throw (Error (js "InvalidParameterException")).

End Textract.

(* ===================================================================== *)
(** ** The recipes the validator accepts *)
(* ===================================================================== *)

Module RecipeShape.
Import RecipeModel.

(** A string that is not empty. *)
Definition text (v : value) : bool :=
  match v with
  | JStr (_ :: _) => true
  | _ => false
  end.

Definition number (v : value) : bool :=
  match v with
  | JNum _ => true
  | _ => false
  end.

(** A number other than [0], [-0] and [NaN]. *)
Definition nonzero_number (v : value) : bool :=
  match v with
  | JNum (S754_zero _) | JNum S754_nan => false
  | JNum _ => true
  | _ => false
  end.

Definition ingredient (v : value) : bool :=
  text (field v "name") && number (field v "quantity") && text (field v "unit").

Definition step (v : value) : bool :=
  number (field v "order") && text (field v "text").

(** An array whose elements all satisfy [p]. *)
Definition list_of (p : value -> bool) (v : value) : bool :=
  match v with
  | JArr items _ => forallb p items
  | _ => false
  end.

Definition conforms (recipe : value) : bool :=
  text (field recipe "title")
  && nonzero_number (field recipe "servings")
  && list_of ingredient (field recipe "ingredients")
  && list_of step (field recipe "steps")
  && isArray (field recipe "tags").

End RecipeShape.

(* ===================================================================== *)
(** ** What the [catch] blocks throw *)
(* ===================================================================== *)

Module Caught.
Section WithEnv.
Variable env : Env.

(** The error the [catch] block of [extractRecipe] throws for the error it
    caught. *)
Definition byAdapter (error : error) : Js.error :=
  if str_eqb (err_name error) (js "SyntaxError") then
    Error Bedrock.parse_failure
  else if err_metadata error then
    Error (js "AWS Bedrock error: " ++ err_message error)
  else error.

(** The same for [sendRecipeToAPI]. *)
Definition bySender (error : error) : Js.error :=
  if str_eqb (err_name error) (js "ResourceNotFoundException") then
    Error (js "Lambda function " ++ Lambda.lambdaName env
           ++ js " not found. Check ENV variable.")
  else if str_eqb (err_name error) (js "AccessDeniedException") then
    Error (js "No permission to invoke Lambda " ++ Lambda.lambdaName env)
  else error.

(** The same for the outer [catch] block of [extractRecipeFromText]. *)
Definition byController (error : error) : Js.error :=
  if includes (err_message error) (js "Bedrock") then
    Error (js "Bedrock service error: " ++ err_message error)
  else if includes (err_message error) (js "parse") then
    Error (js "Failed to parse recipe from AI response. The text might not be a valid recipe.")
  else error.

(** What a service call gives when its [try] block gives [out]. *)
Definition through {A} (caught : error -> error) (out : result A) : result A :=
  match out with
  | Return a => Return a
  | Throw e => Throw (caught e)
  end.

(** The text the adapter refuses before any call to the model:
    [!recipeText || typeof recipeText !== 'string']. *)
Definition refused (recipeText : value) : bool :=
  negb (truthy recipeText) || negb (type_eqb (typeof recipeText) TString).

(** The request [sendRecipeToAPI] hands to the downstream Lambda. *)
Definition submission (recipe : value) : value :=
  obj [ ("httpMethod", str "POST");
        ("path", str "/recipes");
        ("headers", obj [ ("Content-Type", str "application/json") ]);
        ("body", JStr (JSON_stringify env recipe)) ].

End WithEnv.
End Caught.

Module Outcome.
Import RecipeModel Caught.

(** The error of the controller for a recipe the validator refuses. *)
Definition refusal (v : validation) : error :=
  Error (js "Invalid recipe format: " ++ join (js ", ") (errors v)).

(** What the controller makes of the outcome of the adapter: [out] is the
    outcome of [extractRecipeFromText] when [extractRecipe] gave
    [extracted]. *)
Definition follows (out : result value) (extracted : result value) : Prop :=
  match extracted with
  | Throw e => out = Throw (byController e)
  | Return r =>
      match validateRecipe r with
      | Throw e => out = Throw (byController e)
      | Return v =>
          if valid v then
            exists apiResponse extractedAt modelId,
              out = Return (Controller.extraction r apiResponse extractedAt
                              modelId)
          else out = Throw (byController (refusal v))
      end
  end.

End Outcome.

(* ===================================================================== *)
(** ** Direct requests, by what they ask for *)
(* ===================================================================== *)

Module Requests.
Import RecipeModel.
Section WithEnv.
Variable env : Env.

(** The text of a request that [handleApiGatewayEvent] hands to
    [handleTextExtraction]: the body has no [url] and has a [recipeText]. *)
Definition textOf (event : value) : option value :=
  match Handler.requestBody env event with
  | Return body =>
      if truthy body && negb (truthy (field body "url"))
         && truthy (field body "recipeText")
      then Some (field body "recipeText")
      else None
  | Throw _ => None
  end.

(** The URL of a request that goes to [handleUrlExtraction]. *)
Definition urlOf (event : value) : option value :=
  match Handler.requestBody env event with
  | Return body =>
      if truthy body && truthy (field body "url")
      then Some (field body "url")
      else None
  | Throw _ => None
  end.

(** A request that one of the checks made before any call turns down: a
    body that is not JSON, no body, neither [url] nor [recipeText], a [url]
    that is not an http(s) URL, a [recipeText] of more than 50,000
    characters. *)
Definition malformed (event : value) : bool :=
  match Handler.requestBody env event with
  | Throw _ => true
  | Return body =>
      negb (truthy body)
      || (if truthy (field body "url")
          then negb (WebpageService.isValidUrl env (field body "url"))
          else negb (truthy (field body "recipeText"))
               || length_gt env (field body "recipeText") 50000)
  end.

End WithEnv.

End Requests.

Module UrlPath.
Section WithEnv.
Variable env : Env.

(** The test of the [catch] block of [handleUrlExtraction]. *)
Definition fetchFailure (e : error) : bool :=
  includes (err_message e) (js "fetch") || includes (err_message e) (js "timeout").

(** What the URL path answers when its [try] block throws [e]. *)
Definition failed (e : error) : response :=
  if fetchFailure e then
    errorResponse env (js "Failed to fetch webpage") 502 [err_message e]
  else Handler.apiErrorResponse env e.

(** The text handed to the controller: the first 50,000 code units. *)
Definition textToProcess (text : jsstring) : jsstring :=
  if (50000 <? Z.of_nat (List.length text))%Z
  then firstn (Z.to_nat 50000) text
  else text.

End WithEnv.
End UrlPath.

Module HandlerSpec.

Definition statuses : list Z := [200; 202; 400; 422; 500; 502; 503]%Z.

(** A response of the Lambda: the JSON and CORS headers and a status the
    handler knows. *)
Definition answer (r : response) : Prop :=
  headers r = json_headers /\ In (statusCode r) statuses.

End HandlerSpec.

(* ===================================================================== *)
(** ** Reading a trace, path by path *)
(* ===================================================================== *)

Module Events.

(** A read of the configuration. *)
Definition ofConfig (ev : event) : Prop :=
  match ev with
  | EvConfig _ _ _ => True
  | _ => False
  end.

(** The events of a submission and of its time stamp. *)
Definition downstream (ev : event) : Prop :=
  match ev with
  | EvLambdaSend _ _ _ | EvSendRecipe _ _ | EvClock _ => True
  | _ => False
  end.

(** An invocation of the model, and an invocation of the downstream
    Lambda. *)
Definition isModelCall (ev : event) : bool :=
  match ev with
  | EvBedrockSend _ _ _ => true
  | _ => false
  end.

Definition isSubmission (ev : event) : bool :=
  match ev with
  | EvLambdaSend _ _ _ => true
  | _ => false
  end.

Section WithEnv.
Variable env : Env.

(** The events of the storage path in asynchronous mode: the configuration
    is read and Textract jobs are started, for supported files only. *)
Definition ofAsyncUpload (ev : event) : Prop :=
  match ev with
  | EvConfig _ _ _ => True
  | EvTextractStart _ key _ _ _ => S3.isSupportedFile env key = true
  | _ => False
  end.

(** The events of the storage path in synchronous mode: text is detected
    in supported files and handed to the controller; the configuration of
    Textract is not read and no job is started. *)
Definition ofSyncUpload (ev : event) : Prop :=
  match ev with
  | EvTextractDetect _ key _ => S3.isSupportedFile env key = true
  | EvConfig ns _ _ => ns = js "bedrock"
  | EvTextractStart _ _ _ _ _ | EvTextractResult _ _ | EvFetch _ _ => False
  | _ => True
  end.

(** [process.env.USE_SYNC_TEXTRACT === 'true'] *)
Definition useSyncMode : bool :=
  match USE_SYNC_TEXTRACT env with
  | Some s => str_eqb s (js "true")
  | None => false
  end.

(** The notification a record of the queue carries: the message of
    Textract inside the message of SNS,
    [JSON.parse(JSON.parse(record.body).Message)]. *)
Definition notificationOf (record : value) : result value :=
  recordBody <~ get record "body" ;;
  snsMessage <~ parse env recordBody ;;
  inner <~ get snsMessage "Message" ;;
  parse env inner.

End WithEnv.
End Events.

Module Chars.

(** No code unit of [s] is [c]. *)
Definition lacks (c : N) (s : jsstring) : bool :=
  forallb (fun x => negb (N.eqb x c)) s.

End Chars.

Module Lengths.
Import Regex.

(** Every match of [r] is at least as long as the replacement [rep]. *)
Definition shrinks (r : re) (rep : jsstring) : Prop :=
  forall s rest,
    match_at r s = Some rest ->
    List.length rep + List.length rest <= List.length s.

End Lengths.

(* ===================================================================== *)
(** ** More sample requests *)
(* ===================================================================== *)

Module Cases.

Definition tarte_event : value :=
  Demo.request [ ("recipeText", Demo.tarte_request) ].

(** A text of three spaces. *)
Definition blank_event : value :=
  Demo.request [ ("recipeText", str "   ") ].

(** A page that holds a script and nothing to read, and the site that
    serves it. *)
Definition script_page : jsstring :=
  js "<html><head><script>var a = 1 < 2;</script></head><body> <br> </body></html>".

Definition script_env : Env :=
  Demo.env_of [] (Return Demo.claude) Demo.bedrock_down Demo.lambda_down
              (Return script_page).

Definition salade_url : value := str "https://example.org/salade".

(** The downstream Lambda stores the recipe and answers 201. *)
Definition stored_raw : jsstring := Demo.json "{'statusCode':201,'body':'{}'}".

Definition stored_env : Env :=
  Demo.env_of
    [ (stored_raw, obj [ ("statusCode", num 201); ("body", str "{}") ]);
      (js "{}", obj []) ]
    (Return Demo.claude) Demo.bedrock_down
    (Return (stored_raw, JUndefined)) Demo.no_page.

(** An upload of two files, the second of which is not supported, and an
    environment in which Textract accepts every job. *)
Definition s3_record (key : string) : value :=
  obj [ ("eventSource", str "aws:s3");
        ("s3", obj [ ("bucket", obj [ ("name", str "recettes") ]);
                     ("object", obj [ ("key", str key) ]) ]) ].

Definition s3_event : value :=
  obj [ ("Records", arr [ s3_record "tarte+aux+pommes.PDF";
                          s3_record "notes.txt" ]) ].

Definition upload_env : Env :=
  let e := Demo.salade_env in
  {| toLowerCase := toLowerCase e;
     JSON_parse := JSON_parse e;
     JSON_stringify := JSON_stringify e;
     ToNumber := ToNumber e;
     ToString := ToString e;
     URL_protocol := URL_protocol e;
     decodeURIComponent := decodeURIComponent e;
     AWS_REGION := AWS_REGION e;
     ENVIRONMENT := ENVIRONMENT e;
     USE_SYNC_TEXTRACT := USE_SYNC_TEXTRACT e;
     config_get := fun _ _ key => Return (Some (js "arn:aws:" ++ key));
     bedrock_send := bedrock_send e;
     lambda_send := lambda_send e;
     http_fetch := http_fetch e;
     textract_start := fun _ _ _ _ _ =>
       Return (obj [ ("jobId", str "job-1"); ("status", str "STARTED") ]);
     textract_result := textract_result e;
     textract_detect := textract_detect e;
     clock := clock e |}.

(** A response of the backend whose first content item is not text. *)
Definition thinking_raw : jsstring :=
  Demo.json "{'content':[{'type':'thinking','thinking':'...'},{'type':'text','text':'{}'},{'type':'text','text':'[]'}]}".

Definition thinking_response : value :=
  obj [ ("content",
         arr [ obj [ ("type", str "thinking"); ("thinking", str "...") ];
               obj [ ("type", str "text"); ("text", str "{}") ];
               obj [ ("type", str "text"); ("text", str "[]") ] ]) ].

Definition thinking_env : Env :=
  Demo.env_of [ (thinking_raw, thinking_response); (js "{}", obj []) ]
              (Return Demo.claude) (Return thinking_raw) Demo.lambda_down
              Demo.no_page.

(** A document of two pages, and the tokens of its pages. *)
Definition block (blockType text : string) : value :=
  obj [ ("BlockType", str blockType); ("Text", str text) ].

Definition job : list (list value) :=
  [ [ block "PAGE" "1"; block "LINE" "Tarte aux pommes"; block "WORD" "Tarte";
      block "LINE" "5 pommes" ];
    [ block "LINE" "Cuire 35 minutes" ] ].

Definition tokens (i : nat) : jsstring := js "page-" ++ string_of_index (S i).

(** The model is reached and answers after its time limit. *)
Definition model_timeout : error :=
  mkError (js "ModelTimeoutException") (js "Model timeout, retry later") true.

Definition timeout_env : Env :=
  Demo.env_of [] (Return Demo.claude) (Throw model_timeout) Demo.lambda_down
              (Return Pages.tarte).

(** The synchronous mode. *)
Definition sync_env : Env :=
  let e := Demo.salade_env in
  {| toLowerCase := toLowerCase e;
     JSON_parse := JSON_parse e;
     JSON_stringify := JSON_stringify e;
     ToNumber := ToNumber e;
     ToString := ToString e;
     URL_protocol := URL_protocol e;
     decodeURIComponent := decodeURIComponent e;
     AWS_REGION := AWS_REGION e;
     ENVIRONMENT := ENVIRONMENT e;
     USE_SYNC_TEXTRACT := Some (js "true");
     config_get := config_get e;
     bedrock_send := bedrock_send e;
     lambda_send := lambda_send e;
     http_fetch := http_fetch e;
     textract_start := textract_start e;
     textract_result := textract_result e;
     textract_detect := fun _ _ _ => Return (js "Salade verte: laitue.");
     clock := clock e |}.

(** A notification of Textract for a finished job, as SNS wraps it and the
    queue delivers it. *)
Definition notification_raw : jsstring :=
  Demo.json "{'JobId':'job-1','Status':'SUCCEEDED'}".

Definition sns_raw : jsstring := Demo.json "{'Message':'...'}".

Definition notified_event : value :=
  obj [ ("Records", arr [ obj [ ("eventSource", str "aws:sqs");
                                ("messageId", str "m-1");
                                ("body", JStr sns_raw) ] ]) ].

Definition notified_env : Env :=
  Demo.env_of
    [ (sns_raw, obj [ ("Message", JStr notification_raw) ]);
      (notification_raw,
       obj [ ("JobId", str "job-1"); ("Status", str "SUCCEEDED") ]) ]
    (Return Demo.claude) Demo.bedrock_down Demo.lambda_down Demo.no_page.

(** The backend answers with a JSON string where a recipe is expected. *)
Definition scalar_raw : jsstring :=
  Demo.json "{'content':[{'type':'text','text':'\'parse\''}]}".

Definition scalar_env : Env :=
  Demo.env_of
    [ (scalar_raw, Demo.claude_response (Demo.json "'parse'"));
      (Demo.json "'parse'", str "parse") ]
    (Return Demo.claude) (Return scalar_raw) Demo.lambda_down Demo.no_page.

End Cases.

(* ===================================================================== *)
(** * Properties *)
(* ===================================================================== *)

Unset Implicit Arguments.

Lemma str_eqb_spec a b : str_eqb a b = true <-> a = b.
Proof.
  revert b; induction a as [|x a IH]; intros [|y b]; simpl; split;
    try congruence; try reflexivity.
  - intros H. apply andb_true_iff in H as [H1 H2].
    apply N.eqb_eq in H1. apply IH in H2. congruence.
  - intros H. inversion H; subst. rewrite N.eqb_refl. simpl. now apply IH.
Qed.

Lemma str_eqb_refl a : str_eqb a a = true.
Proof. now apply str_eqb_spec. Qed.


(* ===================================================================== *)
(** ** The validator *)
(* ===================================================================== *)

Section ValidatorFacts.
Import RecipeModel ValidatorSpec.

Lemma get_field v k : RecipeModel.readable v = true -> get v k = Return (field v k).
Proof. destruct v; simpl; intros H; try discriminate; reflexivity. Qed.

Lemma truthy_readable v : truthy v = true -> RecipeModel.readable v = true.
Proof. destruct v; simpl; intros H; try discriminate; reflexivity. Qed.

Lemma push_if_app cond msg errs :
  push_if cond msg errs = errs ++ (if cond then [msg] else []).
Proof. destruct cond; simpl; [reflexivity | now rewrite app_nil_r]. Qed.

Lemma checkIngredient_errors ingredient index errs :
  RecipeModel.readable ingredient = true ->
  checkIngredient ingredient index errs
  = Return (errs ++ ingredient_errors ingredient index).
Proof.
  intros R. unfold checkIngredient, ingredient_errors.
  rewrite !get_field by exact R. simpl.
  rewrite !push_if_app, <- !app_assoc. reflexivity.
Qed.

Lemma checkStep_errors step index errs :
  RecipeModel.readable step = true ->
  checkStep step index errs = Return (errs ++ step_errors step index).
Proof.
  intros R. unfold checkStep, step_errors.
  rewrite !get_field by exact R. simpl.
  rewrite !push_if_app, <- !app_assoc. reflexivity.
Qed.

(** The loop over an array adds the reports of its elements, whatever was
    reported before. *)
Lemma forEach_errors check rule
    (Hcheck : forall item index errs, RecipeModel.readable item = true ->
                check item index errs = Return (errs ++ rule item index))
    items :
  forallb RecipeModel.readable items = true ->
  forall index errs,
    forEach check items index errs
    = Return (errs ++ each_errors rule items index).
Proof.
  induction items as [|item rest IH]; simpl; intros R index errs.
  - now rewrite app_nil_r.
  - apply andb_true_iff in R as [R1 R2].
    rewrite (Hcheck _ _ _ R1). simpl.
    rewrite (IH R2), <- app_assoc. reflexivity.
Qed.

(** A loop that meets an element it cannot read does not return. *)
Lemma forEach_throws check
    (Hcheck : forall item index errs, RecipeModel.readable item = false ->
                exists e, check item index errs = Throw e)
    (Hok : forall item index errs, RecipeModel.readable item = true ->
                exists errs', check item index errs = Return errs')
    items :
  forallb RecipeModel.readable items = false ->
  forall index errs, exists e, forEach check items index errs = Throw e.
Proof.
  induction items as [|item rest IH]; simpl; intros R index errs.
  - discriminate.
  - destruct (RecipeModel.readable item) eqn:R1; simpl in R.
    + destruct (Hok item index errs R1) as [errs' ->]. simpl. now apply IH.
    + destruct (Hcheck item index errs R1) as [e ->]. simpl. now exists e.
Qed.

Lemma valid_flag (errs : list jsstring) :
  Nat.eqb (List.length errs) 0 = true <-> errs = [].
Proof. destruct errs; simpl; split; congruence. Qed.

Lemma validateRecipe_returns recipe :
  truthy recipe = true ->
  elements_readable recipe = true ->
  validateRecipe recipe
  = Return (mkValidation (Nat.eqb (List.length (all_errors recipe)) 0)
                         (all_errors recipe)).
Proof.
  intros T E. unfold validateRecipe. rewrite T. simpl.
  pose proof (truthy_readable _ T) as R.
  rewrite !get_field by exact R. simpl.
  unfold elements_readable in E. apply andb_true_iff in E as [E1 E2].
  unfold all_errors, title_errors, servings_errors, ingredients_errors,
    steps_errors, tags_errors.
  rewrite !push_if_app. simpl.
  destruct (field recipe "ingredients") eqn:Hi;
    destruct (field recipe "steps") eqn:Hs; simpl;
    try rewrite (forEach_errors _ _ checkIngredient_errors _ E1); simpl;
    try rewrite (forEach_errors _ _ checkStep_errors _ E2); simpl;
    rewrite ?push_if_app, <- ?app_assoc; simpl;
    destruct (isArray (field recipe "tags")); simpl;
    rewrite <- ?app_assoc; reflexivity.
Qed.

End ValidatorFacts.

Section ValidatorClaims.
Import RecipeModel ValidatorSpec.

Lemma validateRecipe_valid_iff recipe res :
  validateRecipe recipe = Return res ->
  (valid res = true <-> errors res = []).
Proof.
  unfold validateRecipe. destruct (truthy recipe); simpl.
  - repeat match goal with
           | |- context [rbind ?x _] => destruct x; simpl; try discriminate
           end.
    intros H; injection H as <-. simpl. apply valid_flag.
  - intros H; injection H as <-. simpl. split; discriminate.
Qed.

(** C6, amended.  For every candidate that is not null (truthy) and whose
    [ingredients] and [steps] arrays hold no [null] or [undefined] element,
    [validateRecipe] returns, reports the errors of every rule (title,
    servings, ingredients, steps, tags) independently of the others, in
    order, and sets [valid] exactly when the list is empty; without title
    and servings there are at least two errors.  A falsy candidate yields
    [valid = false] and the single error "Recipe object is required". *)
Theorem validateRecipe_accumulates (recipe : value) :
  (truthy recipe = true ->
   elements_readable recipe = true ->
   accumulates recipe
   /\ (truthy (field recipe "title") = false ->
       truthy (field recipe "servings") = false ->
       forall res, validateRecipe recipe = Return res ->
                   2 <= List.length (errors res)))
  /\ (truthy recipe = false ->
      validateRecipe recipe
      = Return (mkValidation false [js "Recipe object is required"])).
Proof.
  split.
  - intros T E. pose proof (validateRecipe_returns _ T E) as H. split.
    + eexists. split; [exact H|]. split; [reflexivity|].
      simpl. apply valid_flag.
    + intros Ht Hs res Hres. rewrite H in Hres. injection Hres as <-. simpl.
      unfold all_errors, title_errors, servings_errors, missing_or_not.
      rewrite Ht, Hs. simpl. lia.
  - intros F. unfold validateRecipe. now rewrite F.
Qed.

Lemma validateRecipe_accumulates_witness :
  truthy Samples.untitled = true
  /\ elements_readable Samples.untitled = true
  /\ accumulates Samples.untitled
  /\ (forall res, validateRecipe Samples.untitled = Return res ->
                  2 <= List.length (errors res)).
Proof.
  split; [reflexivity|]. split; [reflexivity|].
  destruct (proj1 (validateRecipe_accumulates Samples.untitled)
              eq_refl eq_refl) as [A B].
  split; [exact A|]. apply B; reflexivity.
Defined.

(** C6 as stated fails: on a non-null candidate whose [ingredients] array
    holds [null] the validator throws a TypeError and returns nothing. *)
Lemma validateRecipe_null_element :
  truthy Samples.null_ingredient = true
  /\ ~ accumulates Samples.null_ingredient.
Proof.
  split; [reflexivity|]. intros [res [H _]].
  vm_compute in H. discriminate.
Qed.

End ValidatorClaims.

(* ===================================================================== *)
(** ** Objects: reading after writing *)
(* ===================================================================== *)

Section ObjectFacts.
Import RecipeModel.

Lemma lookup_assign_same k v props : lookup k (assign k v props) = v.
Proof.
  induction props as [|[k' v'] rest IH]; simpl.
  - now rewrite str_eqb_refl.
  - destruct (str_eqb k k') eqn:E; simpl; rewrite E; [reflexivity | exact IH].
Qed.

Lemma lookup_assign_other k k' v props :
  str_eqb k k' = false -> lookup k (assign k' v props) = lookup k props.
Proof.
  intros N. induction props as [|[k'' v''] rest IH]; simpl.
  - now rewrite N.
  - destruct (str_eqb k' k'') eqn:E; simpl.
    + apply str_eqb_spec in E. subst k''. now rewrite N.
    + destruct (str_eqb k k''); [reflexivity | exact IH].
Qed.

(** A successful assignment changes the field written and no other. *)
Lemma set_spec toString recipe k v r :
  set toString recipe k v = Return r ->
  RecipeModel.readable r = true
  /\ field r k = v
  /\ forall k', str_eqb (js k') (js k) = false -> field r k' = field recipe k'.
Proof.
  destruct recipe; simpl; try discriminate; intros H; injection H as <-;
    unfold field; simpl; (split; [reflexivity|]);
    (split; [apply lookup_assign_same | intros k' N; now apply lookup_assign_other]).
Qed.

Lemma field_of_get v k x : get v k = Return x -> field v k = x.
Proof. unfold field. now intros ->. Qed.

Lemma get_returns_readable v k x :
  get v k = Return x -> RecipeModel.readable v = true.
Proof. destruct v; simpl; intros H; try discriminate; reflexivity. Qed.

End ObjectFacts.

(* ===================================================================== *)
(** ** The adapter's defaults *)
(* ===================================================================== *)

Section AdapterFacts.
Import RecipeModel AdapterSpec.
Variable env : Env.

Lemma normalizeIngredient_spec ing index out :
  Bedrock.normalizeIngredient env ing index = Return out ->
  defaulted_ingredient env ing out.
Proof.
  unfold Bedrock.normalizeIngredient, defaulted_ingredient.
  destruct (get ing "name") as [name|] eqn:Hn; simpl; [|discriminate].
  pose proof (get_returns_readable _ _ _ Hn) as R.
  rewrite !get_field by exact R. apply field_of_get in Hn. simpl.
  destruct (or_else (field ing "unit") (JStr [])) eqn:Hu; simpl;
    try discriminate.
  intros H; injection H as <-. exists s. split; [reflexivity|].
  now rewrite Hn.
Qed.

Lemma normalizeStep_spec step index out :
  Bedrock.normalizeStep step index = Return out ->
  defaulted_step index step out.
Proof.
  unfold Bedrock.normalizeStep, defaulted_step.
  destruct (get step "order") as [order|] eqn:Ho; simpl; [|discriminate].
  pose proof (get_returns_readable _ _ _ Ho) as R.
  rewrite !get_field by exact R. apply field_of_get in Ho. simpl.
  intros H; injection H as <-. now rewrite Ho.
Qed.

Lemma map_indexed_pointwise f (R : nat -> value -> value -> Prop)
    (Hf : forall x i y, f x i = Return y -> R i x y) items :
  forall index items',
    map_indexed f items index = Return items' ->
    pointwise R index items items'.
Proof.
  induction items as [|item rest IH]; simpl; intros index items' H.
  - injection H as <-. exact I.
  - destruct (f item index) as [y|] eqn:Hy; simpl in H; [|discriminate].
    destruct (map_indexed f rest (S index)) as [ys|] eqn:Hys; simpl in H;
      [|discriminate].
    injection H as <-. split; [now apply Hf | now apply IH].
Qed.


(** One conditional assignment of [applyDefaults]. *)
Lemma stage_spec (recipe r : value) (k : string) (cond : bool) (v : value) :
  RecipeModel.readable recipe = true ->
  (if cond then set (ToString env) recipe k v else Return recipe)
  = Return r ->
  RecipeModel.readable r = true
  /\ field r k = (if cond then v else field recipe k)
  /\ forall k', str_eqb (js k') (js k) = false -> field r k' = field recipe k'.
Proof.
  intros R. destruct cond; intros H.
  - now apply set_spec in H.
  - injection H as <-. auto.
Qed.

Lemma applyDefaults_spec parsed r :
  Bedrock.applyDefaults env parsed = Return r ->
  defaults_applied env parsed r.
Proof.
  unfold Bedrock.applyDefaults, defaults_applied.
  destruct (get parsed "servings") as [servings|] eqn:G0; cbn [rbind]; [|discriminate].
  pose proof (get_returns_readable _ _ _ G0) as R0.
  apply field_of_get in G0. subst servings.
  (* servings *)
  destruct (if negb (truthy (field parsed "servings"))
            then set (ToString env) parsed "servings" (num 4) else Return parsed)
    as [r1|] eqn:S1; cbn [rbind]; [|discriminate].
  apply (stage_spec _ _ _ _ _ R0) in S1 as (R1 & F1 & O1).
  rewrite get_field by exact R1. cbn [rbind].
  (* ingredients *)
  destruct (match field r1 "ingredients" with
            | JArr items _ =>
                items' <~ map_indexed (Bedrock.normalizeIngredient env) items 0 ;;
                set (ToString env) r1 "ingredients" (arr items')
            | _ => Return r1
            end) as [r2|] eqn:S2; cbn [rbind]; [|discriminate].
  assert (R2 : RecipeModel.readable r2 = true
          /\ (forall k', str_eqb (js k') (js "ingredients") = false ->
                         field r2 k' = field r1 k')
          /\ match field r1 "ingredients" with
             | JArr items _ =>
                 exists items', field r2 "ingredients" = arr items'
                   /\ pointwise (fun _ => defaulted_ingredient env) 0 items items'
             | v => field r2 "ingredients" = v
             end).
  { destruct (field r1 "ingredients") eqn:Hi;
      try (injection S2 as <-; rewrite Hi; auto).
    destruct (map_indexed (Bedrock.normalizeIngredient env) items 0)
      as [items'|] eqn:Hm; simpl in S2; [|discriminate].
    apply set_spec in S2 as (Ra & Fa & Oa).
    split; [exact Ra|]. split; [exact Oa|].
    exists items'. split; [exact Fa|].
    eapply map_indexed_pointwise; [|exact Hm].
    intros x i y Hy. eapply normalizeIngredient_spec; exact Hy. }
  destruct R2 as (R2 & O2 & I2).
  rewrite get_field by exact R2. cbn [rbind].
  (* steps *)
  destruct (match field r2 "steps" with
            | JArr items _ =>
                items' <~ map_indexed Bedrock.normalizeStep items 0 ;;
                set (ToString env) r2 "steps" (arr items')
            | _ => Return r2
            end) as [r3|] eqn:S3; cbn [rbind]; [|discriminate].
  assert (R3 : RecipeModel.readable r3 = true
          /\ (forall k', str_eqb (js k') (js "steps") = false ->
                         field r3 k' = field r2 k')
          /\ match field r2 "steps" with
             | JArr items _ =>
                 exists items', field r3 "steps" = arr items'
                   /\ pointwise defaulted_step 0 items items'
             | v => field r3 "steps" = v
             end).
  { destruct (field r2 "steps") eqn:Hi;
      try (injection S3 as <-; rewrite Hi; auto).
    destruct (map_indexed Bedrock.normalizeStep items 0)
      as [items'|] eqn:Hm; simpl in S3; [|discriminate].
    apply set_spec in S3 as (Ra & Fa & Oa).
    split; [exact Ra|]. split; [exact Oa|].
    exists items'. split; [exact Fa|].
    eapply map_indexed_pointwise; [|exact Hm].
    intros x i y Hy. eapply normalizeStep_spec; exact Hy. }
  destruct R3 as (R3 & O3 & I3).
  rewrite get_field by exact R3. cbn [rbind].
  (* tags *)
  destruct (if negb (truthy (field r3 "tags"))
            then set (ToString env) r3 "tags" (arr []) else Return r3)
    as [r4|] eqn:S4; cbn [rbind]; [|discriminate].
  apply (stage_spec _ _ _ _ _ R3) in S4 as (R4 & F4 & O4).
  intros H; injection H as <-.
  (* every field of the result in terms of the parsed recipe *)
  assert (E2 : field r2 "steps" = field parsed "steps").
  { rewrite O2 by reflexivity. now rewrite O1 by reflexivity. }
  assert (E1 : field r1 "ingredients" = field parsed "ingredients").
  { now rewrite O1 by reflexivity. }
  assert (E3 : field r3 "tags" = field parsed "tags").
  { rewrite O3 by reflexivity. rewrite O2 by reflexivity.
    now rewrite O1 by reflexivity. }
  repeat split.
  - rewrite O4 by reflexivity. rewrite O3 by reflexivity.
    rewrite O2 by reflexivity. rewrite F1. unfold or_else.
    now destruct (truthy (field parsed "servings")).
  - rewrite O4 by reflexivity. rewrite O3 by reflexivity.
    rewrite <- E1. exact I2.
  - rewrite O4 by reflexivity. rewrite <- E2. exact I3.
  - rewrite F4, E3. now destruct (truthy (field parsed "tags")).
Qed.

End AdapterFacts.

(* ===================================================================== *)
(** ** Runs: taking a computation apart *)
(* ===================================================================== *)

Section RunFacts.
Context {A B : Type}.

Lemma bind_inv (m : M A) (k : A -> M B) h out evs :
  bind m k h = (out, evs) ->
  (exists e, m h = (Throw e, evs) /\ out = Throw e)
  \/ (exists a evs1 evs2,
        m h = (Return a, evs1) /\ k a (h ++ evs1) = (out, evs2)
        /\ evs = evs1 ++ evs2).
Proof.
  unfold bind. destruct (m h) as [[a|e] evs1].
  - destruct (k a (h ++ evs1)) as [r evs2] eqn:K. intros H; injection H as <- <-.
    right. now exists a, evs1, evs2.
  - intros H; injection H as <- <-. left. now exists e.
Qed.

Lemma bind_inv_return (m : M A) (k : A -> M B) h b evs :
  bind m k h = (Return b, evs) ->
  exists a evs1 evs2,
    m h = (Return a, evs1) /\ k a (h ++ evs1) = (Return b, evs2)
    /\ evs = evs1 ++ evs2.
Proof.
  intros H. apply bind_inv in H as [(e & _ & H)|H]; [discriminate | exact H].
Qed.

Lemma try_catch_inv (m : M A) (handler : error -> M A) h out evs :
  try_catch m handler h = (out, evs) ->
  (exists a, m h = (Return a, evs) /\ out = Return a)
  \/ (exists e evs1 evs2,
        m h = (Throw e, evs1) /\ handler e (h ++ evs1) = (out, evs2)
        /\ evs = evs1 ++ evs2).
Proof.
  unfold try_catch. destruct (m h) as [[a|e] evs1].
  - intros H; injection H as <- <-. left. now exists a.
  - destruct (handler e (h ++ evs1)) as [r evs2] eqn:K.
    intros H; injection H as <- <-. right. now exists e, evs1, evs2.
Qed.

Lemma call_inv (oracle : history -> result A) ev h out evs :
  call oracle ev h = (out, evs) -> out = oracle h /\ evs = [ev out].
Proof. unfold call. intros H; injection H as <- <-. auto. Qed.

Lemma ret_inv (a : A) h out evs :
  ret a h = (out, evs) -> out = Return a /\ evs = [].
Proof. unfold ret. intros H; injection H as <- <-. auto. Qed.

Lemma throw_inv (e : error) h (out : result A) evs :
  throw e h = (out, evs) -> out = Throw e /\ evs = [].
Proof. unfold throw. intros H; injection H as <- <-. auto. Qed.

Lemma lift_inv (r : result A) h out evs :
  lift r h = (out, evs) -> out = r /\ evs = [].
Proof. unfold lift. intros H; injection H as <- <-. auto. Qed.

End RunFacts.

Lemma observed_inv ev (m : M value) h out evs :
  observed ev m h = (out, evs) ->
  exists evs0, m h = (out, evs0) /\ evs = evs0 ++ [ev out].
Proof.
  unfold observed. destruct (m h) as [r evs0].
  intros H; injection H as <- <-. now exists evs0.
Qed.

(** One step of inversion on a hypothesis about a run. *)
Ltac run_inv H :=
  match type of H with
  | ret _ _ = _ => apply ret_inv in H as [? ?]
  | throw _ _ = _ => apply throw_inv in H as [? ?]
  | lift _ _ = _ => apply lift_inv in H as [? ?]
  | call _ _ _ = _ => apply call_inv in H as [? ?]
  | now _ _ = _ => unfold now in H; injection H as ? ?
  | observed _ _ _ = _ => apply observed_inv in H as (? & H & ?)
  | bind _ _ _ = (Return _, _) =>
      let H1 := fresh "Hm" in
      apply bind_inv_return in H as (? & ? & ? & H1 & H & ?)
  end.

Section BedrockRuns.
Import RecipeModel AdapterSpec.
Variable env : Env.

(** A recipe the adapter returns is the parsed text of a response of the
    backend, with the defaults applied. *)
Lemma extractRecipe_inv recipeText h r evs :
  Bedrock.extractRecipe env recipeText h = (Return r, evs) ->
  exists modelId raw parsed,
    In (EvBedrockSend modelId (Bedrock.payload recipeText) (Return raw)) evs
    /\ Bedrock.parsedRecipe env raw = Return parsed
    /\ Bedrock.applyDefaults env parsed = Return r.
Proof.
  unfold Bedrock.extractRecipe. intros H.
  apply observed_inv in H as (evs0 & H & ->).
  apply bind_inv_return in H as (cfg & evs1 & evs2 & _ & H & ->).
  apply bind_inv_return in H as (modelId & evs3 & evs4 & _ & H & ->).
  destruct (negb (truthy recipeText) || _) in H; [run_inv H; discriminate|].
  apply try_catch_inv in H as [(a & H & Ha)|(e & evs5 & evs6 & _ & H & _)].
  - injection Ha as <-.
    apply bind_inv_return in H as (raw & evs5 & evs6 & Hc & H & ->).
    apply call_inv in Hc as [Hraw ->]. apply lift_inv in H as [H ->].
    unfold Bedrock.recipeOfResponse in H.
    destruct (Bedrock.parsedRecipe env raw) as [parsed|] eqn:P; [|discriminate].
    exists modelId, raw, parsed.
    split; [|auto]. rewrite !in_app_iff. simpl. auto 10.
  - unfold Bedrock.catchExtract in H.
    destruct (str_eqb _ _); [run_inv H; discriminate|].
    destruct (err_metadata e); run_inv H; discriminate.
Qed.

End BedrockRuns.

Section AdapterClaims.
Import RecipeModel AdapterSpec.

Lemma pointwise_length R start xs ys :
  pointwise R start xs ys -> List.length xs = List.length ys.
Proof.
  revert start ys; induction xs as [|x xs IH]; intros start [|y ys]; simpl;
    try tauto.
  intros [_ H]. f_equal. eapply IH; exact H.
Qed.

Lemma pointwise_nth R start xs ys :
  pointwise R start xs ys ->
  forall i, i < List.length xs ->
    R (start + i) (nth i xs JUndefined) (nth i ys JUndefined).
Proof.
  revert start ys; induction xs as [|x xs IH]; intros start [|y ys]; simpl;
    try tauto; try (intros _ i Hi; lia).
  intros [H0 H] [|i] Hi.
  - now rewrite Nat.add_0_r.
  - rewrite Nat.add_succ_r. apply (IH (S start) ys H i). lia.
Qed.

Lemma omitted_or_zero_falsy v : omitted_or_zero v -> truthy v = false.
Proof. intros [->|[sign ->]]; reflexivity. Qed.

Lemma or_else_truthy a b : truthy b = true -> truthy (or_else a b) = true.
Proof. unfold or_else. destruct (truthy a) eqn:E; auto. Qed.

(** The array fields of the result, element by element. *)
Lemma defaults_ingredients env parsed r :
  defaults_applied env parsed r ->
  List.length (elements (field r "ingredients"))
  = List.length (elements (field parsed "ingredients"))
  /\ forall i, i < List.length (elements (field r "ingredients")) ->
       defaulted_ingredient env (element parsed "ingredients" i)
                                (element r "ingredients" i).
Proof.
  intros (_ & H & _). unfold element.
  destruct (field parsed "ingredients") eqn:E;
    try (rewrite H; simpl; split; [reflexivity | intros i Hi; simpl in Hi; lia]).
  destruct H as (items' & -> & P). simpl.
  pose proof (pointwise_length _ _ _ _ P) as L. split; [now rewrite L|].
  intros i Hi. apply (pointwise_nth _ _ _ _ P i). lia.
Qed.

Lemma defaults_steps env parsed r :
  defaults_applied env parsed r ->
  List.length (elements (field r "steps"))
  = List.length (elements (field parsed "steps"))
  /\ forall i, i < List.length (elements (field r "steps")) ->
       defaulted_step i (element parsed "steps" i) (element r "steps" i).
Proof.
  intros (_ & _ & H & _). unfold element.
  destruct (field parsed "steps") eqn:E;
    try (rewrite H; simpl; split; [reflexivity | intros i Hi; simpl in Hi; lia]).
  destruct H as (items' & -> & P). simpl.
  pose proof (pointwise_length _ _ _ _ P) as L. split; [now rewrite L|].
  intros i Hi. apply (pointwise_nth _ _ _ _ P i). lia.
Qed.

Lemma defaults_normalised env parsed r :
  defaults_applied env parsed r -> normalised env parsed r.
Proof.
  intros D. pose proof D as (Hs & _ & _ & Ht).
  destruct (defaults_ingredients _ _ _ D) as [_ Hi].
  destruct (defaults_steps _ _ _ D) as [_ Ho].
  split; [|split; [|split]].
  - split; [exact Hs|]. rewrite Hs. now apply or_else_truthy.
  - intros i H. destruct (Hi i H) as (s & _ & ->).
    split; [reflexivity|]. split; [now apply or_else_truthy | now exists s].
  - intros i H. rewrite (Ho i H). reflexivity.
  - split; [exact Ht|]. rewrite Ht.
    now destruct (truthy (field parsed "tags")) eqn:E.
Qed.

Lemma defaults_zero env parsed r :
  defaults_applied env parsed r -> zero_defaulted parsed r.
Proof.
  intros D. pose proof D as (Hs & _).
  destruct (defaults_ingredients _ _ _ D) as [Li Hi].
  destruct (defaults_steps _ _ _ D) as [Lo Ho].
  split; [|split].
  - intros Z. rewrite Hs. unfold or_else.
    now rewrite (omitted_or_zero_falsy _ Z).
  - intros i H Z. rewrite <- Li in H. destruct (Hi i H) as (s & _ & ->).
    simpl. unfold or_else. now rewrite (omitted_or_zero_falsy _ Z).
  - intros i H Z. rewrite <- Lo in H. rewrite (Ho i H).
    simpl. unfold or_else. now rewrite (omitted_or_zero_falsy _ Z).
Qed.

(** C2, amended.  Every recipe [extractRecipe] returns is the parsed text
    of a backend response with the defaults applied by truthiness:
    [servings] is the backend's value when truthy and 4 otherwise; every
    [ingredients[i].quantity] is the backend's value when truthy and 1
    otherwise, every [ingredients[i].unit] is a lower-case string; every
    [steps[i].order] is the backend's value when truthy and [i + 1]
    otherwise; [tags] is the backend's value when truthy and the empty
    array otherwise. *)
Theorem extractRecipe_normalised env recipeText h r evs :
  Bedrock.extractRecipe env recipeText h = (Return r, evs) ->
  exists modelId raw parsed,
    In (EvBedrockSend modelId (Bedrock.payload recipeText) (Return raw)) evs
    /\ Bedrock.parsedRecipe env raw = Return parsed
    /\ normalised env parsed r.
Proof.
  intros H. apply extractRecipe_inv in H as (modelId & raw & parsed & I & P & D).
  exists modelId, raw, parsed. split; [exact I|]. split; [exact P|].
  now apply defaults_normalised, applyDefaults_spec.
Qed.

Lemma extractRecipe_normalised_witness :
  exists r evs,
    Bedrock.extractRecipe Demo.salade_env Demo.salade_request [] = (Return r, evs)
    /\ exists modelId raw parsed,
         In (EvBedrockSend modelId (Bedrock.payload Demo.salade_request)
                           (Return raw)) evs
         /\ Bedrock.parsedRecipe Demo.salade_env raw = Return parsed
         /\ normalised Demo.salade_env parsed r.
Proof.
  eexists. eexists. split.
  - vm_compute. reflexivity.
  - apply (extractRecipe_normalised Demo.salade_env Demo.salade_request []).
    vm_compute. reflexivity.
Defined.

(** C2 as stated fails: the backend answers with [servings] -2, a quantity
    in words and [tags] as a string; the adapter returns them as they are. *)
Lemma extractRecipe_keeps_truthy_values :
  exists r evs,
    Bedrock.extractRecipe Demo.tarte_env Demo.tarte_request [] = (Return r, evs)
    /\ Bedrock.parsedRecipe Demo.tarte_env Demo.tarte_raw = Return Demo.tarte_parsed
    /\ ~ defaults_as_stated Demo.tarte_env Demo.tarte_parsed r.
Proof.
  eexists. eexists. split; [vm_compute; reflexivity|].
  split; [vm_compute; reflexivity|].
  intros (S & _). vm_compute in S. discriminate.
Qed.

(** C9.  The defaults go by truthiness: in every recipe [extractRecipe]
    returns, a [servings] of 0 has become 4, a [quantity] of 0 has become 1
    and an [order] of 0 has become the 1-based position, exactly as for an
    omitted field. *)
Theorem extractRecipe_zero_defaulted env recipeText h r evs :
  Bedrock.extractRecipe env recipeText h = (Return r, evs) ->
  exists modelId raw parsed,
    In (EvBedrockSend modelId (Bedrock.payload recipeText) (Return raw)) evs
    /\ Bedrock.parsedRecipe env raw = Return parsed
    /\ zero_defaulted parsed r.
Proof.
  intros H. apply extractRecipe_inv in H as (modelId & raw & parsed & I & P & D).
  exists modelId, raw, parsed. split; [exact I|]. split; [exact P|].
  now apply (defaults_zero env), applyDefaults_spec.
Qed.

Lemma extractRecipe_zero_defaulted_witness :
  exists r evs,
    Bedrock.extractRecipe Demo.salade_env Demo.salade_request [] = (Return r, evs)
    /\ exists modelId raw parsed,
         In (EvBedrockSend modelId (Bedrock.payload Demo.salade_request)
                           (Return raw)) evs
         /\ Bedrock.parsedRecipe Demo.salade_env raw = Return parsed
         /\ zero_defaulted parsed r.
Proof.
  eexists. eexists. split.
  - vm_compute. reflexivity.
  - apply (extractRecipe_zero_defaulted Demo.salade_env Demo.salade_request []).
    vm_compute. reflexivity.
Defined.

End AdapterClaims.

(* ===================================================================== *)
(** ** Regular expressions: what a match leaves *)
(* ===================================================================== *)

Section RegexFacts.
Import Regex.

Lemma star_greedy_suffix {A} p s (k : jsstring -> option A) x :
  star_greedy p s k = Some x ->
  exists pre rest, s = pre ++ rest /\ k rest = Some x.
Proof.
  induction s as [|c s IH]; simpl.
  - intros H. now exists [], [].
  - destruct (p c).
    + destruct (star_greedy p s k) as [y|] eqn:E.
      * intros H; injection H as ->.
        destruct (IH eq_refl) as (pre & rest & -> & K).
        now exists (c :: pre), rest.
      * intros H. now exists [], (c :: s).
    + intros H. now exists [], (c :: s).
Qed.

Lemma star_lazy_suffix {A} p s (k : jsstring -> option A) x :
  star_lazy p s k = Some x ->
  exists pre rest, s = pre ++ rest /\ k rest = Some x.
Proof.
  induction s as [|c s IH]; simpl.
  - destruct (k []) eqn:E; [|discriminate].
    intros H; injection H as ->. now exists [], [].
  - destruct (k (c :: s)) eqn:E.
    + intros H; injection H as ->. now exists [], (c :: s).
    + destruct (p c); [|discriminate]. intros H.
      destruct (IH H) as (pre & rest & -> & K).
      now exists (c :: pre), rest.
Qed.

(** Whatever the matcher hands to its continuation is a suffix of the
    input. *)
Lemma exec_suffix {A} r : forall s (k : jsstring -> option A) x,
  exec r s k = Some x ->
  exists pre rest, s = pre ++ rest /\ k rest = Some x.
Proof.
  induction r as [|p|a IHa b IHb|a IHa b IHb|p|p]; simpl; intros s k x H.
  - now exists [], s.
  - destruct s as [|c s]; [discriminate|]. destruct (p c); [|discriminate].
    now exists [c], s.
  - apply IHa in H as (pre1 & rest1 & -> & H).
    apply IHb in H as (pre2 & rest & -> & H).
    exists (pre1 ++ pre2), rest. now rewrite app_assoc.
  - destruct (exec a s k) as [y|] eqn:E.
    + injection H as ->. now apply IHa.
    + now apply IHb.
  - now apply star_greedy_suffix in H.
  - now apply star_lazy_suffix in H.
Qed.

Lemma match_at_suffix r s rest :
  match_at r s = Some rest -> exists pre, s = pre ++ rest.
Proof.
  intros H. apply exec_suffix in H as (pre & rest' & -> & H).
  injection H as ->. now exists pre.
Qed.

(** A pattern that begins with a character consumes it. *)
Lemma match_at_chr p b c s rest :
  match_at (Seq (Chr p) b) (c :: s) = Some rest ->
  exists pre, s = pre ++ rest.
Proof.
  unfold match_at. simpl. destruct (p c); [|discriminate].
  intros H. apply exec_suffix in H as (pre & rest' & -> & H).
  injection H as ->. now exists pre.
Qed.

Lemma replace_from_skip r rep s : forall n,
  n <= List.length s ->
  replace_from r rep n s = replace_from r rep 0 (skipn n s).
Proof.
  induction s as [|c s IH]; intros [|n] L; simpl in *; try reflexivity; try lia.
  apply IH. lia.
Qed.

(** The scan at a position where the pattern does not match. *)
Lemma replace_miss r rep c s :
  match_at r (c :: s) = None ->
  replace r rep (c :: s) = c :: replace r rep s.
Proof. unfold replace. cbn [replace_from]. now intros ->. Qed.

(** The scan at a position where the pattern matches at least one unit. *)
Lemma replace_hit r rep c s pre rest :
  match_at r (c :: s) = Some rest ->
  s = pre ++ rest ->
  replace r rep (c :: s) = rep ++ replace r rep rest.
Proof.
  unfold replace. cbn [replace_from]. intros -> ->.
  replace (List.length (c :: pre ++ rest) - List.length rest)
    with (S (List.length pre)) by (cbn [List.length]; rewrite length_app; lia).
  rewrite replace_from_skip by (rewrite length_app; lia).
  rewrite skipn_app, skipn_all, Nat.sub_diag. reflexivity.
Qed.

Lemma replace_nil_chr p b rep : replace (Seq (Chr p) b) rep [] = [].
Proof. reflexivity. Qed.

End RegexFacts.

(* ===================================================================== *)
(** ** The text extractor on text without markup *)
(* ===================================================================== *)

Section PlainText.
Import Regex Webpage Whitespace.

Arguments is_space : simpl never.
Arguments space_or_tab : simpl never.

Lemma starts_with_chr p b : starts_with p (Seq (Chr p) b).
Proof.
  intros [|c s] H; unfold match_at; simpl; [reflexivity | now rewrite H].
Qed.

(** A pattern that needs a first character the text does not have leaves
    the text as it is. *)
Lemma replace_unmatched p r rep s :
  starts_with p r ->
  Forall (fun c => p c = false) s ->
  replace r rep s = s.
Proof.
  intros S. induction 1 as [|c s Hc Hs IH].
  - unfold replace. cbn [replace_from]. now rewrite (S [] I).
  - rewrite replace_miss by (now apply S). now rewrite IH.
Qed.

Lemma only_false (a : ascii) c : c <> N_of_ascii a -> only a c = false.
Proof. intros H. unfold only. apply N.eqb_neq. congruence. Qed.

Lemma only_i_lt_false c : c <> 60%N -> only_i "<" c = false.
Proof.
  intros H. unfold only_i, fold_case. apply N.eqb_neq. simpl.
  destruct ((65 <=? c)%N && (c <=? 90)%N) eqn:E.
  - apply andb_true_iff in E as [E1 E2].
    apply N.leb_le in E1, E2. lia.
  - congruence.
Qed.

Lemma plain_no_lt s : plain s -> Forall (fun c => only "<" c = false) s.
Proof.
  apply Forall_impl. intros c [H _]. now apply only_false.
Qed.

Lemma plain_no_lt_i s : plain s -> Forall (fun c => only_i "<" c = false) s.
Proof.
  apply Forall_impl. intros c [H _]. now apply only_i_lt_false.
Qed.

Lemma plain_no_amp s : plain s -> Forall (fun c => only "&" c = false) s.
Proof.
  apply Forall_impl. intros c [_ H]. now apply only_false.
Qed.

(** *** Runs of blanks *)

Lemma star_greedy_all p s :
  star_greedy p s (fun rest => Some rest) = Some (drop_while p s).
Proof.
  induction s as [|c s IH]; simpl; [reflexivity|].
  destruct (p c); [now rewrite IH | reflexivity].
Qed.

Lemma drop_while_suffix p s : exists pre, s = pre ++ drop_while p s.
Proof.
  induction s as [|c s [pre IH]]; simpl.
  - now exists [].
  - destruct (p c); [exists (c :: pre); simpl; congruence | now exists []].
Qed.

Lemma drop_while_length p s : List.length (drop_while p s) <= List.length s.
Proof.
  destruct (drop_while_suffix p s) as [pre H].
  rewrite H at 2. rewrite length_app. lia.
Qed.

Lemma drop_while_head p s :
  match drop_while p s with
  | c :: _ => p c = false
  | [] => True
  end.
Proof.
  induction s as [|c s IH]; simpl; [exact I|].
  destruct (p c) eqn:E; [exact IH | exact E].
Qed.

Lemma squeeze_blanks_nil : squeeze_blanks [] = [].
Proof. reflexivity. Qed.

Lemma squeeze_blanks_other c t :
  space_or_tab c = false ->
  squeeze_blanks (c :: t) = c :: squeeze_blanks t.
Proof.
  intros H. unfold squeeze_blanks. apply replace_miss.
  unfold match_at, re_spaces. simpl. now rewrite H.
Qed.

Lemma squeeze_blanks_run c t :
  space_or_tab c = true ->
  squeeze_blanks (c :: t)
  = 32%N :: squeeze_blanks (drop_while space_or_tab t).
Proof.
  intros H. unfold squeeze_blanks.
  destruct (drop_while_suffix space_or_tab t) as [pre E].
  rewrite (replace_hit re_spaces (js " ") c t pre
             (drop_while space_or_tab t)); [reflexivity| |exact E].
  unfold match_at, re_spaces. simpl. rewrite H. apply star_greedy_all.
Qed.

(** *** Blank lines *)

Lemma is_space_line_feed : is_space 10 = true.
Proof. reflexivity. Qed.

Lemma greedy_line_feed t :
  match star_greedy is_space t line_feed with
  | Some rest =>
      ws_has_nl t = true /\ ws_has_nl rest = false
      /\ exists pre, t = pre ++ 10%N :: rest
  | None => ws_has_nl t = false
  end.
Proof.
  induction t as [|c t IH]; cbn [star_greedy ws_has_nl line_feed];
    [reflexivity|].
  destruct (is_space c) eqn:Sp.
  - destruct (star_greedy is_space t line_feed) as [rest|] eqn:E.
    + destruct IH as (H1 & H2 & pre & H3). rewrite H1.
      split; [now destruct (N.eqb c 10)|]. split; [exact H2|].
      exists (c :: pre). simpl. congruence.
    + rewrite (N.eqb_sym 10 c). destruct (N.eqb c 10) eqn:C.
      * apply N.eqb_eq in C. subst c.
        split; [reflexivity|]. split; [exact IH|]. now exists [].
      * exact IH.
  - destruct (N.eqb 10 c) eqn:C.
    + apply N.eqb_eq in C. subst c. rewrite is_space_line_feed in Sp.
      discriminate.
    + now rewrite N.eqb_sym, C.
Qed.

Lemma match_blank_lines c t :
  match_at re_blank_lines (c :: t)
  = if N.eqb 10 c then star_greedy is_space t line_feed else None.
Proof. reflexivity. Qed.

Lemma squeeze_lines_nil : squeeze_lines [] = [].
Proof. reflexivity. Qed.

Lemma squeeze_lines_other c t :
  c <> 10%N -> squeeze_lines (c :: t) = c :: squeeze_lines t.
Proof.
  intros H. unfold squeeze_lines. apply replace_miss.
  rewrite match_blank_lines.
  destruct (N.eqb 10 c) eqn:C; [|reflexivity].
  apply N.eqb_eq in C. congruence.
Qed.

Lemma squeeze_lines_single t :
  ws_has_nl t = false -> squeeze_lines (10%N :: t) = 10%N :: squeeze_lines t.
Proof.
  intros H. unfold squeeze_lines. apply replace_miss.
  rewrite match_blank_lines. simpl.
  pose proof (greedy_line_feed t) as G.
  destruct (star_greedy is_space t line_feed); [|reflexivity].
  destruct G as [G _]. congruence.
Qed.

Lemma squeeze_lines_double t rest :
  star_greedy is_space t line_feed = Some rest ->
  squeeze_lines (10%N :: t) = 10%N :: 10%N :: squeeze_lines rest.
Proof.
  intros H. unfold squeeze_lines.
  pose proof (greedy_line_feed t) as G. rewrite H in G.
  destruct G as (_ & _ & pre & E).
  rewrite (replace_hit re_blank_lines (newline ++ newline) 10 t
             (pre ++ [10%N]) rest); [reflexivity| |].
  - rewrite match_blank_lines. exact H.
  - now rewrite <- app_assoc.
Qed.

End PlainText.

Section NormalForm.
Import Regex Webpage Whitespace.

Arguments is_space : simpl never.
Arguments space_or_tab : simpl never.

Lemma space_or_tab_is_space c : space_or_tab c = true -> is_space c = true.
Proof.
  unfold space_or_tab. intros H. apply orb_true_iff in H as [H|H];
    apply N.eqb_eq in H; subst c; reflexivity.
Qed.

Lemma space_or_tab_not_nl c : space_or_tab c = true -> N.eqb c 10 = false.
Proof.
  unfold space_or_tab. intros H. apply orb_true_iff in H as [H|H];
    apply N.eqb_eq in H; subst c; reflexivity.
Qed.

(** *** [squeeze_lines] yields lines in normal form *)

Lemma ws_has_nl_squeeze_lines s :
  ws_has_nl s = false -> ws_has_nl (squeeze_lines s) = false.
Proof.
  induction s as [|c s IH]; [reflexivity|]. cbn [ws_has_nl].
  destruct (N.eqb c 10) eqn:C; [discriminate|].
  apply N.eqb_neq in C. rewrite squeeze_lines_other by exact C.
  cbn [ws_has_nl]. apply N.eqb_neq in C. rewrite C.
  destruct (is_space c); [exact IH | reflexivity].
Qed.

Lemma squeeze_lines_normal_bounded n : forall s,
  List.length s <= n -> lines_normal (squeeze_lines s).
Proof.
  induction n as [|n IH]; intros [|c t] L; simpl in L; try lia;
    try exact I.
  destruct (N.eq_dec c 10) as [->|C].
  - pose proof (greedy_line_feed t) as G.
    destruct (star_greedy is_space t line_feed) as [rest|] eqn:E.
    + destruct G as (_ & G & pre & P).
      rewrite (squeeze_lines_double t rest E).
      assert (Lr : List.length rest <= n).
      { rewrite P, length_app in L. simpl in L. lia. }
      pose proof (ws_has_nl_squeeze_lines rest G) as W.
      cbn [lines_normal]. split; [|split].
      * intros _ _. now exists (squeeze_lines rest).
      * intros _ W'. congruence.
      * apply IH. exact Lr.
    + rewrite (squeeze_lines_single t G). cbn [lines_normal]. split.
      * intros _ W. rewrite (ws_has_nl_squeeze_lines t G) in W. discriminate.
      * apply IH. lia.
  - rewrite squeeze_lines_other by exact C. cbn [lines_normal]. split.
    + intros ->. congruence.
    + apply IH. lia.
Qed.

Lemma squeeze_lines_normal s : lines_normal (squeeze_lines s).
Proof. now apply (squeeze_lines_normal_bounded (List.length s)). Qed.

(** *** [squeeze_blanks] keeps the lines and yields blanks in normal form *)

Lemma ws_has_nl_drop_blanks s :
  ws_has_nl (drop_while space_or_tab s) = ws_has_nl s.
Proof.
  induction s as [|c s IH]; [reflexivity|]. cbn [drop_while ws_has_nl].
  destruct (space_or_tab c) eqn:B; [|reflexivity].
  now rewrite (space_or_tab_not_nl c B), (space_or_tab_is_space c B).
Qed.

Lemma ws_has_nl_squeeze_blanks_bounded n : forall s,
  List.length s <= n -> ws_has_nl (squeeze_blanks s) = ws_has_nl s.
Proof.
  induction n as [|n IH]; intros [|c t] L; simpl in L; try lia;
    try reflexivity.
  destruct (space_or_tab c) eqn:B.
  - rewrite (squeeze_blanks_run c t B). cbn [ws_has_nl].
    rewrite (space_or_tab_not_nl c B), (space_or_tab_is_space c B).
    change (N.eqb 32 10) with false. change (is_space 32) with true.
    cbv iota. rewrite IH by (pose proof (drop_while_length space_or_tab t); lia).
    apply ws_has_nl_drop_blanks.
  - rewrite (squeeze_blanks_other c t B). cbn [ws_has_nl].
    now rewrite IH by lia.
Qed.

Lemma ws_has_nl_squeeze_blanks s :
  ws_has_nl (squeeze_blanks s) = ws_has_nl s.
Proof. now apply (ws_has_nl_squeeze_blanks_bounded (List.length s)). Qed.

Lemma lines_normal_tail c t : lines_normal (c :: t) -> lines_normal t.
Proof. now intros [_ H]. Qed.

Lemma lines_normal_drop p s : lines_normal s -> lines_normal (drop_while p s).
Proof.
  induction s as [|c s IH]; simpl; [auto|].
  destruct (p c); [intros [_ H]; now apply IH | auto].
Qed.

Lemma squeeze_blanks_lines_bounded n : forall s,
  List.length s <= n -> lines_normal s -> lines_normal (squeeze_blanks s).
Proof.
  induction n as [|n IH]; intros [|c t] L N; simpl in L; try lia;
    try exact I.
  destruct (space_or_tab c) eqn:B.
  - rewrite (squeeze_blanks_run c t B). cbn [lines_normal]. split.
    + intros E. discriminate.
    + apply IH.
      * pose proof (drop_while_length space_or_tab t). lia.
      * apply lines_normal_drop. exact (lines_normal_tail _ _ N).
  - rewrite (squeeze_blanks_other c t B). destruct N as [N1 N2].
    cbn [lines_normal]. split.
    + intros C. rewrite ws_has_nl_squeeze_blanks. intros W.
      destruct (N1 C W) as (t' & -> & W').
      rewrite (squeeze_blanks_other 10 t' eq_refl).
      exists (squeeze_blanks t'). split; [reflexivity|].
      now rewrite ws_has_nl_squeeze_blanks.
    + apply IH; [lia | exact N2].
Qed.

Lemma squeeze_blanks_lines s :
  lines_normal s -> lines_normal (squeeze_blanks s).
Proof. now apply (squeeze_blanks_lines_bounded (List.length s)). Qed.

Lemma squeeze_blanks_head_bounded n : forall s,
  List.length s <= n ->
  match s with
  | c :: _ => space_or_tab c = false
  | [] => True
  end ->
  match squeeze_blanks s with
  | c :: _ => space_or_tab c = false
  | [] => True
  end.
Proof.
  intros [|c t] _ H; [exact I|]. now rewrite (squeeze_blanks_other c t H).
Qed.

Lemma squeeze_blanks_normal_bounded n : forall s,
  List.length s <= n -> blanks_normal (squeeze_blanks s).
Proof.
  induction n as [|n IH]; intros [|c t] L; simpl in L; try lia;
    try exact I.
  destruct (space_or_tab c) eqn:B.
  - rewrite (squeeze_blanks_run c t B). cbn [blanks_normal].
    split; [discriminate|]. split.
    + intros _. apply (squeeze_blanks_head_bounded n); [|apply drop_while_head].
      pose proof (drop_while_length space_or_tab t). lia.
    + apply IH. pose proof (drop_while_length space_or_tab t). lia.
  - rewrite (squeeze_blanks_other c t B). cbn [blanks_normal].
    split; [|split].
    + intros ->. discriminate.
    + intros ->. discriminate.
    + apply IH. lia.
Qed.

Lemma squeeze_blanks_normal s : blanks_normal (squeeze_blanks s).
Proof. now apply (squeeze_blanks_normal_bounded (List.length s)). Qed.

(** *** Text in normal form is left as it is *)

Lemma squeeze_lines_fixed s : lines_normal s -> squeeze_lines s = s.
Proof.
  induction s as [|c t IH]; [reflexivity|]. intros [N1 N2].
  destruct (N.eq_dec c 10) as [->|C].
  - destruct (ws_has_nl t) eqn:W.
    + destruct (N1 eq_refl eq_refl) as (t' & -> & W').
      rewrite (squeeze_lines_double (10%N :: t') t').
      * do 2 f_equal. specialize (IH N2).
        rewrite (squeeze_lines_single t' W') in IH. now injection IH.
      * cbn [star_greedy]. rewrite is_space_line_feed.
        pose proof (greedy_line_feed t') as G.
        destruct (star_greedy is_space t' line_feed); [|reflexivity].
        destruct G as [G _]. congruence.
    + rewrite (squeeze_lines_single t W). now rewrite IH.
  - rewrite squeeze_lines_other by exact C. now rewrite IH.
Qed.

Lemma squeeze_blanks_fixed s : blanks_normal s -> squeeze_blanks s = s.
Proof.
  induction s as [|c t IH]; [reflexivity|]. intros (N1 & N2 & N3).
  destruct (space_or_tab c) eqn:B.
  - assert (C : c = 32%N).
    { unfold space_or_tab in B. apply orb_true_iff in B as [B|B];
        apply N.eqb_eq in B; congruence. }
    subst c. rewrite (squeeze_blanks_run 32 t B).
    specialize (N2 eq_refl). f_equal.
    destruct t as [|c' t']; [reflexivity|]. cbn [drop_while]. rewrite N2.
    now apply IH.
  - rewrite (squeeze_blanks_other c t B). now rewrite IH.
Qed.

End NormalForm.

Section Trim.
Import Webpage Whitespace.

Arguments is_space : simpl never.

Lemma trimStart_drop s : trimStart s = drop_while is_space s.
Proof.
  induction s as [|c s IH]; simpl; [reflexivity|]. now rewrite IH.
Qed.

Lemma trimStart_suffix s : exists pre, s = pre ++ trimStart s.
Proof. rewrite trimStart_drop. apply drop_while_suffix. Qed.

Lemma trimEnd_prefix s : exists post, s = trimEnd s ++ post.
Proof.
  unfold trimEnd. destruct (trimStart_suffix (rev s)) as [pre H].
  exists (rev pre). rewrite <- rev_app_distr, <- H. now rewrite rev_involutive.
Qed.

Lemma trimStart_fixed s :
  match s with
  | c :: _ => is_space c = false
  | [] => True
  end ->
  trimStart s = s.
Proof. destruct s as [|c s]; simpl; [auto | now intros ->]. Qed.

Lemma trimStart_head s :
  match trimStart s with
  | c :: _ => is_space c = false
  | [] => True
  end.
Proof. rewrite trimStart_drop. apply drop_while_head. Qed.

Lemma trimStart_idempotent s : trimStart (trimStart s) = trimStart s.
Proof. apply trimStart_fixed, trimStart_head. Qed.

Lemma trimEnd_idempotent s : trimEnd (trimEnd s) = trimEnd s.
Proof.
  unfold trimEnd. now rewrite rev_involutive, trimStart_idempotent.
Qed.

(** Trimming the end keeps a head that is not white space. *)
Lemma trimEnd_head s :
  match s with
  | c :: _ => is_space c = false
  | [] => True
  end ->
  match trimEnd s with
  | c :: _ => is_space c = false
  | [] => True
  end.
Proof.
  destruct s as [|c s]; [intros _; exact I|]. intros H.
  destruct (trimEnd_prefix (c :: s)) as [post E].
  destruct (trimEnd (c :: s)) as [|c' s']; [exact I|].
  simpl in E. injection E as <- _. exact H.
Qed.

Lemma trim_trimmed s : trimmed (trim s).
Proof.
  unfold trimmed, trim.
  rewrite (trimStart_fixed (trimEnd (trimStart s))).
  - apply trimEnd_idempotent.
  - apply trimEnd_head, trimStart_head.
Qed.

(** The head of a trimmed text is not white space. *)
Lemma trimmed_head s :
  trimmed s ->
  match s with
  | c :: _ => is_space c = false
  | [] => True
  end.
Proof.
  unfold trimmed, trim. intros H. rewrite <- H.
  apply trimEnd_head, trimStart_head.
Qed.

(** *** Normal forms survive trimming *)

Lemma ws_has_nl_app a b : ws_has_nl a = true -> ws_has_nl (a ++ b) = true.
Proof.
  induction a as [|c a IH]; simpl; [discriminate|].
  destruct (N.eqb c 10); [reflexivity|]. destruct (is_space c); [exact IH|].
  discriminate.
Qed.

Lemma lines_normal_prefix a b : lines_normal (a ++ b) -> lines_normal a.
Proof.
  induction a as [|c a IH]; [intros _; exact I|].
  simpl. intros [N1 N2]. split; [|now apply IH].
  intros C W. destruct (N1 C (ws_has_nl_app a b W)) as (t' & E & W').
  destruct a as [|c' a']; [discriminate|].
  simpl in E. injection E as -> <-. exists a'. split; [reflexivity|].
  destruct (ws_has_nl a') eqn:Wa; [|reflexivity].
  rewrite (ws_has_nl_app a' b Wa) in W'. discriminate.
Qed.

Lemma lines_normal_suffix a b : lines_normal (a ++ b) -> lines_normal b.
Proof.
  induction a as [|c a IH]; [auto|]. simpl. intros [_ N]. now apply IH.
Qed.

Lemma blanks_normal_prefix a b : blanks_normal (a ++ b) -> blanks_normal a.
Proof.
  induction a as [|c a IH]; [intros _; exact I|].
  simpl. intros (N1 & N2 & N3). split; [exact N1|]. split; [|now apply IH].
  intros C. specialize (N2 C). destruct a; [exact I | exact N2].
Qed.

Lemma blanks_normal_suffix a b : blanks_normal (a ++ b) -> blanks_normal b.
Proof.
  induction a as [|c a IH]; [auto|]. simpl. intros (_ & _ & N). now apply IH.
Qed.

Lemma trim_infix s : exists pre post, s = pre ++ trim s ++ post.
Proof.
  unfold trim. destruct (trimStart_suffix s) as [pre H].
  destruct (trimEnd_prefix (trimStart s)) as [post H'].
  exists pre, post. now rewrite <- H', <- H.
Qed.

Lemma lines_normal_trim s : lines_normal s -> lines_normal (trim s).
Proof.
  destruct (trim_infix s) as (pre & post & E). intros N. rewrite E in N.
  now apply lines_normal_suffix, lines_normal_prefix in N.
Qed.

Lemma blanks_normal_trim s : blanks_normal s -> blanks_normal (trim s).
Proof.
  destruct (trim_infix s) as (pre & post & E). intros N. rewrite E in N.
  now apply blanks_normal_suffix, blanks_normal_prefix in N.
Qed.

End Trim.

Section ExtractorClaims.
Import Regex Webpage Whitespace.

(** The extracted text is in normal form. *)
Lemma extractTextFromHtml_normal html :
  let text := extractTextFromHtml html in
  lines_normal text /\ blanks_normal text /\ trimmed text.
Proof.
  assert (S : exists x, extractTextFromHtml html
                        = trim (squeeze_blanks (squeeze_lines x)))
    by (eexists; reflexivity).
  destruct S as [x E]. cbv zeta. rewrite E. split; [|split].
  - apply lines_normal_trim, squeeze_blanks_lines, squeeze_lines_normal.
  - apply blanks_normal_trim, squeeze_blanks_normal.
  - apply trim_trimmed.
Qed.

(** Text in normal form without [<] and [&] is left as it is. *)
Lemma extractTextFromHtml_fixed text :
  plain text -> lines_normal text -> blanks_normal text -> trimmed text ->
  extractTextFromHtml text = text.
Proof.
  intros P L B T. unfold extractTextFromHtml.
  rewrite (replace_unmatched (only_i "<") re_script [] text
             (starts_with_chr _ _) (plain_no_lt_i text P)).
  rewrite (replace_unmatched (only_i "<") re_style [] text
             (starts_with_chr _ _) (plain_no_lt_i text P)).
  rewrite (replace_unmatched (only_i "<") re_noscript [] text
             (starts_with_chr _ _) (plain_no_lt_i text P)).
  rewrite (replace_unmatched (only "<") re_comment [] text
             (starts_with_chr _ _) (plain_no_lt text P)).
  rewrite (replace_unmatched (only_i "<") re_block_close newline text
             (starts_with_chr _ _) (plain_no_lt_i text P)).
  rewrite (replace_unmatched (only_i "<") re_break newline text
             (starts_with_chr _ _) (plain_no_lt_i text P)).
  rewrite (replace_unmatched (only "<") re_tag (js " ") text
             (starts_with_chr _ _) (plain_no_lt text P)).
  rewrite (replace_unmatched (only "&") (lit "&nbsp;") (js " ") text
             (starts_with_chr _ _) (plain_no_amp text P)).
  rewrite (replace_unmatched (only "&") (lit "&amp;") (js "&") text
             (starts_with_chr _ _) (plain_no_amp text P)).
  rewrite (replace_unmatched (only "&") (lit "&lt;") (js "<") text
             (starts_with_chr _ _) (plain_no_amp text P)).
  rewrite (replace_unmatched (only "&") (lit "&gt;") (js ">") text
             (starts_with_chr _ _) (plain_no_amp text P)).
  rewrite (replace_unmatched (only "&") (lit "&quot;") quote text
             (starts_with_chr _ _) (plain_no_amp text P)).
  rewrite (replace_unmatched (only "&") (lit "&#39;") (js "'") text
             (starts_with_chr _ _) (plain_no_amp text P)).
  rewrite (replace_unmatched (only "&") (lit "&euro;") euro text
             (starts_with_chr _ _) (plain_no_amp text P)).
  change (replace re_blank_lines (newline ++ newline) text)
    with (squeeze_lines text).
  rewrite (squeeze_lines_fixed text L).
  change (replace re_spaces (js " ") text) with (squeeze_blanks text).
  rewrite (squeeze_blanks_fixed text B).
  exact T.
Qed.

(** C7, amended.  For every [html] whose extracted text holds neither [<]
    nor [&], extracting the text of the extracted text changes nothing. *)
Theorem extractTextFromHtml_idempotent_on_plain (html : jsstring) :
  plain (extractTextFromHtml html) ->
  extractTextFromHtml (extractTextFromHtml html) = extractTextFromHtml html.
Proof.
  intros P. destruct (extractTextFromHtml_normal html) as (L & B & T).
  now apply extractTextFromHtml_fixed.
Qed.

Lemma plain_dec s :
  forallb (fun c => negb (N.eqb c 60) && negb (N.eqb c 38)) s = true ->
  plain s.
Proof.
  intros H. apply Forall_forall. intros c I.
  rewrite forallb_forall in H. specialize (H c I).
  apply andb_true_iff in H as [H1 H2].
  apply negb_true_iff in H1, H2. apply N.eqb_neq in H1, H2. auto.
Qed.

Lemma extractTextFromHtml_idempotent_on_plain_witness :
  plain (extractTextFromHtml Pages.tarte)
  /\ extractTextFromHtml (extractTextFromHtml Pages.tarte)
     = extractTextFromHtml Pages.tarte.
Proof.
  assert (P : plain (extractTextFromHtml Pages.tarte))
    by (apply plain_dec; vm_compute; reflexivity).
  split; [exact P|].
  exact (extractTextFromHtml_idempotent_on_plain Pages.tarte P).
Defined.

(** C7 as stated fails: ["&amp;amp;"] becomes ["&amp;"], which becomes
    ["&"]. *)
Lemma extractTextFromHtml_not_idempotent :
  extractTextFromHtml Pages.escaped_entity = js "&amp;"
  /\ extractTextFromHtml (extractTextFromHtml Pages.escaped_entity) = js "&"
  /\ extractTextFromHtml (extractTextFromHtml Pages.escaped_entity)
     <> extractTextFromHtml Pages.escaped_entity.
Proof.
  split; [vm_compute; reflexivity|]. split; [vm_compute; reflexivity|].
  vm_compute. discriminate.
Qed.

End ExtractorClaims.

(* ===================================================================== *)
(** ** The events of the services *)
(* ===================================================================== *)

Section Emission.
Import Trace.
Context {A B : Type} (P : event -> Prop).

Lemma emits_ret (a : A) : emits P (ret a).
Proof. intros h out evs H. apply ret_inv in H as [_ ->]. constructor. Qed.

Lemma emits_throw e : emits P (@throw A e).
Proof. intros h out evs H. apply throw_inv in H as [_ ->]. constructor. Qed.

Lemma emits_lift (r : result A) : emits P (lift r).
Proof. intros h out evs H. apply lift_inv in H as [_ ->]. constructor. Qed.

Lemma emits_call (oracle : history -> result A) ev :
  (forall r, P (ev r)) -> emits P (call oracle ev).
Proof.
  intros Hev h out evs H. apply call_inv in H as [_ ->].
  constructor; [apply Hev | constructor].
Qed.

Lemma emits_bind (m : M A) (k : A -> M B) :
  emits P m -> (forall a, emits P (k a)) -> emits P (bind m k).
Proof.
  intros Hm Hk h out evs H.
  apply bind_inv in H as [(e & H & _)|(a & evs1 & evs2 & H1 & H2 & ->)].
  - exact (Hm _ _ _ H).
  - apply Forall_app. split; [exact (Hm _ _ _ H1) | exact (Hk _ _ _ _ H2)].
Qed.

Lemma emits_try_catch (m : M A) handler :
  emits P m -> (forall e, emits P (handler e)) -> emits P (try_catch m handler).
Proof.
  intros Hm Hk h out evs H.
  apply try_catch_inv in H as [(a & H & _)|(e & evs1 & evs2 & H1 & H2 & ->)].
  - exact (Hm _ _ _ H).
  - apply Forall_app. split; [exact (Hm _ _ _ H1) | exact (Hk _ _ _ _ H2)].
Qed.

End Emission.

Section ServiceEvents.
Import Trace.
Variable env : Env.

Lemma emits_now P : (forall iso, P (EvClock iso)) -> emits P (now env).
Proof.
  intros HP h out evs H. unfold now in H. injection H as _ <-.
  constructor; [apply HP | constructor].
Qed.

(** The adapter calls collaborators only, and its completion is the last
    event of its run. *)
Lemma extractRecipe_events recipeText h out evs :
  Bedrock.extractRecipe env recipeText h = (out, evs) ->
  exists pre, evs = pre ++ [EvExtractRecipe recipeText out]
              /\ Forall outside pre.
Proof.
  unfold Bedrock.extractRecipe. intros H.
  apply observed_inv in H as (pre & H & ->). exists pre. split; [reflexivity|].
  revert h out pre H.
  apply emits_bind; [apply emits_call; intros r; exact I|].
  intros modelId. apply emits_bind.
  - destruct modelId; [apply emits_ret | apply emits_throw].
  - intros s. destruct (negb (truthy recipeText) || _); [apply emits_throw|].
    apply emits_try_catch.
    + apply emits_bind; [apply emits_call; intros r; exact I|].
      intros raw. apply emits_lift.
    + intros e. unfold Bedrock.catchExtract.
      destruct (str_eqb _ _); [apply emits_throw|].
      destruct (err_metadata e); apply emits_throw.
Qed.

Lemma sendRecipeToAPI_events recipe h out evs :
  Lambda.sendRecipeToAPI env recipe h = (out, evs) ->
  exists pre, evs = pre ++ [EvSendRecipe recipe out] /\ Forall outside pre.
Proof.
  unfold Lambda.sendRecipeToAPI. intros H.
  apply observed_inv in H as (pre & H & ->). exists pre. split; [reflexivity|].
  revert h out pre H.
  apply emits_try_catch.
  - apply emits_bind; [apply emits_call; intros r; exact I|].
    intros response. apply emits_lift.
  - intros e. unfold Lambda.catchSend.
    destruct (str_eqb _ _); [apply emits_throw|].
    destruct (str_eqb _ _); apply emits_throw.
Qed.

End ServiceEvents.

(* ===================================================================== *)
(** ** The controller *)
(* ===================================================================== *)

Lemma Forall_In_absurd (P : event -> Prop) ev evs :
  Forall P evs -> In ev evs -> ~ P ev -> False.
Proof.
  intros F I N. rewrite Forall_forall in F. exact (N (F ev I)).
Qed.

Section ControllerRuns.
Import Trace RecipeModel.
Variable env : Env.

Lemma outside_not_a_send pre : Forall outside pre -> Forall not_a_send pre.
Proof. apply Forall_impl. now intros []. Qed.

(** The [try] block throws because the adapter throws, or throws because
    the recipe is refused, or submits the recipe and returns. *)
Lemma attempt_cases modelId recipeText h out evs :
  Controller.attempt env modelId recipeText h = (out, evs) ->
  (exists e preA,
     out = Throw e
     /\ evs = preA ++ [EvExtractRecipe recipeText (Throw e)]
     /\ Forall outside preA)
  \/ (exists r e preA,
        out = Throw e
        /\ evs = preA ++ [EvExtractRecipe recipeText (Return r)]
        /\ Forall outside preA)
  \/ (exists preA r v preS sent iso,
        evs = (preA ++ [EvExtractRecipe recipeText (Return r)])
              ++ (preS ++ [EvSendRecipe r sent]) ++ [EvClock iso]
        /\ Forall outside preA /\ Forall outside preS
        /\ validateRecipe r = Return v /\ valid v = true
        /\ out = Return (Controller.extraction r (apiResponseOf sent)
                           iso modelId)).
Proof.
  unfold Controller.attempt. intros HB.
  apply bind_inv in HB as [(e & HB & ->)|(r & evsA & evsR & HA & HB & ->)].
  { left. apply extractRecipe_events in HB as (pre & -> & O). eauto. }
  apply extractRecipe_events in HA as (preA & -> & OA).
  apply bind_inv in HB as [(e & HB & ->)|(v & evsV & evsR' & HV & HB & ->)].
  { right. left. apply lift_inv in HB as [_ ->].
    exists r, e, preA. now rewrite app_nil_r. }
  apply lift_inv in HV as [HV ->].
  destruct (valid v) eqn:Val; cbn [negb] in HB.
  2:{ right. left. apply throw_inv in HB as [-> ->].
      eexists r, _, preA. now rewrite !app_nil_r. }
  apply bind_inv in HB as [(e & HB & ->)|(api & evsS & evsT & HS & HB & ->)].
  { exfalso.
    apply try_catch_inv in HB as [(a & _ & Ha)|(e' & ? & ? & _ & HB & _)];
      [discriminate|]. apply ret_inv in HB as [HB _]. discriminate. }
  apply bind_inv in HB as [(e & HB & ->)|(iso & evsN & evsE & HN & HB & ->)].
  { exfalso. unfold now in HB. discriminate. }
  unfold now in HN. injection HN as <- <-.
  apply ret_inv in HB as [-> ->].
  right. right.
  apply try_catch_inv in HS
    as [(a & HS & Ha)|(e' & evsS1 & evsS2 & HS & HH & ->)].
  - injection Ha as <-.
    apply sendRecipeToAPI_events in HS as (preS & -> & OS).
    eexists preA, r, v, preS, (Return api), _.
    rewrite !app_nil_r.
    repeat split; try assumption; try (symmetry; assumption).
  - apply ret_inv in HH as [HH ->]. injection HH as ->.
    apply sendRecipeToAPI_events in HS as (preS & -> & OS).
    eexists preA, r, v, preS, (Throw e'), _.
    rewrite !app_nil_r.
    repeat split; try assumption; try (symmetry; assumption).
Qed.

Lemma catchExtraction_throws e h :
  exists e', Controller.catchExtraction e h = (Throw e', []).
Proof.
  unfold Controller.catchExtraction.
  destruct (includes (err_message e) (js "Bedrock")); [eexists; reflexivity|].
  destruct (includes (err_message e) (js "parse")); eexists; reflexivity.
Qed.

Lemma catchExtraction_history e h h' :
  Controller.catchExtraction e h = Controller.catchExtraction e h'.
Proof.
  unfold Controller.catchExtraction.
  destruct (includes (err_message e) (js "Bedrock")); [reflexivity|].
  destruct (includes (err_message e) (js "parse")); reflexivity.
Qed.

(** A run of [extractRecipeFromText] either throws before any submission,
    or extracts a recipe, finds it valid, submits it, and returns it with
    whatever the submission gave. *)
Lemma extractRecipeFromText_cases recipeText h out evs :
  Controller.extractRecipeFromText env recipeText h = (out, evs) ->
  (Forall not_a_send evs /\ exists e, out = Throw e)
  \/ (exists modelId preA r v preS sent iso,
        evs = [EvConfig (js "bedrock") (js "MODEL_ID") (Return modelId)]
              ++ (preA ++ [EvExtractRecipe recipeText (Return r)])
              ++ (preS ++ [EvSendRecipe r sent]) ++ [EvClock iso]
        /\ Forall outside preA /\ Forall outside preS
        /\ Controller.blank recipeText = false
        /\ validateRecipe r = Return v /\ valid v = true
        /\ out = Return (Controller.extraction r (apiResponseOf sent) iso modelId)).
Proof.
  unfold Controller.extractRecipeFromText. intros H.
  apply bind_inv in H as [(e & H & ->)|(modelId & evs1 & evs2 & H1 & H & ->)].
  { left. apply call_inv in H as [_ ->]. split; [|now exists e].
    repeat constructor. }
  apply call_inv in H1 as [Hcfg ->].
  destruct (Controller.blank recipeText) eqn:Bl.
  { left. apply throw_inv in H as [-> ->]. split; [|eauto].
    repeat constructor. }
  apply try_catch_inv in H as [(a & H & ->)|(e & evsB & evsC & H & HR & ->)].
  - apply attempt_cases in H
      as [(e & ? & E & _)|[(? & e & ? & E & _)
         |(preA & r & v & preS & sent & iso & E & R)]]; try discriminate.
    right. exists modelId, preA, r, v, preS, sent, iso.
    rewrite <- E. destruct R as (? & ? & ? & ? & ?).
    repeat split; assumption.
  - destruct (catchExtraction_throws e (h ++
      [EvConfig (js "bedrock") (js "MODEL_ID") (Return modelId)] ++ evsB))
      as [e' HC].
    rewrite <- app_assoc in HR. rewrite HC in HR. injection HR as <- <-.
    left. split; [|eauto]. rewrite app_nil_r.
    apply Forall_app. split; [repeat constructor|].
    apply attempt_cases in H
      as [(e0 & preA & _ & -> & OA)|[(r & e0 & preA & _ & -> & OA)
         |(preA & r & v & preS & sent & iso & _ & _ & _ & _ & _ & R)]];
      try discriminate;
      (apply Forall_app; split;
       [now apply outside_not_a_send | repeat constructor]).
Qed.

(** When the adapter throws, the controller throws what its [catch] block
    makes of the error. *)
Lemma extractRecipeFromText_adapter_failure recipeText h out evs t e :
  Controller.extractRecipeFromText env recipeText h = (out, evs) ->
  In (EvExtractRecipe t (Throw e)) evs ->
  Controller.catchExtraction e [] = (out, []).
Proof.
  unfold Controller.extractRecipeFromText. intros H I.
  apply bind_inv in H as [(e0 & H & ->)|(modelId & evs1 & evs2 & H1 & H & ->)].
  { exfalso. apply call_inv in H as [_ ->]. simpl in I.
    destruct I as [I|[]]. discriminate. }
  apply call_inv in H1 as [_ ->].
  destruct (Controller.blank recipeText).
  { exfalso. apply throw_inv in H as [_ ->]. simpl in I.
    destruct I as [I|[]]. discriminate. }
  assert (Absurd : forall preA r rest,
            Forall outside preA ->
            (forall ev, In ev rest -> ev <> EvExtractRecipe t (Throw e)) ->
            In (EvExtractRecipe t (Throw e))
               ([EvConfig (js "bedrock") (js "MODEL_ID") (Return modelId)]
                ++ (preA ++ [EvExtractRecipe recipeText (Return r)]) ++ rest)
            -> False).
  { intros preA r rest OA NR J. rewrite !in_app_iff in J. simpl in J.
    destruct J as [[J|[]]|[[J|[J|[]]]|J]]; try discriminate.
    - exact (Forall_In_absurd _ _ _ OA J (fun x => x)).
    - exact (NR _ J eq_refl). }
  apply try_catch_inv in H as [(a & H & ->)|(e0 & evsB & evsC & H & HC & ->)].
  - exfalso.
    apply attempt_cases in H
      as [(? & ? & E & _)|[(? & ? & ? & E & _)
         |(preA & r & v & preS & sent & iso & -> & OA & OS & _)]];
      try discriminate.
    apply (Absurd preA r ((preS ++ [EvSendRecipe r sent]) ++ [EvClock iso]) OA).
    + intros ev J. rewrite !in_app_iff in J. simpl in J.
      destruct J as [[J|[J|[]]]|[J|[]]]; subst; try discriminate.
      intros ->. exact (Forall_In_absurd _ _ _ OS J (fun x => x)).
    + rewrite <- !app_assoc in *. exact I.
  - destruct (catchExtraction_throws e0 (h ++
      [EvConfig (js "bedrock") (js "MODEL_ID") (Return modelId)] ++ evsB))
      as [e' HC'].
    rewrite <- app_assoc in HC. rewrite HC' in HC. injection HC as <- <-.
    apply attempt_cases in H
      as [(e1 & preA & E1 & -> & OA)|[(r & e1 & preA & E1 & -> & OA)
         |(preA & r & v & preS & sent & iso & _ & _ & _ & _ & _ & R)]];
      try discriminate.
    + injection E1 as <-. rewrite app_nil_r in I.
      rewrite !in_app_iff in I. simpl in I.
      destruct I as [[I|[]]|[I|[I|[]]]]; try discriminate.
      * exfalso. exact (Forall_In_absurd _ _ _ OA I (fun x => x)).
      * injection I as _ <-.
        rewrite <- HC'. apply catchExtraction_history.
    + exfalso. rewrite app_nil_r in I.
      apply (Absurd preA r [] OA); [intros ev [] | ].
      now rewrite app_nil_r.
Qed.

End ControllerRuns.

Section ControllerClaims.
Import Trace RecipeModel.

(** C1.  In a run of [extractRecipeFromText] in which the adapter returned
    the recipe [r], [r] passes validation, and the submission to the
    downstream API threw [e]: the recipe submitted was [r], the function
    returns (it does not throw), its [recipe] field is [r] and its
    [apiResponse] field is [{ error: e.message, sent: false }]. *)
Theorem submission_failure_is_captured
    env recipeText h out evs r v submitted e :
  Controller.extractRecipeFromText env recipeText h = (out, evs) ->
  In (EvExtractRecipe recipeText (Return r)) evs ->
  validateRecipe r = Return v ->
  valid v = true ->
  In (EvSendRecipe submitted (Throw e)) evs ->
  submitted = r
  /\ exists extractedAt modelId,
       out = Return (Controller.extraction r (Controller.notSent e)
                       extractedAt modelId)
       /\ field (Controller.extraction r (Controller.notSent e)
                   extractedAt modelId) "recipe" = r
       /\ field (Controller.extraction r (Controller.notSent e)
                   extractedAt modelId) "apiResponse"
          = obj [ ("error", JStr (err_message e)); ("sent", JBool false) ].
Proof.
  intros H IA _ _ IS.
  apply extractRecipeFromText_cases in H
    as [(F & _)|(modelId & preA & r0 & v0 & preS & sent & iso & E & OA & OS
                 & _ & _ & _ & ->)].
  { exfalso. exact (Forall_In_absurd _ _ _ F IS (fun x => x)). }
  subst evs. rewrite !in_app_iff in IA, IS. simpl in IA, IS.
  assert (Er : r0 = r).
  { clear IS.
    repeat match goal with
           | H : _ \/ _ |- _ => destruct H as [H|H]
           | H : False |- _ => destruct H
           end;
      try discriminate;
      try (exfalso; exact (Forall_In_absurd _ _ _ OA IA (fun x => x)));
      try (exfalso; exact (Forall_In_absurd _ _ _ OS IA (fun x => x)));
      try (now injection IA). }
  subst r0.
  assert (Es : submitted = r /\ sent = Throw e).
  { clear IA.
    repeat match goal with
           | H : _ \/ _ |- _ => destruct H as [H|H]
           | H : False |- _ => destruct H
           end;
      try discriminate;
      try (exfalso; exact (Forall_In_absurd _ _ _ OA IS (fun x => x)));
      try (exfalso; exact (Forall_In_absurd _ _ _ OS IS (fun x => x)));
      try (injection IS as -> ->; auto). }
  destruct Es as [-> ->]. split; [reflexivity|].
  exists iso, modelId. repeat split; reflexivity.
Qed.

Lemma submission_failure_is_captured_witness :
  exists out evs r v e,
    Controller.extractRecipeFromText Demo.salade_env Demo.salade_request []
    = (out, evs)
    /\ In (EvExtractRecipe Demo.salade_request (Return r)) evs
    /\ validateRecipe r = Return v
    /\ valid v = true
    /\ In (EvSendRecipe r (Throw e)) evs
    /\ exists extractedAt modelId,
         out = Return (Controller.extraction r (Controller.notSent e)
                         extractedAt modelId).
Proof.
  eexists. eexists. eexists. eexists. eexists.
  match goal with
  | |- ?A /\ ?B /\ ?C /\ ?D /\ ?E /\ _ =>
      assert (R : A) by (vm_compute; reflexivity);
      assert (IA : B) by (right; right; right; left; reflexivity);
      assert (V : C) by (vm_compute; reflexivity);
      assert (T : D) by reflexivity;
      assert (IS : E) by (do 5 right; left; reflexivity)
  end.
  split; [exact R|]. split; [exact IA|]. split; [exact V|].
  split; [exact T|]. split; [exact IS|].
  destruct (submission_failure_is_captured _ _ _ _ _ _ _ _ _ R IA V T IS)
    as (_ & extractedAt & modelId & E & _).
  exists extractedAt, modelId. exact E.
Defined.

End ControllerClaims.

(* ===================================================================== *)
(** ** The health check *)
(* ===================================================================== *)

Section HealthClaims.
Import HealthSpec.

Lemma status_distinct :
  str "healthy" <> str "degraded" /\ str "healthy" <> str "unhealthy"
  /\ str "degraded" <> str "unhealthy".
Proof. repeat split; intros H; vm_compute in H; discriminate. Qed.

(** C4, amended.  [healthCheck] always returns; its status is 'healthy' iff
    both probes report available, 'degraded' iff both probes return and at
    least one of them reports unavailable (both unavailable included), and
    'unhealthy' iff a probe throws. *)
Theorem healthCheck_status env checkBedrockAvailability checkAPIAvailability h :
  exists health evs,
    Controller.healthCheckWith env checkBedrockAvailability
      checkAPIAvailability h = (Return health, evs)
    /\ (RecipeModel.field health "status" = str "healthy"
        <-> probed checkBedrockAvailability checkAPIAvailability h
            = Some (true, true))
    /\ (RecipeModel.field health "status" = str "degraded"
        <-> exists bedrockAvailable apiAvailable,
              probed checkBedrockAvailability checkAPIAvailability h
              = Some (bedrockAvailable, apiAvailable)
              /\ bedrockAvailable && apiAvailable = false)
    /\ (RecipeModel.field health "status" = str "unhealthy"
        <-> probed checkBedrockAvailability checkAPIAvailability h = None).
Proof.
  destruct status_distinct as (D1 & D2 & D3).
  unfold Controller.healthCheckWith, probed, try_catch, bind, now, ret.
  destruct (checkBedrockAvailability h) as [[b1|e1] evs1].
  - destruct (checkAPIAvailability (h ++ evs1)) as [[b2|e2] evs2].
    + eexists. eexists. split; [reflexivity|].
      change (RecipeModel.field _ "status")
        with (if b1 && b2 then str "healthy" else str "degraded").
      split; [|split].
      * destruct b1, b2; cbn [andb]; split; intros H;
          try reflexivity; try discriminate; congruence.
      * split.
        -- intros H. exists b1, b2. split; [reflexivity|].
           destruct (b1 && b2); [congruence | reflexivity].
        -- intros (b1' & b2' & E & F). injection E as <- <-. now rewrite F.
      * split; [|discriminate].
        destruct (b1 && b2); intros H; congruence.
    + eexists. eexists. split; [reflexivity|].
      change (RecipeModel.field _ "status") with (str "unhealthy").
      split; [|split].
      * split; [congruence | discriminate].
      * split; [congruence | intros (? & ? & E & _); discriminate].
      * split; reflexivity.
  - eexists. eexists. split; [reflexivity|].
    change (RecipeModel.field _ "status") with (str "unhealthy").
    split; [|split].
    + split; [congruence | discriminate].
    + split; [congruence | intros (? & ? & E & _); discriminate].
    + split; reflexivity.
Qed.

(** The probes of the service catch every failure. *)
Lemma probes_never_throw env h :
  (exists b evs, Bedrock.checkBedrockAvailability env h = (Return b, evs))
  /\ (exists b evs, Lambda.checkAPIAvailability env h = (Return b, evs)).
Proof.
  split.
  - unfold Bedrock.checkBedrockAvailability, try_catch, bind, ret.
    destruct (Bedrock.extractRecipe env _ h) as [[r|e] evs]; eauto.
  - unfold Lambda.checkAPIAvailability, try_catch, bind, ret, call.
    destruct (lambda_send env h _ _); eauto.
Qed.

(** C4 as stated fails: with both dependencies down the status is
    'degraded', although none of the two is available. *)
Lemma healthCheck_degraded_when_all_down :
  exists health evs,
    Controller.healthCheck Demo.down_env [] = (Return health, evs)
    /\ probed (Bedrock.checkBedrockAvailability Demo.down_env)
              (Lambda.checkAPIAvailability Demo.down_env) []
       = Some (false, false)
    /\ RecipeModel.field health "status" = str "degraded"
    /\ ~ status_as_stated false false (RecipeModel.field health "status").
Proof.
  eexists. eexists. split; [vm_compute; reflexivity|].
  split; [vm_compute; reflexivity|]. split; [reflexivity|].
  intros [_ [H _]]. specialize (H eq_refl). discriminate.
Qed.

End HealthClaims.

(* ===================================================================== *)
(** ** The router *)
(* ===================================================================== *)

Section RouterClaims.
Import RecipeModel RoutingSpec.

Lemma is_str_spec v s : is_str v s = true <-> v = str s.
Proof.
  unfold is_str, str. destruct v; try (split; [discriminate | intros H; discriminate]).
  rewrite str_eqb_spec. split; [now intros -> | now intros [= ->]].
Qed.

Lemma sources_distinct : str "aws:sqs" <> str "aws:s3".
Proof. intros H. vm_compute in H. discriminate. Qed.

(** The test of the handler is a test on [Records[0].eventSource]. *)
Lemma firstRecordIs_spec event source :
  readable event = true ->
  Handler.firstRecordIs event source
  = Return (is_str (first_event_source event) source).
Proof.
  intros R. unfold Handler.firstRecordIs, first_event_source.
  rewrite get_field by exact R. cbn [rbind].
  destruct (truthy (field event "Records")); [|reflexivity].
  destruct (at_index (field event "Records") 0); reflexivity.
Qed.

(** On [null] and [undefined] the test itself throws: [event.Records]
    cannot be read. *)
Lemma firstRecordIs_unreadable event source :
  readable event = false ->
  Handler.firstRecordIs event source
  = Throw (cannot_read event (js "Records")).
Proof. destruct event; try discriminate; reflexivity. Qed.

(** C10 (amended).  An event that is neither [null] nor [undefined] is
    handed, inside the [try]/[catch] of the handler, to exactly one of the
    three paths, chosen by [Records[0].eventSource] alone: the SQS path iff
    it is 'aws:sqs', the S3 path iff it is 'aws:s3', the API path otherwise.
    An event that is [null] or [undefined] is handed to none of them: the
    read of [event.Records] throws and the handler answers 500, without
    any call. *)
Theorem handler_routes_on_first_record env event :
  (forall h, Handler.handler env event h
             = if readable event
               then guarded env (dispatch env (classify event) event) h
               else (Return (unrouted env event), []))
  /\ (classify event = JobCompletion
      <-> first_event_source event = str "aws:sqs")
  /\ (classify event = StorageUpload
      <-> first_event_source event = str "aws:s3")
  /\ (classify event = DirectRequest
      <-> first_event_source event <> str "aws:sqs"
          /\ first_event_source event <> str "aws:s3")
  /\ (forall event',
        truthy (field event' "Records") = truthy (field event "Records") ->
        at_index (field event' "Records") 0
        = at_index (field event "Records") 0 ->
        classify event' = classify event).
Proof.
  unfold classify.
  pose proof (is_str_spec (first_event_source event) "aws:sqs") as Q.
  pose proof (is_str_spec (first_event_source event) "aws:s3") as S.
  pose proof sources_distinct as D.
  split; [|split; [|split; [|split]]].
  - intros h. destruct (readable event) eqn:R.
    + unfold Handler.handler, guarded, try_catch, bind, lift.
      rewrite !firstRecordIs_spec by exact R.
      destruct (is_str (first_event_source event) "aws:sqs"); cbn [dispatch].
      * rewrite app_nil_r.
        destruct (Handler.handleSqsEvent env event h) as [[r|e] evs];
          reflexivity.
      * rewrite !app_nil_r.
        destruct (is_str (first_event_source event) "aws:s3"); cbn [dispatch].
        -- destruct (Handler.handleS3Event env event h) as [[r|e] evs];
             reflexivity.
        -- destruct (Handler.handleApiGatewayEvent env event h)
             as [[r|e] evs]; reflexivity.
    + unfold Handler.handler, try_catch, bind, lift.
      rewrite (firstRecordIs_unreadable event "aws:sqs" R). reflexivity.
  - destruct (is_str (first_event_source event) "aws:sqs").
    + split; [intros _; now apply Q | reflexivity].
    + split.
      * destruct (is_str _ "aws:s3"); discriminate.
      * intros H. apply Q in H. discriminate.
  - destruct (is_str (first_event_source event) "aws:sqs") eqn:Eq.
    + split; [discriminate|]. intros H. exfalso. apply D.
      rewrite <- H. symmetry. now apply Q.
    + destruct (is_str (first_event_source event) "aws:s3").
      * split; [intros _; now apply S | reflexivity].
      * split; [discriminate|]. intros H. apply S in H. discriminate.
  - destruct (is_str (first_event_source event) "aws:sqs").
    + split; [discriminate|]. intros [H _]. exfalso. apply H. now apply Q.
    + destruct (is_str (first_event_source event) "aws:s3").
      * split; [discriminate|]. intros [_ H]. exfalso. apply H. now apply S.
      * split; [|reflexivity]. intros _. split; intros H.
        -- apply Q in H. discriminate.
        -- apply S in H. discriminate.
  - intros event' T I. unfold first_event_source. now rewrite T, I.
Qed.

(** An SQS batch is handed to the SQS path, and [undefined] to none. *)
Lemma handler_routes_on_first_record_witness :
  classify Demo.sqs_event = JobCompletion
  /\ (forall h, Handler.handler Demo.salade_env Demo.sqs_event h
                = guarded Demo.salade_env
                    (Handler.handleSqsEvent Demo.salade_env Demo.sqs_event) h)
  /\ (forall h, Handler.handler Demo.salade_env JUndefined h
                = (Return (unrouted Demo.salade_env JUndefined), [])).
Proof.
  split; [reflexivity|]. split.
  - exact (proj1 (handler_routes_on_first_record Demo.salade_env
                    Demo.sqs_event)).
  - exact (proj1 (handler_routes_on_first_record Demo.salade_env JUndefined)).
Defined.

(** C10 as stated fails: a [null] event carries neither marker, so the
    claim sends it to the API path, which would answer 400 (the body cannot
    be read); the handler answers 500 before any path is entered. *)
Lemma handler_null_event_is_not_routed :
  first_event_source JNull <> str "aws:sqs"
  /\ first_event_source JNull <> str "aws:s3"
  /\ (exists r,
        guarded Demo.salade_env
          (Handler.handleApiGatewayEvent Demo.salade_env JNull) []
        = (Return r, [])
        /\ statusCode r = 400%Z)
  /\ (exists r,
        Handler.handler Demo.salade_env JNull [] = (Return r, [])
        /\ statusCode r = 500%Z)
  /\ Handler.handler Demo.salade_env JNull []
     <> guarded Demo.salade_env
          (dispatch Demo.salade_env (classify JNull) JNull) [].
Proof.
  split; [discriminate|]. split; [discriminate|].
  split; [eexists; split; reflexivity|].
  split; [eexists; split; reflexivity|].
  intros H. vm_compute in H. discriminate.
Qed.

(** An empty [Records] array and a first record without marker go to the
    API path. *)
Example empty_records_are_direct :
  classify (obj [ ("Records", arr []) ]) = DirectRequest
  /\ classify (obj [ ("Records", arr [ obj [ ("body", str "{}") ] ]) ])
     = DirectRequest
  /\ classify (obj [ ("Records", arr [ JNull ]) ]) = DirectRequest
  /\ classify (obj [ ("body", str "{}") ]) = DirectRequest.
Proof. repeat split; reflexivity. Qed.

End RouterClaims.

(* ===================================================================== *)
(** ** The response envelope *)
(* ===================================================================== *)

Section Yields.
Import EnvelopeSpec.
Context {A B : Type}.

Lemma yields_ret (Q : A -> Prop) a : Q a -> yields Q (ret a).
Proof. intros H h out evs E. apply ret_inv in E as [-> _]. exact H. Qed.

Lemma yields_throw (Q : A -> Prop) e : yields Q (throw e).
Proof. intros h out evs E. apply throw_inv in E as [-> _]. exact I. Qed.

Lemma yields_bind (Q : B -> Prop) (m : M A) (k : A -> M B) :
  (forall a, yields Q (k a)) -> yields Q (bind m k).
Proof.
  intros Hk h out evs E.
  apply bind_inv in E as [(e & _ & ->)|(a & evs1 & evs2 & _ & E & _)].
  - exact I.
  - exact (Hk a _ _ _ E).
Qed.

Lemma yields_try_catch (Q : A -> Prop) (m : M A) handler :
  yields Q m -> (forall e, yields Q (handler e)) ->
  yields Q (try_catch m handler).
Proof.
  intros Hm Hh h out evs E.
  apply try_catch_inv in E as [(a & E & ->)|(e & evs1 & evs2 & _ & E & _)].
  - exact (Hm _ _ _ E).
  - exact (Hh e _ _ _ E).
Qed.

End Yields.

Section EnvelopeClaims.
Import EnvelopeSpec.
Variable env : Env.

Lemma envelope_success data : envelope env (successResponse env data 200).
Proof.
  split; [reflexivity|]. left. split; [now exists data | reflexivity].
Qed.

Lemma envelope_error message status details :
  In status [400; 422; 500; 502; 503]%Z ->
  envelope env (errorResponse env message status details).
Proof.
  intros H. split; [reflexivity|]. right.
  split; [now exists message, details | exact H].
Qed.

Lemma envelope_apiErrorResponse e : envelope env (Handler.apiErrorResponse env e).
Proof.
  unfold Handler.apiErrorResponse. cbv zeta.
  repeat match goal with
         | |- context [if ?c then _ else _] => destruct c
         end;
    apply envelope_error; simpl; tauto.
Qed.

Lemma handleTextExtraction_envelope recipeText :
  yields (envelope env) (Handler.handleTextExtraction env recipeText).
Proof.
  unfold Handler.handleTextExtraction.
  destruct (length_gt env recipeText 50000).
  - apply yields_ret, envelope_error. simpl. tauto.
  - apply yields_bind. intros result. apply yields_ret, envelope_success.
Qed.

Lemma handleUrlExtraction_envelope url :
  yields (envelope env) (Handler.handleUrlExtraction env url).
Proof.
  unfold Handler.handleUrlExtraction.
  destruct (negb (WebpageService.isValidUrl env url)).
  - apply yields_ret, envelope_error. simpl. tauto.
  - apply yields_try_catch.
    + apply yields_bind. intros webContent.
      cbv zeta.
      match goal with
      | |- context [if ?c then _ else _] => destruct c
      end.
      * apply yields_ret, envelope_error. simpl. tauto.
      * apply yields_bind. intros result. apply yields_ret, envelope_success.
    + intros e.
      match goal with
      | |- context [if ?c then _ else _] => destruct c
      end.
      * apply yields_ret, envelope_error. simpl. tauto.
      * apply yields_throw.
Qed.


End EnvelopeClaims.

(* ===================================================================== *)
(** ** The two length limits of the direct-request path *)
(* ===================================================================== *)

Section LengthFacts.
Import RecipeModel Whitespace.

Arguments is_space : simpl never.

Lemma trimStart_nil_all_space s : trimStart s = [] -> forallb is_space s = true.
Proof.
  induction s as [|c s IH]; simpl; [reflexivity|].
  destruct (is_space c); [exact IH | discriminate].
Qed.

(** A text that begins with something else than white space is not blank. *)
Lemma not_blank_head c s :
  is_space c = false -> Controller.blank (JStr (c :: s)) = false.
Proof.
  intros H. unfold Controller.blank, trim. simpl trimStart. rewrite H.
  destruct (trimEnd (c :: s)) eqn:E; [|reflexivity].
  exfalso. unfold trimEnd in E.
  apply (f_equal (@rev N)) in E. rewrite rev_involutive in E. simpl rev in E at 2.
  apply trimStart_nil_all_space in E.
  rewrite forallb_forall in E.
  assert (I : In c (rev (c :: s))) by (rewrite <- in_rev; now left).
  rewrite (E c I) in H. discriminate.
Qed.

Lemma trimmed_not_blank s :
  trimmed s -> s <> [] -> Controller.blank (JStr s) = false.
Proof.
  intros T N. pose proof (trimmed_head s T) as H.
  destruct s as [|c s]; [congruence|]. now apply not_blank_head.
Qed.

(** A prefix of a trimmed text is not blank. *)
Lemma firstn_not_blank n s :
  trimmed s -> s <> [] -> 0 < n -> Controller.blank (JStr (firstn n s)) = false.
Proof.
  intros T N Hn. pose proof (trimmed_head s T) as H.
  destruct s as [|c s]; [congruence|]. destruct n as [|n]; [lia|].
  simpl firstn. now apply not_blank_head.
Qed.

(** A value with a field is an object, hence truthy. *)
Lemma field_defined b k :
  field b k <> JUndefined -> truthy b = true /\ readable b = true.
Proof.
  destruct b; unfold field; simpl; intros H; try congruence; auto.
Qed.

End LengthFacts.

Section LengthClaims.
Import RecipeModel Whitespace LengthSpec.
Variable env : Env.

(** The URL path on a page whose text is longer than the limit: the
    controller is run on the capped text, after the fetch. *)
Lemma handleUrlExtraction_long url h html out evs :
  WebpageService.isValidUrl env url = true ->
  http_fetch env h url = Return html ->
  (50000 < Z.of_nat (List.length (Webpage.extractTextFromHtml html)))%Z ->
  Controller.extractRecipeFromText env
    (JStr (capped (Webpage.extractTextFromHtml html)))
    (h ++ [EvFetch url (Return html)]) = (out, evs) ->
  Handler.handleUrlExtraction env url h
  = (match out with
     | Return result =>
         Return (url_success env url (Webpage.extractTextFromHtml html) result)
     | Throw e =>
         if includes (err_message e) (js "fetch")
            || includes (err_message e) (js "timeout")
         then Return (errorResponse env (js "Failed to fetch webpage") 502
                        [err_message e])
         else Throw e
     end, EvFetch url (Return html) :: evs).
Proof.
  intros V F L R.
  unfold Handler.handleUrlExtraction. rewrite V. cbn [negb].
  unfold try_catch, bind at 1.
  unfold WebpageService.fetchAndExtractWebpage, bind at 1, call, ret.
  rewrite F. cbn [WebpageService.wc_text app].
  assert (B : Controller.blank (JStr (Webpage.extractTextFromHtml html)) = false).
  { apply trimmed_not_blank.
    - apply (extractTextFromHtml_normal html).
    - intros E. rewrite E in L. simpl in L. lia. }
  rewrite B. apply Z.ltb_lt in L. rewrite L.
  unfold bind. fold (capped (Webpage.extractTextFromHtml html)).
  rewrite R. destruct out as [result|e].
  - unfold url_success. now rewrite app_nil_r.
  - destruct (includes (err_message e) (js "fetch")
              || includes (err_message e) (js "timeout")).
    + now rewrite app_nil_r.
    + unfold throw. now rewrite app_nil_r.
Qed.


(** With the model configured, a text that is not blank reaches the
    adapter. *)
Lemma extractRecipeFromText_reaches_backend recipeText h out evs modelId :
  Controller.blank recipeText = false ->
  config_get env h (js "bedrock") (js "MODEL_ID") = Return modelId ->
  Controller.extractRecipeFromText env recipeText h = (out, evs) ->
  exists adapted, In (EvExtractRecipe recipeText adapted) evs.
Proof.
  intros B C H. unfold Controller.extractRecipeFromText in H.
  apply bind_inv in H as [(e & H & _)|(m & evs1 & evs2 & _ & H & ->)].
  { apply call_inv in H as [H _]. congruence. }
  rewrite B in H.
  assert (Body : forall (k : value -> M value) h1 outB evsB,
            bind (Bedrock.extractRecipe env recipeText) k h1 = (outB, evsB) ->
            exists adapted, In (EvExtractRecipe recipeText adapted) evsB).
  { intros k h1 outB evsB HB.
    apply bind_inv in HB as [(e & HB & _)|(r & evsA & evsR & HA & _ & ->)].
    - apply extractRecipe_events in HB as (pre & -> & _).
      exists (Throw e). rewrite in_app_iff. right. now left.
    - apply extractRecipe_events in HA as (pre & -> & _).
      exists (Return r). rewrite !in_app_iff. left. right. now left. }
  apply try_catch_inv in H as [(a & H & _)|(e & evsB & evsC & H & _ & ->)];
    apply Body in H as [adapted I]; exists adapted;
    rewrite !in_app_iff; auto.
Qed.

(** The adapter, handed a string that is not empty and a configured model,
    invokes the model with the payload that carries this string. *)
Lemma extractRecipe_invokes_model s h model out evs :
  s <> [] ->
  config_get env h (js "bedrock") (js "MODEL_ID") = Return (Some model) ->
  Bedrock.extractRecipe env (JStr s) h = (out, evs) ->
  exists answer,
    In (EvBedrockSend (Bedrock.inferenceProfile env model)
          (Bedrock.payload (JStr s)) answer) evs.
Proof.
  intros N C H. unfold Bedrock.extractRecipe in H.
  apply observed_inv in H as (pre & H & ->).
  apply bind_inv in H as [(e & H & _)|(cfg & evs1 & evs2 & H1 & H & ->)].
  { apply call_inv in H as [H _]. congruence. }
  apply call_inv in H1 as [H1 ->]. rewrite C in H1. injection H1 as H1.
  subst cfg.
  apply bind_inv in H as [(e & H & _)|(profile & evs3 & evs4 & H3 & H & ->)].
  { apply ret_inv in H as [H _]. discriminate. }
  apply ret_inv in H3 as [H3 ->]. injection H3 as H3. subst profile.
  destruct s as [|c s]; [congruence|]. cbn [truthy typeof type_eqb negb orb] in H.
  assert (Sent : forall (k : jsstring -> M value) h1 outB evsB,
            bind (call (fun h => bedrock_send env h
                                   (Bedrock.inferenceProfile env model)
                                   (Bedrock.payload (JStr (c :: s))))
                       (EvBedrockSend (Bedrock.inferenceProfile env model)
                          (Bedrock.payload (JStr (c :: s))))) k h1
            = (outB, evsB) ->
            exists answer,
              In (EvBedrockSend (Bedrock.inferenceProfile env model)
                    (Bedrock.payload (JStr (c :: s))) answer) evsB).
  { intros k h1 outB evsB HB.
    apply bind_inv in HB as [(e & HB & _)|(raw & evsC & evsR & HC & _ & ->)].
    - apply call_inv in HB as [_ ->]. eexists. now left.
    - apply call_inv in HC as [_ ->]. eexists. now left. }
  apply try_catch_inv in H as [(a & H & _)|(e & evsB & evsC & H & _ & ->)];
    apply Sent in H as [answer I]; exists answer;
    rewrite !in_app_iff; cbn [app In]; auto 10.
Qed.

(** A run of the controller on a text that is not blank runs the adapter
    first, after the read of the configuration; the controller returns
    only if the adapter does. *)
Lemma extractRecipeFromText_runs_adapter recipeText h out evs modelId :
  Controller.blank recipeText = false ->
  config_get env h (js "bedrock") (js "MODEL_ID") = Return modelId ->
  Controller.extractRecipeFromText env recipeText h = (out, evs) ->
  let read := EvConfig (js "bedrock") (js "MODEL_ID") (Return modelId) in
  exists extracted evsA rest,
    Bedrock.extractRecipe env recipeText (h ++ [read]) = (extracted, evsA)
    /\ evs = read :: evsA ++ rest
    /\ (forall result, out = Return result -> exists r, extracted = Return r).
Proof.
  intros B C H read. unfold Controller.extractRecipeFromText in H.
  apply bind_inv in H as [(e & H & _)|(m & evs1 & evs2 & H1 & H & ->)].
  { apply call_inv in H as [H _]. congruence. }
  apply call_inv in H1 as [H1 ->]. rewrite C in H1. injection H1 as H1.
  subst m.
  rewrite B in H. fold read in H |- *.
  assert (Body : forall outB evsB,
            Controller.attempt env modelId recipeText (h ++ [read])
            = (outB, evsB) ->
            exists extracted evsA rest,
              Bedrock.extractRecipe env recipeText (h ++ [read])
              = (extracted, evsA)
              /\ evsB = evsA ++ rest
              /\ (forall result, outB = Return result ->
                                 exists r, extracted = Return r)).
  { intros outB evsB HB. unfold Controller.attempt in HB.
    apply bind_inv in HB as [(e & HB & ->)|(r & evsA & evsR & HA & _ & ->)].
    - exists (Throw e), evsB, []. rewrite app_nil_r.
      split; [exact HB|]. split; [reflexivity | discriminate].
    - exists (Return r), evsA, evsR. split; [exact HA|].
      split; [reflexivity | eauto]. }
  apply try_catch_inv in H as [(a & H & ->)|(e & evsB & evsC & H & HC & ->)].
  - apply Body in H as (extracted & evsA & rest & A & -> & R).
    exists extracted, evsA, rest. split; [exact A|].
    split; [reflexivity | exact R].
  - apply Body in H as (extracted & evsA & rest & A & -> & _).
    exists extracted, evsA, (rest ++ evsC). split; [exact A|].
    split; [cbn [app]; now rewrite <- app_assoc|].
    intros result E. subst out.
    destruct (catchExtraction_throws e
                (h ++ [read] ++ evsA ++ rest)) as [e' T].
    rewrite (catchExtraction_history e _ (h ++ [read] ++ evsA ++ rest)) in HC.
    rewrite T in HC. discriminate.
Qed.

(** C5.  On the direct-request path a literal [recipeText] longer than
    50,000 code units is answered with status 400 and no collaborator is
    called; a page whose text is longer than 50,000 code units is not
    rejected: after the fetch the controller is run on the first 50,000
    code units, which are not blank and reach the adapter; where the model
    is configured the adapter invokes the model with the payload that
    carries these 50,000 code units; when the controller returns, the model
    was invoked with that payload and answered, and the response is the
    success envelope with status 200. *)
Theorem length_limits event h body :
  Handler.requestBody env event = Return body ->
  (forall s,
     truthy (field body "url") = false ->
     field body "recipeText" = JStr s ->
     (50000 < Z.of_nat (List.length s))%Z ->
     Handler.handleApiGatewayEvent env event h = (Return (too_long env), []))
  /\ (forall html,
        truthy (field body "url") = true ->
        WebpageService.isValidUrl env (field body "url") = true ->
        http_fetch env h (field body "url") = Return html ->
        (50000 < Z.of_nat (List.length (Webpage.extractTextFromHtml html)))%Z ->
        let url := field body "url" in
        let text := Webpage.extractTextFromHtml html in
        let fetched := EvFetch url (Return html) in
        List.length (capped text) = Z.to_nat 50000
        /\ capped text = firstn (Z.to_nat 50000) text
        /\ Controller.blank (JStr (capped text)) = false
        /\ forall out evs,
             Controller.extractRecipeFromText env (JStr (capped text))
               (h ++ [fetched]) = (out, evs) ->
             (exists r,
                Handler.handleApiGatewayEvent env event h
                = (Return r, fetched :: evs)
                /\ forall result, out = Return result ->
                                  r = url_success env url text result
                                  /\ statusCode r = 200%Z)
             /\ (forall modelId,
                   config_get env (h ++ [fetched]) (js "bedrock")
                     (js "MODEL_ID") = Return modelId ->
                   (exists adapted,
                      In (EvExtractRecipe (JStr (capped text)) adapted) evs)
                   /\ forall model,
                        config_get env
                          ((h ++ [fetched])
                           ++ [EvConfig (js "bedrock") (js "MODEL_ID")
                                 (Return modelId)])
                          (js "bedrock") (js "MODEL_ID")
                        = Return (Some model) ->
                        exists answer,
                          In (EvBedrockSend
                                (Bedrock.inferenceProfile env model)
                                (Bedrock.payload (JStr (capped text)))
                                answer) evs)
             /\ (forall result,
                   out = Return result ->
                   exists profile raw,
                     In (EvBedrockSend profile
                           (Bedrock.payload (JStr (capped text)))
                           (Return raw)) evs)).
Proof.
  intros RB. split.
  - intros s U T L.
    assert (D : field body "recipeText" <> JUndefined) by (rewrite T; discriminate).
    apply field_defined in D as [Tb Rb].
    unfold Handler.handleApiGatewayEvent, Handler.processRequest.
    rewrite RB, Tb. cbn [negb].
    unfold try_catch, bind, lift. rewrite !get_field by exact Rb.
    rewrite U, T.
    assert (Ts : truthy (JStr s) = true).
    { destruct s; [simpl in L; lia | reflexivity]. }
    rewrite Ts. unfold Handler.handleTextExtraction, length_gt.
    apply Z.ltb_lt in L. rewrite L. reflexivity.
  - intros html U V F L url text fetched.
    assert (Nb : Controller.blank (JStr (capped text)) = false).
    { apply firstn_not_blank.
      - apply (extractTextFromHtml_normal html).
      - intros E. unfold text in E. rewrite E in L. simpl in L. lia.
      - lia. }
    assert (Ne : capped text <> []).
    { intros E. rewrite E in Nb. discriminate. }
    split; [|split; [reflexivity|split; [exact Nb|]]].
    { unfold capped, text. apply firstn_length_le. lia. }
    intros out evs R. split; [|split].
    + assert (D : field body "url" <> JUndefined).
      { intros E. rewrite E in U. discriminate. }
      apply field_defined in D as [Tb Rb].
      pose proof (handleUrlExtraction_long url h html out evs V F L R) as HU.
      unfold Handler.handleApiGatewayEvent, Handler.processRequest.
      rewrite RB, Tb. cbn [negb].
      unfold try_catch, bind at 1, lift. rewrite get_field by exact Rb.
      rewrite U. cbn [app]. fold url. rewrite app_nil_r, HU.
      destruct out as [result|e].
      * eexists. split; [reflexivity|].
        intros result' E. injection E as <-. split; reflexivity.
      * destruct (includes (err_message e) (js "fetch")
                  || includes (err_message e) (js "timeout")).
        -- eexists. split; [reflexivity|]. intros result E. discriminate.
        -- unfold ret. rewrite app_nil_r.
           eexists. split; [reflexivity|]. intros result E. discriminate.
    + intros modelId C. split.
      * exact (extractRecipeFromText_reaches_backend _ _ _ _ _ Nb C R).
      * intros model C'.
        destruct (extractRecipeFromText_runs_adapter _ _ _ _ _ Nb C R)
          as (extracted & evsA & rest & A & -> & _).
        destruct (extractRecipe_invokes_model _ _ _ _ _ Ne C' A)
          as [answer I].
        exists answer. right. rewrite in_app_iff. now left.
    + intros result E.
      destruct (config_get env (h ++ [fetched]) (js "bedrock")
                  (js "MODEL_ID")) as [modelId|e] eqn:C.
      2:{ exfalso. subst out. unfold Controller.extractRecipeFromText in R.
          apply bind_inv in R as [(e' & _ & R)|(m & ? & ? & R & _)].
          - discriminate.
          - apply call_inv in R as [R _]. congruence. }
      destruct (extractRecipeFromText_runs_adapter _ _ _ _ _ Nb C R)
        as (extracted & evsA & rest & A & -> & Ret).
      destruct (Ret result E) as [r ->].
      apply extractRecipe_inv in A as (profile & raw & parsed & I & _).
      exists profile, raw. right. rewrite in_app_iff. now left.
Qed.

End LengthClaims.

Section LengthWitness.
Import RecipeModel Whitespace LengthSpec.

Arguments is_space : simpl never.

Lemma letters_normal n :
  plain (repeat 97%N n) /\ lines_normal (repeat 97%N n)
  /\ blanks_normal (repeat 97%N n) /\ trimmed (repeat 97%N n).
Proof.
  split; [|split; [|split]].
  - apply Forall_forall. intros c I. apply repeat_spec in I. subst c.
    split; discriminate.
  - induction n as [|n IH]; simpl; [exact I|]. split; [discriminate | exact IH].
  - induction n as [|n IH]; simpl; [exact I|].
    split; [discriminate|]. split; [discriminate | exact IH].
  - unfold trimmed, trim.
    assert (R : forall m, rev (repeat 97%N m) = repeat 97%N m).
    { induction m as [|m IH]; [reflexivity|].
      simpl. rewrite IH. symmetry. apply repeat_cons. }
    assert (S : forall m, trimStart (repeat 97%N m) = repeat 97%N m).
    { intros [|m]; reflexivity. }
    unfold trimEnd. now rewrite S, R, S, R.
Qed.

Lemma long_page_text : Webpage.extractTextFromHtml long_page = long_page.
Proof.
  destruct (letters_normal (Z.to_nat 60000)) as (P & L & B & T).
  now apply extractTextFromHtml_fixed.
Qed.

(** In the sample environment the controller succeeds on every text that
    is not blank. *)
Lemma page_env_extracts t h :
  Controller.blank (JStr t) = false ->
  exists result evs,
    Controller.extractRecipeFromText page_env (JStr t) h = (Return result, evs).
Proof.
  intros B. destruct t as [|c t]; [discriminate|].
  unfold Controller.extractRecipeFromText, bind at 1, call.
  rewrite B. vm_compute. eexists. eexists. reflexivity.
Qed.

Lemma length_limits_witness :
  Handler.handleApiGatewayEvent page_env long_text_event []
  = (Return (too_long page_env), [])
  /\ exists r evs,
       Handler.handleApiGatewayEvent page_env url_event [] = (Return r, evs)
       /\ statusCode r = 200%Z
       /\ (exists adapted,
             In (EvExtractRecipe
                   (JStr (firstn (Z.to_nat 50000) long_page)) adapted) evs)
       /\ (exists model answer,
             Demo.claude = Some model
             /\ In (EvBedrockSend (Bedrock.inferenceProfile page_env model)
                      (Bedrock.payload
                         (JStr (firstn (Z.to_nat 50000) long_page)))
                      answer) evs)
       /\ (exists profile raw,
             In (EvBedrockSend profile
                   (Bedrock.payload
                      (JStr (firstn (Z.to_nat 50000) long_page)))
                   (Return raw)) evs).
Proof.
  split.
  - apply (proj1 (length_limits page_env long_text_event []
                    (obj [ ("recipeText", JStr (repeat 97%N (Z.to_nat 50001))) ])
                    eq_refl)
             (repeat 97%N (Z.to_nat 50001)) eq_refl eq_refl).
    rewrite repeat_length. lia.
  - assert (L : (50000 < Z.of_nat (List.length
                                     (Webpage.extractTextFromHtml long_page)))%Z).
    { rewrite long_page_text. unfold long_page. rewrite repeat_length. lia. }
    destruct (proj2 (length_limits page_env url_event []
                       (obj [ ("url", str "https://example.org/salade") ])
                       eq_refl)
                long_page eq_refl eq_refl eq_refl L)
      as (_ & _ & Nb & Run).
    destruct (page_env_extracts _ ([] ++ [EvFetch
                (field (obj [ ("url", str "https://example.org/salade") ]) "url")
                (Return long_page)]) Nb) as (result & evs & R).
    destruct (Run _ _ R) as ((r & H & S) & Reach & Answered).
    exists r. eexists. split; [exact H|].
    split; [exact (proj2 (S result eq_refl))|].
    rewrite long_page_text in Reach, Answered.
    destruct (Reach Demo.claude eq_refl) as [[adapted I] Invoked].
    destruct (Invoked _ eq_refl) as [answer J].
    destruct (Answered result eq_refl) as (profile & raw & K).
    split; [exists adapted; right; exact I|].
    split; [eexists _, answer; split; [reflexivity | right; exact J]|].
    exists profile, raw. right. exact K.
Defined.

End LengthWitness.

(* ===================================================================== *)
(** ** The two failures of the backend on the direct-request path *)
(* ===================================================================== *)

Section BackendFailures.
Import Trace RecipeModel.
Variable env : Env.

(** What a path of the handler makes of the outcome of the controller:
    [viaUrl] tells the URL path, whose [catch] block answers 502 to the
    errors that mention a fetch or a timeout. *)
Definition answered (viaUrl : bool) (success : value -> response)
    (outcome : result value) (out : result response) : Prop :=
  match outcome with
  | Return result => out = Return (success result)
  | Throw e =>
      if viaUrl && (includes (err_message e) (js "fetch")
                    || includes (err_message e) (js "timeout"))
      then out = Return (errorResponse env (js "Failed to fetch webpage") 502
                           [err_message e])
      else out = Throw e
  end.

Lemma handleTextExtraction_run recipeText h out evs :
  Handler.handleTextExtraction env recipeText h = (out, evs) ->
  evs = []
  \/ exists outcome,
       Controller.extractRecipeFromText env recipeText h = (outcome, evs)
       /\ answered false (fun result => successResponse env result 200)
                   outcome out.
Proof.
  unfold Handler.handleTextExtraction.
  destruct (length_gt env recipeText 50000).
  - intros H. apply ret_inv in H as [_ ->]. now left.
  - intros H. right.
    apply bind_inv in H as [(e & H & ->)|(result & evs1 & evs2 & H1 & H & ->)].
    + exists (Throw e). split; [exact H | reflexivity].
    + apply ret_inv in H as [-> ->]. rewrite app_nil_r.
      exists (Return result). split; [exact H1 | reflexivity].
Qed.

Lemma handleUrlExtraction_run url h out evs :
  Handler.handleUrlExtraction env url h = (out, evs) ->
  Forall outside evs
  \/ exists fetched text success outcome evsC,
       evs = fetched :: evsC /\ outside fetched
       /\ Controller.extractRecipeFromText env text (h ++ [fetched])
          = (outcome, evsC)
       /\ answered true success outcome out.
Proof.
  unfold Handler.handleUrlExtraction.
  destruct (negb (WebpageService.isValidUrl env url)).
  { intros H. apply ret_inv in H as [_ ->]. left. constructor. }
  intros H.
  apply try_catch_inv in H as [(a & H & ->)|(e & evs1 & evs2 & H & HC & ->)].
  - apply bind_inv_return in H as (wc & evsF & evsR & HF & H & ->).
    unfold WebpageService.fetchAndExtractWebpage in HF.
    apply bind_inv_return in HF as (html & evsG & evsH & HG & HF & ->).
    apply call_inv in HG as [_ ->]. apply ret_inv in HF as [HF ->].
    injection HF as HF. subst wc. cbn [WebpageService.wc_text app] in H. cbv zeta in H.
    match type of H with
    | (if ?c then _ else _) _ = _ => destruct c
    end.
    + apply ret_inv in H as [_ ->]. left. repeat constructor.
    + apply bind_inv_return in H as (result & evsC & evsE & HCt & H & ->).
      apply ret_inv in H as [H ->]. cbn [app]. rewrite ?app_nil_r. right.
      exists (EvFetch url (Return html)).
      eexists _,
        (fun result =>
           successResponse env
             (JObj (assign (js "extractedTextLength")
                      (num (Z.of_nat
                              (List.length (Webpage.extractTextFromHtml html))))
                      (assign (js "sourceUrl") url (spread result))))
             200),
        (Return result), evsC.
      split; [reflexivity|]. split; [exact I|]. split; [exact HCt|].
      unfold answered. exact H.
  - assert (HC' : answered true (fun _ => errorResponse env [] 0 []) (Throw e) out
                  /\ evs2 = []).
    { unfold answered. cbn [andb].
      destruct (includes (err_message e) (js "fetch")
                || includes (err_message e) (js "timeout")).
      - apply ret_inv in HC as [-> ->]. auto.
      - apply throw_inv in HC as [-> ->]. auto. }
    destruct HC' as [HA ->]. rewrite app_nil_r.
    apply bind_inv in H as [(e0 & H & E)|(wc & evsF & evsR & HF & H & ->)].
    + left. unfold WebpageService.fetchAndExtractWebpage in H.
      apply bind_inv in H as [(e1 & H & _)|(html & ? & ? & _ & H & _)].
      * apply call_inv in H as [_ ->]. repeat constructor.
      * apply ret_inv in H as [H _]. discriminate.
    + unfold WebpageService.fetchAndExtractWebpage in HF.
      apply bind_inv_return in HF as (html & evsG & evsH & HG & HF & ->).
      apply call_inv in HG as [_ ->]. apply ret_inv in HF as [HF ->].
      injection HF as HF. subst wc. cbn [WebpageService.wc_text app] in H. cbv zeta in H.
      match type of H with
      | (if ?c then _ else _) _ = _ => destruct c
      end.
      * apply ret_inv in H as [H _]. discriminate.
      * apply bind_inv in H as [(e0 & H & E)|(result & ? & ? & _ & H & _)].
        -- injection E as <-. right.
           eexists _, _, _, (Throw e), evsR.
           split; [reflexivity|]. split; [exact I|]. split; [exact H|].
           exact HA.
        -- apply ret_inv in H as [H _]. discriminate.
Qed.

(** Both messages of the adapter mention Bedrock, so the first test of
    each [catch] block takes them, and the URL path lets them through. *)
Definition wrapped (message : jsstring) : jsstring :=
  js "Bedrock service error: " ++ message.

Lemma failure_kinds message h :
  message = Bedrock.no_text_content \/ message = Bedrock.parse_failure ->
  Controller.catchExtraction (Error message) h
  = (Throw (Error (wrapped message)), [])
  /\ includes (wrapped message) (js "fetch")
     || includes (wrapped message) (js "timeout") = false
  /\ statusCode (Handler.apiErrorResponse env (Error (wrapped message)))
     = 503%Z.
Proof.
  intros [->| ->]; repeat split; vm_compute; reflexivity.
Qed.

Lemma adapter_failure_outcome recipeText h outcome evs t message :
  message = Bedrock.no_text_content \/ message = Bedrock.parse_failure ->
  Controller.extractRecipeFromText env recipeText h = (outcome, evs) ->
  In (EvExtractRecipe t (Throw (Error message))) evs ->
  outcome = Throw (Error (wrapped message)).
Proof.
  intros K H I.
  pose proof (extractRecipeFromText_adapter_failure env _ _ _ _ _ _ H I) as C.
  destruct (failure_kinds message [] K) as (C' & _).
  rewrite C' in C. now injection C as <-.
Qed.

Lemma processRequest_adapter_failure event h out evs t message :
  message = Bedrock.no_text_content \/ message = Bedrock.parse_failure ->
  Handler.processRequest env event h = (out, evs) ->
  In (EvExtractRecipe t (Throw (Error message))) evs ->
  out = Throw (Error (wrapped message)).
Proof.
  intros K H I. unfold Handler.processRequest in H.
  destruct (Handler.requestBody env event) as [body|parseError].
  2: { apply ret_inv in H as [_ ->]. destruct I. }
  destruct (negb (truthy body)).
  { apply ret_inv in H as [_ ->]. destruct I. }
  apply bind_inv in H as [(e & H & _)|(url & evs1 & evs2 & H1 & H & ->)].
  { apply lift_inv in H as [_ ->]. destruct I. }
  apply lift_inv in H1 as [_ ->]. cbn [app] in I. rewrite app_nil_r in H.
  destruct (truthy url).
  - apply handleUrlExtraction_run in H
      as [F|(fetched & text & success & outcome & evsC & -> & O & H & A)].
    + exfalso. apply (Forall_In_absurd _ _ _ F I). exact (fun x => x).
    + destruct I as [I|I]; [subst fetched; destruct O|].
      rewrite (adapter_failure_outcome _ _ _ _ _ _ K H I) in A.
      unfold answered in A. cbn [err_message Error andb] in A.
      destruct (failure_kinds message [] K) as (_ & E & _).
      rewrite E in A. exact A.
  - apply bind_inv in H as [(e & H & _)|(text & evs3 & evs4 & H1 & H & ->)].
    { apply lift_inv in H as [_ ->]. destruct I. }
    apply lift_inv in H1 as [_ ->]. cbn [app] in I. rewrite app_nil_r in H.
    destruct (truthy text).
    + apply handleTextExtraction_run in H as [->|(outcome & H & A)].
      * destruct I.
      * rewrite (adapter_failure_outcome _ _ _ _ _ _ K H I) in A. exact A.
    + apply ret_inv in H as [_ ->]. destruct I.
Qed.

(** C3 (as the code has it): on the direct-request path, a run in which the
    adapter failed for want of a textual content item and a run in which it
    failed because the textual content did not parse as JSON are both
    answered with status 503: the two kinds of failure are not mapped to
    different status codes. *)
Theorem backend_failures_same_status event h r evs t message :
  message = Bedrock.no_text_content \/ message = Bedrock.parse_failure ->
  Handler.handleApiGatewayEvent env event h = (Return r, evs) ->
  In (EvExtractRecipe t (Throw (Error message))) evs ->
  statusCode r = 503%Z.
Proof.
  intros K H I. unfold Handler.handleApiGatewayEvent in H.
  apply try_catch_inv in H as [(a & H & _)|(e & evs1 & evs2 & H & HC & ->)].
  - apply (processRequest_adapter_failure _ _ _ _ _ _ K H) in I. discriminate.
  - apply ret_inv in HC as [HC ->]. rewrite app_nil_r in I.
    apply (processRequest_adapter_failure _ _ _ _ _ _ K H) in I.
    injection I as ->. injection HC as ->.
    now destruct (failure_kinds message [] K) as (_ & _ & S).
Qed.

End BackendFailures.

(** The two runs: the backend answers without a textual content item, and
    with prose in place of JSON. *)
Lemma backend_failures_same_status_witness :
  Bedrock.no_text_content <> Bedrock.parse_failure
  /\ (exists r evs,
        Handler.handleApiGatewayEvent Demo.empty_env Demo.salade_event []
        = (Return r, evs)
        /\ In (EvExtractRecipe Demo.salade_request
                 (Throw (Error Bedrock.no_text_content))) evs
        /\ statusCode r = 503%Z)
  /\ (exists r evs,
        Handler.handleApiGatewayEvent Demo.prose_env Demo.salade_event []
        = (Return r, evs)
        /\ In (EvExtractRecipe Demo.salade_request
                 (Throw (Error Bedrock.parse_failure))) evs
        /\ statusCode r = 503%Z).
Proof.
  split; [discriminate|]. split.
  - eexists _, _.
    match goal with
    | |- ?A /\ ?B /\ _ =>
        assert (R : A) by (vm_compute; reflexivity);
        assert (I : B) by (do 3 right; left; reflexivity)
    end.
    split; [exact R|]. split; [exact I|].
    exact (backend_failures_same_status Demo.empty_env _ _ _ _ _ _
             (or_introl eq_refl) R I).
  - eexists _, _.
    match goal with
    | |- ?A /\ ?B /\ _ =>
        assert (R : A) by (vm_compute; reflexivity);
        assert (I : B) by (do 3 right; left; reflexivity)
    end.
    split; [exact R|]. split; [exact I|].
    exact (backend_failures_same_status Demo.prose_env _ _ _ _ _ _
             (or_intror eq_refl) R I).
Defined.

(* ===================================================================== *)
(** ** The recipes the validator accepts *)
(* ===================================================================== *)

Section ValidatorShape.
Import RecipeModel ValidatorSpec RecipeShape.

Lemma missing_or_not_string v : missing_or_not TString v = negb (text v).
Proof. destruct v as [| |[]|[]|[|c s]|items extra|props]; reflexivity. Qed.

Lemma missing_or_not_number v :
  missing_or_not TNumber v = negb (nonzero_number v).
Proof.
  destruct v as [| |[]|[]|[|c s]|items extra|props]; reflexivity.
Qed.

Lemma not_a_number v : not_a TNumber v = negb (number v).
Proof. destruct v; reflexivity. Qed.

Lemma text_readable v k : text (field v k) = true -> readable v = true.
Proof.
  intros H. apply (field_defined v k). intros E. rewrite E in H. discriminate.
Qed.

Lemma ingredient_errors_nil v index :
  ingredient_errors v index = [] <-> ingredient v = true.
Proof.
  unfold ingredient_errors, ingredient.
  rewrite !missing_or_not_string, not_a_number.
  destruct (text (field v "name")), (number (field v "quantity")),
    (text (field v "unit")); simpl; split; congruence.
Qed.

Lemma step_errors_nil v index : step_errors v index = [] <-> step v = true.
Proof.
  unfold step_errors, step. rewrite missing_or_not_string, not_a_number.
  destruct (number (field v "order")), (text (field v "text")); simpl;
    split; congruence.
Qed.

Lemma each_errors_nil rule (p : value -> bool)
    (Hrule : forall v index, rule v index = [] <-> p v = true) items :
  forall index, each_errors rule items index = [] <-> forallb p items = true.
Proof.
  induction items as [|item rest IH]; intros index; simpl.
  - split; reflexivity.
  - rewrite andb_true_iff, <- Hrule, <- IH. split.
    + intros H. now apply app_eq_nil in H.
    + now intros [-> ->].
Qed.

Lemma checkIngredient_throws item index errs :
  readable item = false -> exists e, checkIngredient item index errs = Throw e.
Proof. destruct item; simpl; intros H; try discriminate; eexists; reflexivity. Qed.

Lemma checkStep_throws item index errs :
  readable item = false -> exists e, checkStep item index errs = Throw e.
Proof. destruct item; simpl; intros H; try discriminate; eexists; reflexivity. Qed.

Lemma checkIngredient_returns item index errs :
  readable item = true ->
  exists errs', checkIngredient item index errs = Return errs'.
Proof. intros R. eexists. now apply checkIngredient_errors. Qed.

Lemma checkStep_returns item index errs :
  readable item = true -> exists errs', checkStep item index errs = Return errs'.
Proof. intros R. eexists. now apply checkStep_errors. Qed.

(** The validator returns only when it could read every element. *)
Lemma validateRecipe_returned recipe res :
  truthy recipe = true ->
  validateRecipe recipe = Return res ->
  elements_readable recipe = true.
Proof.
  intros T. unfold validateRecipe, elements_readable. rewrite T. cbn [negb].
  pose proof (truthy_readable _ T) as R.
  rewrite !get_field by exact R. cbn [rbind].
  destruct (field recipe "ingredients") as [| | | | |items extra|] eqn:Hi;
    cbn [rbind andb].
  6:{ destruct (forallb readable items) eqn:Ri.
      2:{ destruct (forEach_throws checkIngredient checkIngredient_throws
                      checkIngredient_returns
                      items Ri 0
                      (push_if (missing_or_not TNumber (field recipe "servings"))
                         (js "Servings is required and must be a number")
                         (push_if (missing_or_not TString (field recipe "title"))
                            (js "Title is required and must be a string") [])))
            as [e ->].
          discriminate. }
      rewrite (forEach_errors _ _ checkIngredient_errors _ Ri). cbn [rbind andb].
      destruct (field recipe "steps") as [| | | | |items' extra'|] eqn:Hs;
        try reflexivity.
      destruct (forallb readable items') eqn:Rs; [reflexivity|].
      match goal with
      | |- context [forEach checkStep items' 0 ?errs] =>
          destruct (forEach_throws checkStep checkStep_throws
                      checkStep_returns
                      items' Rs 0 errs) as [e ->]
      end.
      discriminate. }
  all: destruct (field recipe "steps") as [| | | | |items' extra'|] eqn:Hs;
    try reflexivity;
    (destruct (forallb readable items') eqn:Rs; [reflexivity|]);
    match goal with
    | |- context [forEach checkStep items' 0 ?errs] =>
        destruct (forEach_throws checkStep checkStep_throws
                    checkStep_returns
                    items' Rs 0 errs) as [e ->]
    end;
    discriminate.
Qed.

Lemma all_errors_nil recipe :
  all_errors recipe = [] <-> conforms recipe = true.
Proof.
  unfold all_errors, conforms, title_errors, servings_errors,
    ingredients_errors, steps_errors, tags_errors.
  rewrite missing_or_not_string, missing_or_not_number.
  rewrite !andb_true_iff.
  assert (I : match field recipe "ingredients" with
              | JArr items _ => each_errors ingredient_errors items 0
              | _ => [js "Ingredients must be an array"]
              end = []
              <-> list_of ingredient (field recipe "ingredients") = true).
  { destruct (field recipe "ingredients"); simpl;
      try (split; discriminate).
    apply each_errors_nil, ingredient_errors_nil. }
  assert (S : match field recipe "steps" with
              | JArr items _ => each_errors step_errors items 0
              | _ => [js "Steps must be an array"]
              end = []
              <-> list_of step (field recipe "steps") = true).
  { destruct (field recipe "steps"); simpl; try (split; discriminate).
    apply each_errors_nil, step_errors_nil. }
  rewrite <- I, <- S. clear I S.
  generalize (match field recipe "ingredients" with
              | JArr items _ => each_errors ingredient_errors items 0
              | _ => [js "Ingredients must be an array"]
              end) as li.
  generalize (match field recipe "steps" with
              | JArr items _ => each_errors step_errors items 0
              | _ => [js "Steps must be an array"]
              end) as ls.
  intros ls li.
  destruct (text (field recipe "title")),
    (nonzero_number (field recipe "servings")),
    (isArray (field recipe "tags")), li, ls; simpl; split;
    intros H; try discriminate; try reflexivity;
    try (repeat split; reflexivity);
    destruct H as [[[[? ?] ?] ?] ?]; discriminate.
Qed.

Lemma conforms_readable recipe :
  conforms recipe = true ->
  truthy recipe = true /\ elements_readable recipe = true.
Proof.
  unfold conforms, elements_readable. rewrite !andb_true_iff.
  intros [[[[Ht _] Hi] Hs] _]. split.
  - apply (field_defined recipe "title"). intros E. rewrite E in Ht. discriminate.
  - split.
    + destruct (field recipe "ingredients"); try discriminate. simpl in Hi.
      rewrite forallb_forall in *. intros x Hx. specialize (Hi x Hx).
      unfold ingredient in Hi. rewrite !andb_true_iff in Hi.
      destruct Hi as [[Hn _] _]. exact (text_readable _ _ Hn).
    + destruct (field recipe "steps"); try discriminate. simpl in Hs.
      rewrite forallb_forall in *. intros x Hx. specialize (Hs x Hx).
      unfold step in Hs. rewrite !andb_true_iff in Hs.
      destruct Hs as [_ Hn]. exact (text_readable _ _ Hn).
Qed.

Lemma accepted_conforms recipe res :
  validateRecipe recipe = Return res -> valid res = true ->
  conforms recipe = true.
Proof.
  intros H V. destruct (truthy recipe) eqn:T.
  2:{ unfold validateRecipe in H. rewrite T in H. injection H as <-.
      discriminate. }
  pose proof (validateRecipe_returned _ _ T H) as E.
  rewrite (validateRecipe_returns _ T E) in H. injection H as <-.
  simpl in V. apply valid_flag in V. now apply all_errors_nil.
Qed.

Lemma conforms_accepted recipe :
  conforms recipe = true ->
  validateRecipe recipe = Return (mkValidation true []).
Proof.
  intros C. destruct (conforms_readable _ C) as [T E].
  rewrite (validateRecipe_returns _ T E).
  apply all_errors_nil in C. now rewrite C.
Qed.

(** X1.  [validateRecipe] answers [valid: true] exactly for the values with
    a non-empty string [title], a [servings] number other than 0 and NaN,
    an array [ingredients] of elements with non-empty strings [name] and
    [unit] and a number [quantity], an array [steps] of elements with a
    number [order] and a non-empty string [text], and an array [tags]; the
    elements of [tags] are not looked at. *)
Theorem validateRecipe_accepts_iff_conforms (recipe : value) :
  (exists res, validateRecipe recipe = Return res /\ valid res = true)
  <-> conforms recipe = true.
Proof.
  split.
  - intros (res & H & V). exact (accepted_conforms _ _ H V).
  - intros C. eexists. split; [exact (conforms_accepted _ C) | reflexivity].
Qed.

End ValidatorShape.

(* ===================================================================== *)
(** ** The adapter's defaults, applied twice and validated *)
(* ===================================================================== *)

Section DefaultsAgain.
Import RecipeModel ValidatorSpec AdapterSpec.
Variable env : Env.

Lemma pointwise_all (R : nat -> value -> value -> Prop) (p : value -> bool)
    (Hp : forall i x y, R i x y -> p y = true) xs :
  forall start ys, pointwise R start xs ys -> forallb p ys = true.
Proof.
  induction xs as [|x xs IH]; intros start [|y ys]; simpl; try tauto.
  intros [H1 H2]. rewrite (Hp _ _ _ H1). simpl. eapply IH; exact H2.
Qed.

Lemma defaulted_ingredient_readable (i : nat) ing out :
  defaulted_ingredient env ing out -> readable out = true.
Proof. now intros (s & _ & ->). Qed.

Lemma defaulted_step_readable (i : nat) step out :
  defaulted_step i step out -> readable out = true.
Proof. now intros ->. Qed.

(** What the adapter returns is an object whose arrays hold objects. *)
Lemma defaults_readable parsed r :
  Bedrock.applyDefaults env parsed = Return r ->
  truthy r = true /\ readable r = true /\ elements_readable r = true
  /\ truthy (field r "servings") = true /\ truthy (field r "tags") = true.
Proof.
  intros H. destruct (applyDefaults_spec env _ _ H) as (S & I & St & T).
  assert (TS : truthy (field r "servings") = true).
  { rewrite S. now apply or_else_truthy. }
  assert (TR : truthy r = true /\ readable r = true).
  { apply (field_defined r "servings"). intros E. rewrite E in TS.
    discriminate. }
  destruct TR as [TR R]. repeat split; try assumption.
  - unfold elements_readable. apply andb_true_iff. split.
    + destruct (field parsed "ingredients");
        try (rewrite I; reflexivity).
      destruct I as (items' & -> & P). unfold arr.
      exact (pointwise_all _ _ defaulted_ingredient_readable _ _ _ P).
    + destruct (field parsed "steps"); try (rewrite St; reflexivity).
      destruct St as (items' & -> & P). unfold arr.
      exact (pointwise_all _ _ defaulted_step_readable _ _ _ P).
  - rewrite T. destruct (truthy (field parsed "tags")) eqn:E;
      [exact E | reflexivity].
Qed.

(** X2.  The validator never throws on a recipe the adapter's defaults
    returned: it returns the errors of every rule. *)
Theorem validateRecipe_returns_on_defaults parsed r :
  Bedrock.applyDefaults env parsed = Return r ->
  exists res, validateRecipe r = Return res /\ errors res = all_errors r.
Proof.
  intros H. destruct (defaults_readable _ _ H) as (T & _ & E & _).
  eexists. split; [exact (validateRecipe_returns _ T E) | reflexivity].
Qed.

(** *** Applying the defaults to their own result *)

Lemma or_else_idem a d : or_else (or_else a d) d = or_else a d.
Proof.
  unfold or_else. destruct (truthy a) eqn:A; [now rewrite A|].
  now destruct (truthy d).
Qed.

Lemma assign_same k v props :
  lookup k props = v -> v <> JUndefined -> assign k v props = props.
Proof.
  intros L N. induction props as [|[k' v'] rest IH]; simpl in *.
  - congruence.
  - destruct (str_eqb k k'); [congruence | now rewrite IH].
Qed.

Lemma set_same toString (r : value) (k : string) (v : value) :
  field r k = v -> v <> JUndefined -> set toString r k v = Return r.
Proof.
  destruct r; unfold field; simpl; intros F N; try congruence;
    now rewrite assign_same.
Qed.

Lemma map_indexed_fixed f (R : nat -> value -> value -> Prop)
    (Hf : forall i x y, R i x y -> f y i = Return y) xs :
  forall start ys, pointwise R start xs ys -> map_indexed f ys start = Return ys.
Proof.
  induction xs as [|x xs IH]; intros start [|y ys]; simpl; try tauto.
  intros [H1 H2]. rewrite (Hf _ _ _ H1). simpl.
  now rewrite (IH _ _ H2).
Qed.

Hypothesis lower_idempotent :
  forall s, toLowerCase env (toLowerCase env s) = toLowerCase env s.

Lemma normalizeIngredient_fixed (i : nat) ing out :
  defaulted_ingredient env ing out ->
  Bedrock.normalizeIngredient env out i = Return out.
Proof.
  intros (s & _ & ->). unfold Bedrock.normalizeIngredient.
  change (get (obj [("name", field ing "name");
                    ("quantity", or_else (field ing "quantity") (num 1));
                    ("unit", JStr (toLowerCase env s))]) "name")
    with (Return (field ing "name")).
  change (get (obj [("name", field ing "name");
                    ("quantity", or_else (field ing "quantity") (num 1));
                    ("unit", JStr (toLowerCase env s))]) "quantity")
    with (Return (or_else (field ing "quantity") (num 1))).
  change (get (obj [("name", field ing "name");
                    ("quantity", or_else (field ing "quantity") (num 1));
                    ("unit", JStr (toLowerCase env s))]) "unit")
    with (Return (JStr (toLowerCase env s))).
  cbn [rbind]. rewrite or_else_idem.
  assert (U : or_else (JStr (toLowerCase env s)) (JStr [])
              = JStr (toLowerCase env s)).
  { unfold or_else. now destruct (toLowerCase env s). }
  rewrite U. cbn [rbind]. now rewrite lower_idempotent.
Qed.

Lemma normalizeStep_fixed i step out :
  defaulted_step i step out -> Bedrock.normalizeStep out i = Return out.
Proof.
  intros ->. unfold Bedrock.normalizeStep.
  change (get (obj [("order", or_else (field step "order") (num (Z.of_nat i + 1)));
                    ("text", field step "text")]) "order")
    with (Return (or_else (field step "order") (num (Z.of_nat i + 1)))).
  change (get (obj [("order", or_else (field step "order") (num (Z.of_nat i + 1)));
                    ("text", field step "text")]) "text")
    with (Return (field step "text")).
  cbn [rbind]. now rewrite or_else_idem.
Qed.

(** X3.  Applying the defaults to a recipe that already went through them
    changes nothing, as far as lower-casing a lower-cased unit changes
    nothing. *)
Theorem applyDefaults_idempotent parsed r :
  Bedrock.applyDefaults env parsed = Return r ->
  Bedrock.applyDefaults env r = Return r.
Proof.
  intros H. destruct (applyDefaults_spec env _ _ H) as (_ & I & St & _).
  destruct (defaults_readable _ _ H) as (_ & R & _ & TS & TT).
  unfold Bedrock.applyDefaults.
  rewrite get_field by exact R. cbn [rbind]. rewrite TS. cbn [negb rbind].
  rewrite get_field by exact R. cbn [rbind].
  assert (SI : match field r "ingredients" with
               | JArr items _ =>
                   items' <~ map_indexed (Bedrock.normalizeIngredient env) items 0 ;;
                   set (ToString env) r "ingredients" (arr items')
               | _ => Return r
               end = Return r).
  { destruct (field parsed "ingredients"); try (rewrite I; reflexivity).
    destruct I as (items' & E & P). rewrite E. unfold arr at 1.
    rewrite (map_indexed_fixed _ _ normalizeIngredient_fixed _ _ _ P).
    cbn [rbind]. apply set_same; [exact E | discriminate]. }
  rewrite SI. cbn [rbind]. rewrite get_field by exact R. cbn [rbind].
  assert (SS : match field r "steps" with
               | JArr items _ =>
                   items' <~ map_indexed Bedrock.normalizeStep items 0 ;;
                   set (ToString env) r "steps" (arr items')
               | _ => Return r
               end = Return r).
  { destruct (field parsed "steps"); try (rewrite St; reflexivity).
    destruct St as (items' & E & P). rewrite E. unfold arr at 1.
    rewrite (map_indexed_fixed _ _ normalizeStep_fixed _ _ _ P).
    cbn [rbind]. apply set_same; [exact E | discriminate]. }
  rewrite SS. cbn [rbind]. rewrite get_field by exact R. cbn [rbind].
  now rewrite TT.
Qed.

End DefaultsAgain.

Lemma ascii_lower_idempotent s :
  Demo.ascii_lower (Demo.ascii_lower s) = Demo.ascii_lower s.
Proof.
  unfold Demo.ascii_lower. rewrite map_map. apply map_ext. intros c.
  destruct ((65 <=? c)%N && (c <=? 90)%N) eqn:E; [|now rewrite E].
  apply andb_true_iff in E as [E1 E2]. apply N.leb_le in E1, E2.
  assert (F : ((65 <=? c + 32)%N && (c + 32 <=? 90)%N) = false).
  { apply andb_false_iff. right. apply N.leb_gt. lia. }
  now rewrite F.
Qed.

Lemma validateRecipe_returns_on_defaults_witness :
  exists r,
    Bedrock.applyDefaults Demo.tarte_env Demo.tarte_parsed = Return r
    /\ exists res, RecipeModel.validateRecipe r = Return res
                   /\ RecipeModel.errors res = ValidatorSpec.all_errors r.
Proof.
  eexists.
  match goal with
  | |- ?A /\ _ => assert (H : A) by (vm_compute; reflexivity)
  end.
  split; [exact H|].
  exact (validateRecipe_returns_on_defaults Demo.tarte_env _ _ H).
Defined.

Lemma applyDefaults_idempotent_witness :
  exists r,
    Bedrock.applyDefaults Demo.salade_env Demo.salade_parsed = Return r
    /\ Bedrock.applyDefaults Demo.salade_env r = Return r.
Proof.
  eexists.
  match goal with
  | |- ?A /\ _ => assert (H : A) by (vm_compute; reflexivity)
  end.
  split; [exact H|].
  exact (applyDefaults_idempotent Demo.salade_env ascii_lower_idempotent _ _ H).
Defined.

(* ===================================================================== *)
(** ** Runs of the services, event by event *)
(* ===================================================================== *)

Section ServiceRuns.
Import RecipeModel Caught Trace.
Variable env : Env.

Lemma catchExtract_run e h :
  Bedrock.catchExtract e h = (Throw (byAdapter e), []).
Proof.
  unfold Bedrock.catchExtract, byAdapter.
  destruct (str_eqb _ _); [reflexivity|]. now destruct (err_metadata e).
Qed.

Lemma catchSend_run e h :
  Lambda.catchSend env e h = (Throw (bySender env e), []).
Proof.
  unfold Lambda.catchSend, bySender.
  destruct (str_eqb _ _); [reflexivity|]. now destruct (str_eqb _ _).
Qed.

Lemma catchExtraction_run e h :
  Controller.catchExtraction e h = (Throw (byController e), []).
Proof.
  unfold Controller.catchExtraction, byController.
  destruct (includes _ _); [reflexivity|]. now destruct (includes _ _).
Qed.

(** A run of the adapter: the configuration is read, then the model is
    invoked once, unless the configuration or the text stops the run. *)
Lemma extractRecipe_run recipeText h :
  Bedrock.extractRecipe env recipeText h
  = let cfg := config_get env h (js "bedrock") (js "MODEL_ID") in
    let read := EvConfig (js "bedrock") (js "MODEL_ID") cfg in
    match cfg with
    | Throw e => (Throw e, [read; EvExtractRecipe recipeText (Throw e)])
    | Return None =>
        (Throw (not_a_function (js "modelId") JUndefined "includes"),
         [read; EvExtractRecipe recipeText
                  (Throw (not_a_function (js "modelId") JUndefined "includes"))])
    | Return (Some modelId) =>
        if refused recipeText then
          (Throw (Error (js "Recipe text is required and must be a string")),
           [read; EvExtractRecipe recipeText
                    (Throw (Error (js "Recipe text is required and must be a string")))])
        else
          let profile := Bedrock.inferenceProfile env modelId in
          let sent := bedrock_send env (h ++ [read]) profile
                        (Bedrock.payload recipeText) in
          let out := through byAdapter
                       (raw <~ sent ;; Bedrock.recipeOfResponse env raw) in
          (out, [read; EvBedrockSend profile (Bedrock.payload recipeText) sent;
                 EvExtractRecipe recipeText out])
    end.
Proof.
  unfold Bedrock.extractRecipe, observed, bind, call, refused. cbv zeta.
  destruct (config_get env h (js "bedrock") (js "MODEL_ID")) as [[modelId|]|e];
    try reflexivity.
  unfold ret at 1. cbn [app].
  destruct (negb (truthy recipeText) || _); [reflexivity|].
  unfold try_catch, lift. rewrite !app_nil_r.
  destruct (bedrock_send env _ _ _) as [raw|e]; cbn [rbind through].
  - destruct (Bedrock.recipeOfResponse env raw) as [r|e]; [reflexivity|].
    rewrite catchExtract_run. reflexivity.
  - rewrite catchExtract_run. reflexivity.
Qed.

(** A run of the submission: one invocation, never a second one. *)
Lemma sendRecipeToAPI_run recipe h :
  Lambda.sendRecipeToAPI env recipe h
  = let sent := lambda_send env h (Lambda.lambdaName env) (submission env recipe) in
    let out := through (bySender env)
                 (response <~ sent ;; Lambda.responseOfInvocation env response) in
    (out, [EvLambdaSend (Lambda.lambdaName env) (submission env recipe) sent;
           EvSendRecipe recipe out]).
Proof.
  unfold Lambda.sendRecipeToAPI, observed, try_catch, bind, call, lift, submission.
  cbv zeta.
  destruct (lambda_send env h _ _) as [response|e]; cbn [rbind through].
  - destruct (Lambda.responseOfInvocation env response) as [v|e];
      [reflexivity|].
    rewrite catchSend_run. reflexivity.
  - rewrite catchSend_run. reflexivity.
Qed.

End ServiceRuns.

Section ControllerSteps.
Import RecipeModel Caught Outcome Trace.
Variable env : Env.

(** The [try] block of the controller, service call by service call. *)
Lemma attempt_run modelId recipeText h :
  Controller.attempt env modelId recipeText h
  = let (extracted, evsA) := Bedrock.extractRecipe env recipeText h in
    match extracted with
    | Throw e => (Throw e, evsA)
    | Return r =>
        match validateRecipe r with
        | Throw e => (Throw e, evsA)
        | Return v =>
            if valid v then
              let (sent, evsS) := Lambda.sendRecipeToAPI env r (h ++ evsA) in
              let iso := clock env (h ++ evsA ++ evsS) in
              (Return (Controller.extraction r (apiResponseOf sent) iso modelId),
               evsA ++ evsS ++ [EvClock iso])
            else (Throw (refusal v), evsA)
        end
    end.
Proof.
  unfold Controller.attempt, bind at 1.
  destruct (Bedrock.extractRecipe env recipeText h) as [[r|e] evsA];
    [|reflexivity].
  unfold bind at 1, lift at 1.
  destruct (validateRecipe r) as [v|e]; [|now rewrite app_nil_r].
  rewrite !app_nil_r.
  destruct (valid v); cbn [negb]; [|unfold throw; now rewrite app_nil_r].
  unfold bind, try_catch, now, ret.
  destruct (Lambda.sendRecipeToAPI env r (h ++ evsA)) as [[api|e] evsS];
    cbn [apiResponseOf]; rewrite ?app_nil_r, <- ?app_assoc; reflexivity.
Qed.

Lemma extractRecipeFromText_run recipeText h :
  Controller.extractRecipeFromText env recipeText h
  = let cfg := config_get env h (js "bedrock") (js "MODEL_ID") in
    let read := EvConfig (js "bedrock") (js "MODEL_ID") cfg in
    match cfg with
    | Throw e => (Throw e, [read])
    | Return modelId =>
        if Controller.blank recipeText then
          (Throw (Error (js "Recipe text is required and cannot be empty")),
           [read])
        else
          let (out, evs) := Controller.attempt env modelId recipeText
                              (h ++ [read]) in
          (through byController out, read :: evs)
    end.
Proof.
  unfold Controller.extractRecipeFromText, bind, call. cbv zeta.
  destruct (config_get env h (js "bedrock") (js "MODEL_ID")) as [modelId|e];
    [|reflexivity].
  destruct (Controller.blank recipeText); [reflexivity|].
  unfold try_catch.
  destruct (Controller.attempt env modelId recipeText _) as [[a|e] evs];
    [reflexivity|].
  rewrite catchExtraction_run. cbn [through app]. now rewrite app_nil_r.
Qed.

Lemma extractRecipe_completion recipeText h extracted evsA :
  Bedrock.extractRecipe env recipeText h = (extracted, evsA) ->
  forall t o, In (EvExtractRecipe t o) evsA -> o = extracted.
Proof.
  rewrite extractRecipe_run. cbv zeta.
  destruct (config_get env h _ _) as [[modelId|]|e];
    [destruct (refused recipeText)| |];
    intros H; injection H as <- <-; intros t o I; simpl in I;
    repeat match goal with
           | I : _ \/ _ |- _ => destruct I as [I|I]
           | I : False |- _ => destruct I
           | I : EvExtractRecipe _ _ = EvExtractRecipe _ _ |- _ =>
               injection I as _ <-; reflexivity
           | I : _ = EvExtractRecipe _ _ |- _ => discriminate I
           end.
Qed.

Lemma sendRecipeToAPI_no_completion recipe h sent evsS t o :
  Lambda.sendRecipeToAPI env recipe h = (sent, evsS) ->
  ~ In (EvExtractRecipe t o) evsS.
Proof.
  rewrite sendRecipeToAPI_run. cbv zeta. intros H; injection H as <- <-.
  intros I; simpl in I.
  repeat (destruct I as [I|I]; try discriminate). exact I.
Qed.

(** The outcome of the controller follows from the outcome of the adapter,
    as the trace shows it. *)
Lemma extractRecipeFromText_follows recipeText h out evs t extracted :
  Controller.extractRecipeFromText env recipeText h = (out, evs) ->
  In (EvExtractRecipe t extracted) evs ->
  follows out extracted.
Proof.
  rewrite extractRecipeFromText_run. cbv zeta.
  destruct (config_get env h _ _) as [modelId|e].
  2:{ intros H; injection H as <- <-. intros [I|[]]. discriminate. }
  destruct (Controller.blank recipeText).
  { intros H; injection H as <- <-. intros [I|[]]. discriminate. }
  rewrite attempt_run.
  destruct (Bedrock.extractRecipe env recipeText _) as [extracted' evsA] eqn:A.
  pose proof (extractRecipe_completion _ _ _ _ A) as C.
  destruct extracted' as [r|e].
  - destruct (validateRecipe r) as [v|e] eqn:V.
    + destruct (valid v) eqn:Val.
      * destruct (Lambda.sendRecipeToAPI env r _) as [sent evsS] eqn:S.
        intros H; injection H as <- <-. intros [I|I]; [discriminate|].
        rewrite !in_app_iff in I. destruct I as [I|[I|[I|[]]]];
          try discriminate.
        -- rewrite (C _ _ I). unfold follows. rewrite V, Val. eauto.
        -- exfalso. exact (sendRecipeToAPI_no_completion _ _ _ _ _ _ S I).
      * intros H; injection H as <- <-. intros [I|I]; [discriminate|].
        rewrite (C _ _ I). unfold follows. now rewrite V, Val.
    + intros H; injection H as <- <-. intros [I|I]; [discriminate|].
      rewrite (C _ _ I). unfold follows. now rewrite V.
  - intros H; injection H as <- <-. intros [I|I]; [discriminate|].
    rewrite (C _ _ I). reflexivity.
Qed.

End ControllerSteps.

(* ===================================================================== *)
(** ** Direct requests *)
(* ===================================================================== *)

Section DirectRequests.
Import RecipeModel Caught Outcome Trace Requests.
Variable env : Env.

Lemma processRequest_text event t h :
  textOf env event = Some t ->
  Handler.processRequest env event h = Handler.handleTextExtraction env t h.
Proof.
  unfold textOf, Handler.processRequest.
  destruct (Handler.requestBody env event) as [body|e]; [|discriminate].
  destruct (truthy body) eqn:T; [|discriminate]. cbn [negb andb].
  pose proof (truthy_readable _ T) as R.
  destruct (truthy (field body "url")) eqn:U; [discriminate|]. cbn [negb andb].
  destruct (truthy (field body "recipeText")) eqn:X; [|discriminate].
  intros H; injection H as <-.
  cbn [negb]. unfold bind at 1, lift at 1.
  rewrite get_field by exact R. rewrite U.
  unfold bind at 1, lift at 1.
  rewrite get_field by exact R. rewrite X, !app_nil_r.
  destruct (Handler.handleTextExtraction env _ h). reflexivity.
Qed.

Lemma processRequest_url event url h :
  urlOf env event = Some url ->
  Handler.processRequest env event h = Handler.handleUrlExtraction env url h.
Proof.
  unfold urlOf, Handler.processRequest.
  destruct (Handler.requestBody env event) as [body|e]; [|discriminate].
  destruct (truthy body) eqn:T; [|discriminate]. cbn [negb andb].
  pose proof (truthy_readable _ T) as R.
  destruct (truthy (field body "url")) eqn:U; [|discriminate].
  intros H; injection H as <-.
  cbn [negb]. unfold bind at 1, lift at 1.
  rewrite get_field by exact R. rewrite U, !app_nil_r.
  destruct (Handler.handleUrlExtraction env _ h). reflexivity.
Qed.

(** The text path: the response is made of the outcome of the controller. *)
Lemma text_path_run event t h :
  textOf env event = Some t ->
  Handler.handleApiGatewayEvent env event h
  = if length_gt env t 50000 then
      (Return (errorResponse env
                 (js "Recipe text too long (max 50000 characters)") 400 []), [])
    else
      let (out, evs) := Controller.extractRecipeFromText env t h in
      (Return (match out with
               | Return result => successResponse env result 200
               | Throw e => Handler.apiErrorResponse env e
               end), evs).
Proof.
  intros T. unfold Handler.handleApiGatewayEvent, try_catch.
  rewrite (processRequest_text _ _ _ T).
  unfold Handler.handleTextExtraction.
  destruct (length_gt env t 50000); [reflexivity|].
  unfold bind.
  destruct (Controller.extractRecipeFromText env t h) as [[result|e] evs];
    unfold ret; now rewrite app_nil_r.
Qed.

End DirectRequests.

(* ===================================================================== *)
(** ** Substrings *)
(* ===================================================================== *)

Section Substrings.
Import Chars.

Lemma prefixb_app n a b : prefixb n a = true -> prefixb n (a ++ b) = true.
Proof.
  revert a; induction n as [|x n IH]; intros [|y a]; simpl; try congruence.
  intros H. apply andb_true_iff in H as [-> H]. simpl. now apply IH.
Qed.

Lemma includes_app_l a b n : includes a n = true -> includes (a ++ b) n = true.
Proof.
  induction a as [|y a IH]; simpl.
  - rewrite orb_false_r. destruct n; [|discriminate]. intros _.
    destruct b; reflexivity.
  - intros H. apply orb_true_iff in H as [H|H].
    + change (y :: a ++ b) with ((y :: a) ++ b).
      now rewrite (prefixb_app _ _ _ H).
    + rewrite (IH H). apply orb_true_r.
Qed.

Lemma includes_lacks c n s : lacks c s = true -> includes s (c :: n) = false.
Proof.
  induction s as [|x s IH]; simpl; [reflexivity|].
  intros H. apply andb_true_iff in H as [H1 H2].
  rewrite (IH H2), orb_false_r.
  apply negb_true_iff in H1. rewrite N.eqb_sym, H1. reflexivity.
Qed.

Lemma lacks_app c a b : lacks c (a ++ b) = lacks c a && lacks c b.
Proof. apply forallb_app. Qed.

Lemma lacks_join c sep l :
  lacks c sep = true -> forallb (lacks c) l = true ->
  lacks c (join sep l) = true.
Proof.
  intros S. induction l as [|x l IH]; [reflexivity|].
  cbn [forallb]. intros H. apply andb_true_iff in H as [H1 H2].
  destruct l as [|y l]; [exact H1|].
  change (join sep (x :: y :: l)) with (x ++ sep ++ join sep (y :: l)).
  rewrite !lacks_app, H1, S, (IH H2). reflexivity.
Qed.

(** An index is written with digits. *)
Lemma lacks_index n : lacks 66 (string_of_index n) = true.
Proof.
  unfold string_of_index. generalize (Nat.to_uint n) as d.
  induction d; simpl; try reflexivity; exact IHd.
Qed.

End Substrings.

Section MessagesOfTheValidator.
Import RecipeModel ValidatorSpec Chars.

Lemma lacks_each rule
    (Hrule : forall v index, forallb (lacks 66) (rule v index) = true) items :
  forall index, forallb (lacks 66) (each_errors rule items index) = true.
Proof.
  induction items as [|item rest IH]; intros index; simpl; [reflexivity|].
  now rewrite forallb_app, Hrule, IH.
Qed.

Lemma lacks_ingredient_errors v index :
  forallb (lacks 66) (ingredient_errors v index) = true.
Proof.
  unfold ingredient_errors, ingredient_name_msg, ingredient_quantity_msg,
    ingredient_unit_msg.
  destruct (missing_or_not TString (field v "name")),
    (not_a TNumber (field v "quantity")),
    (missing_or_not TString (field v "unit")); cbn [app forallb];
    rewrite ?lacks_app, ?lacks_index; reflexivity.
Qed.

Lemma lacks_step_errors v index :
  forallb (lacks 66) (step_errors v index) = true.
Proof.
  unfold step_errors, step_order_msg, step_text_msg.
  destruct (not_a TNumber (field v "order")),
    (missing_or_not TString (field v "text")); cbn [app forallb];
    rewrite ?lacks_app, ?lacks_index; reflexivity.
Qed.

(** No message of the validator holds a capital B. *)
Lemma lacks_all_errors recipe : forallb (lacks 66) (all_errors recipe) = true.
Proof.
  unfold all_errors, title_errors, servings_errors, ingredients_errors,
    steps_errors, tags_errors.
  rewrite !forallb_app.
  repeat (apply andb_true_iff; split).
  - now destruct (missing_or_not _ _).
  - now destruct (missing_or_not _ _).
  - destruct (field recipe "ingredients"); try reflexivity.
    apply lacks_each, lacks_ingredient_errors.
  - destruct (field recipe "steps"); try reflexivity.
    apply lacks_each, lacks_step_errors.
  - now destruct (isArray _).
Qed.

Lemma lacks_errors recipe v :
  validateRecipe recipe = Return v -> forallb (lacks 66) (errors v) = true.
Proof.
  intros H. destruct (truthy recipe) eqn:T.
  - pose proof (validateRecipe_returned _ _ T H) as E.
    rewrite (validateRecipe_returns _ T E) in H. injection H as <-.
    apply lacks_all_errors.
  - unfold validateRecipe in H. rewrite T in H. injection H as <-.
    reflexivity.
Qed.

(** A refusal of the validator is answered 422, whatever it lists. *)
Lemma refusal_status env recipe v :
  validateRecipe recipe = Return v ->
  statusCode (Handler.apiErrorResponse env
                (Caught.byController (Outcome.refusal v))) = 422%Z.
Proof.
  intros H. unfold Caught.byController, Outcome.refusal. cbn [err_message Error].
  assert (B : includes (js "Invalid recipe format: " ++ join (js ", ") (errors v))
                (js "Bedrock") = false).
  { change (js "Bedrock") with (66%N :: js "edrock").
    apply includes_lacks. rewrite lacks_app. apply andb_true_iff.
    split; [reflexivity|].
    apply lacks_join; [reflexivity | exact (lacks_errors _ _ H)]. }
  rewrite B.
  destruct (includes _ (js "parse")) eqn:P; [reflexivity|].
  unfold Handler.apiErrorResponse. cbv zeta. cbn [err_message Error].
  rewrite B, P. cbn [orb].
  rewrite (includes_app_l (js "Invalid recipe format: ") _ (js "Invalid recipe")
             eq_refl).
  reflexivity.
Qed.

End MessagesOfTheValidator.

(* ===================================================================== *)
(** ** The text path, outcome by outcome *)
(* ===================================================================== *)

Section TextPath.
Import RecipeModel Caught Outcome Trace Requests Events.
Variable env : Env.

(** The events of a run of the controller: the configuration is read, the
    adapter runs, and what follows belongs to the submission. *)
Lemma extractRecipeFromText_events recipeText h out evs :
  Controller.extractRecipeFromText env recipeText h = (out, evs) ->
  exists read,
    ofConfig read
    /\ (evs = [read]
        \/ exists extracted evsA rest,
             Bedrock.extractRecipe env recipeText (h ++ [read])
             = (extracted, evsA)
             /\ evs = read :: evsA ++ rest
             /\ Forall downstream rest).
Proof.
  rewrite extractRecipeFromText_run. cbv zeta. intros H.
  exists (EvConfig (js "bedrock") (js "MODEL_ID")
            (config_get env h (js "bedrock") (js "MODEL_ID"))).
  split; [exact I|].
  destruct (config_get env h _ _) as [modelId|e].
  2:{ injection H as <- <-. now left. }
  destruct (Controller.blank recipeText).
  { injection H as <- <-. now left. }
  right. rewrite attempt_run in H.
  destruct (Bedrock.extractRecipe env recipeText _) as [extracted evsA].
  exists extracted, evsA.
  destruct extracted as [r|e].
  - destruct (validateRecipe r) as [v|e].
    + destruct (valid v).
      * rewrite sendRecipeToAPI_run in H. cbv zeta in H.
        injection H as <- <-. eexists. split; [reflexivity|].
        split; [reflexivity|]. repeat constructor.
      * injection H as <- <-. exists []. now rewrite app_nil_r.
    + injection H as <- <-. exists []. now rewrite app_nil_r.
  - injection H as <- <-. exists []. now rewrite app_nil_r.
Qed.

(** When the trace shows the invocation of the model failing with [e], the
    controller throws what the two [catch] blocks make of [e]. *)
Lemma extractRecipeFromText_send_failure recipeText h out evs id p e :
  Controller.extractRecipeFromText env recipeText h = (out, evs) ->
  In (EvBedrockSend id p (Throw e)) evs ->
  out = Throw (byController (byAdapter e)).
Proof.
  intros H I.
  destruct (extractRecipeFromText_events _ _ _ _ H)
    as (read & C & [->|(extracted & evsA & rest & A & -> & D)]).
  { destruct I as [E|[]]. rewrite E in C. destruct C. }
  assert (J : In (EvBedrockSend id p (Throw e)) evsA).
  { destruct I as [E|I]; [rewrite E in C; destruct C|].
    apply in_app_iff in I as [I|I]; [exact I|].
    exfalso. exact (Forall_In_absurd _ _ _ D I (fun x => x)). }
  assert (F : follows out extracted).
  { apply (extractRecipeFromText_follows env _ _ _ _ recipeText _ H).
    right. apply in_app_iff. left.
    rewrite extractRecipe_run in A. cbv zeta in A.
    destruct (config_get env _ _ _) as [[modelId|]|e'];
      [destruct (refused recipeText)| |];
      injection A as <- <-; simpl; auto. }
  rewrite extractRecipe_run in A. cbv zeta in A.
  destruct (config_get env _ _ _) as [[modelId|]|e'];
    [destruct (refused recipeText)| |];
    injection A as <- <-; simpl in J;
    repeat match goal with
           | J : _ \/ _ |- _ => destruct J as [J|J]
           | J : False |- _ => destruct J
           | J : _ = EvBedrockSend _ _ _ |- _ =>
               first [discriminate J | injection J as _ _ J]
           end.
  rewrite J in F. exact F.
Qed.

(** X4.  On the text path, a recipe the adapter returned and the validator
    refuses is answered 422. *)
Theorem refused_recipe_is_unprocessable event t h r evs t' recipe v :
  textOf env event = Some t ->
  Handler.handleApiGatewayEvent env event h = (Return r, evs) ->
  In (EvExtractRecipe t' (Return recipe)) evs ->
  validateRecipe recipe = Return v ->
  valid v = false ->
  statusCode r = 422%Z.
Proof.
  intros T H I V Val. rewrite (text_path_run _ _ _ _ T) in H.
  destruct (length_gt env t 50000).
  { injection H as _ <-. destruct I. }
  destruct (Controller.extractRecipeFromText env t h) as [out evs0] eqn:C.
  injection H as <- <-.
  pose proof (extractRecipeFromText_follows _ _ _ _ _ _ _ C I) as F.
  unfold follows in F. rewrite V, Val in F. subst out.
  exact (refusal_status env _ _ V).
Qed.

(** X5.  On the text path, a recipe the adapter returned and the validator
    accepts is answered 200 with the recipe, whatever became of its
    submission. *)
Theorem accepted_recipe_is_returned event t h r evs t' recipe v :
  textOf env event = Some t ->
  Handler.handleApiGatewayEvent env event h = (Return r, evs) ->
  In (EvExtractRecipe t' (Return recipe)) evs ->
  validateRecipe recipe = Return v ->
  valid v = true ->
  exists apiResponse extractedAt modelId,
    r = successResponse env
          (Controller.extraction recipe apiResponse extractedAt modelId) 200.
Proof.
  intros T H I V Val. rewrite (text_path_run _ _ _ _ T) in H.
  destruct (length_gt env t 50000).
  { injection H as _ <-. destruct I. }
  destruct (Controller.extractRecipeFromText env t h) as [out evs0] eqn:C.
  injection H as <- <-.
  pose proof (extractRecipeFromText_follows _ _ _ _ _ _ _ C I) as F.
  unfold follows in F. rewrite V, Val in F.
  destruct F as (api & iso & modelId & ->). now exists api, iso, modelId.
Qed.

Lemma service_error_status e :
  err_metadata e = true ->
  statusCode (Handler.apiErrorResponse env (byController (byAdapter e)))
  = 503%Z.
Proof.
  intros M. unfold byAdapter. rewrite M.
  assert (S : forall m, includes m (js "Bedrock") = true ->
                statusCode (Handler.apiErrorResponse env (byController (Error m)))
                = 503%Z).
  { intros m B. unfold byController. cbn [err_message Error]. rewrite B.
    unfold Handler.apiErrorResponse. cbv zeta. cbn [err_message Error].
    now rewrite (includes_app_l (js "Bedrock service error: ") m (js "Bedrock")
                   eq_refl). }
  destruct (str_eqb _ _); apply S; [reflexivity|].
  now apply includes_app_l.
Qed.

(** X6.  On the text path, an invocation of the model that the SDK reports
    as a service error (an error carrying [$metadata]) is answered 503. *)
Theorem model_failure_is_unavailable event t h r evs id p e :
  textOf env event = Some t ->
  Handler.handleApiGatewayEvent env event h = (Return r, evs) ->
  In (EvBedrockSend id p (Throw e)) evs ->
  err_metadata e = true ->
  statusCode r = 503%Z.
Proof.
  intros T H I M. rewrite (text_path_run _ _ _ _ T) in H.
  destruct (length_gt env t 50000).
  { injection H as _ <-. destruct I. }
  destruct (Controller.extractRecipeFromText env t h) as [out evs0] eqn:C.
  injection H as <- <-.
  rewrite (extractRecipeFromText_send_failure _ _ _ _ _ _ _ C I).
  now apply service_error_status.
Qed.

(** X7.  On the text path, a text of white space only is answered 400 once
    the configuration is read, and neither the model nor the downstream
    API is called. *)
Theorem blank_text_is_rejected event s h modelId :
  textOf env event = Some (JStr s) ->
  trim s = [] ->
  config_get env h (js "bedrock") (js "MODEL_ID") = Return modelId ->
  exists r evs,
    Handler.handleApiGatewayEvent env event h = (Return r, evs)
    /\ statusCode r = 400%Z
    /\ Forall ofConfig evs.
Proof.
  intros T B G. rewrite (text_path_run _ _ _ _ T).
  destruct (length_gt env (JStr s) 50000).
  { eexists. eexists. split; [reflexivity|]. split; [reflexivity|]. constructor. }
  rewrite extractRecipeFromText_run. cbv zeta. rewrite G.
  unfold Controller.blank. rewrite B.
  eexists. eexists. split; [reflexivity|]. split; [reflexivity|].
  repeat constructor.
Qed.

End TextPath.

Section TextPathWitnesses.
Import RecipeModel Requests Events.

Lemma refused_recipe_is_unprocessable_witness :
  exists r evs recipe v,
    textOf Demo.tarte_env Cases.tarte_event = Some Demo.tarte_request
    /\ Handler.handleApiGatewayEvent Demo.tarte_env Cases.tarte_event []
       = (Return r, evs)
    /\ In (EvExtractRecipe Demo.tarte_request (Return recipe)) evs
    /\ validateRecipe recipe = Return v
    /\ valid v = false
    /\ statusCode r = 422%Z.
Proof.
  eexists. eexists. eexists. eexists.
  match goal with
  | |- ?A /\ ?B /\ ?C /\ ?D /\ ?E /\ _ =>
      assert (T : A) by (vm_compute; reflexivity);
      assert (R : B) by (vm_compute; reflexivity);
      assert (I : C) by (do 3 right; left; reflexivity);
      assert (V : D) by (vm_compute; reflexivity);
      assert (F : E) by reflexivity
  end.
  repeat (split; [assumption|]).
  exact (refused_recipe_is_unprocessable _ _ _ _ _ _ _ _ _ T R I V F).
Defined.

Lemma accepted_recipe_is_returned_witness :
  exists r evs recipe v,
    textOf Demo.salade_env Demo.salade_event = Some Demo.salade_request
    /\ Handler.handleApiGatewayEvent Demo.salade_env Demo.salade_event []
       = (Return r, evs)
    /\ In (EvExtractRecipe Demo.salade_request (Return recipe)) evs
    /\ validateRecipe recipe = Return v
    /\ valid v = true
    /\ exists apiResponse extractedAt modelId,
         r = successResponse Demo.salade_env
               (Controller.extraction recipe apiResponse extractedAt modelId)
               200.
Proof.
  eexists. eexists. eexists. eexists.
  match goal with
  | |- ?A /\ ?B /\ ?C /\ ?D /\ ?E /\ _ =>
      assert (T : A) by (vm_compute; reflexivity);
      assert (R : B) by (vm_compute; reflexivity);
      assert (I : C) by (do 3 right; left; reflexivity);
      assert (V : D) by (vm_compute; reflexivity);
      assert (F : E) by reflexivity
  end.
  repeat (split; [assumption|]).
  exact (accepted_recipe_is_returned _ _ _ _ _ _ _ _ _ T R I V F).
Defined.

Lemma model_failure_is_unavailable_witness :
  exists r evs id p e,
    textOf Demo.down_env Demo.salade_event = Some Demo.salade_request
    /\ Handler.handleApiGatewayEvent Demo.down_env Demo.salade_event []
       = (Return r, evs)
    /\ In (EvBedrockSend id p (Throw e)) evs
    /\ err_metadata e = true
    /\ statusCode r = 503%Z.
Proof.
  eexists. eexists. eexists. eexists. eexists.
  match goal with
  | |- ?A /\ ?B /\ ?C /\ ?D /\ _ =>
      assert (T : A) by (vm_compute; reflexivity);
      assert (R : B) by (vm_compute; reflexivity);
      assert (I : C) by (do 2 right; left; reflexivity);
      assert (M : D) by reflexivity
  end.
  repeat (split; [assumption|]).
  exact (model_failure_is_unavailable _ _ _ _ _ _ _ _ _ T R I M).
Defined.

Lemma blank_text_is_rejected_witness :
  textOf Demo.salade_env Cases.blank_event = Some (str "   ")
  /\ trim (js "   ") = []
  /\ exists r evs,
       Handler.handleApiGatewayEvent Demo.salade_env Cases.blank_event []
       = (Return r, evs)
       /\ statusCode r = 400%Z
       /\ Forall ofConfig evs.
Proof.
  assert (T : textOf Demo.salade_env Cases.blank_event = Some (str "   "))
    by (vm_compute; reflexivity).
  assert (B : trim (js "   ") = []) by (vm_compute; reflexivity).
  split; [exact T|]. split; [exact B|].
  exact (blank_text_is_rejected Demo.salade_env Cases.blank_event (js "   ") []
           Demo.claude T B eq_refl).
Defined.

End TextPathWitnesses.

(* ===================================================================== *)
(** ** The URL path *)
(* ===================================================================== *)

Section UrlPathRuns.
Import RecipeModel Caught Outcome Trace Requests UrlPath.
Variable env : Env.

(** The URL path, call by call. *)
Lemma url_path_run event url h :
  urlOf env event = Some url ->
  Handler.handleApiGatewayEvent env event h
  = if WebpageService.isValidUrl env url then
      let fetched := http_fetch env h url in
      match fetched with
      | Throw e => (Return (failed env e), [EvFetch url fetched])
      | Return html =>
          let text := Webpage.extractTextFromHtml html in
          if Controller.blank (JStr text) then
            (Return (errorResponse env (js "No text content found at URL") 422 []),
             [EvFetch url fetched])
          else
            let (out, evs) :=
              Controller.extractRecipeFromText env (JStr (textToProcess text))
                (h ++ [EvFetch url fetched]) in
            (Return (match out with
                     | Return result =>
                         LengthSpec.url_success env url text result
                     | Throw e => failed env e
                     end), EvFetch url fetched :: evs)
      end
    else (Return (errorResponse env (js "Invalid URL format") 400 []), []).
Proof.
  intros U. unfold Handler.handleApiGatewayEvent.
  unfold try_catch at 1. rewrite (processRequest_url _ _ _ _ U).
  unfold Handler.handleUrlExtraction.
  destruct (WebpageService.isValidUrl env url); [|reflexivity]. cbn [negb].
  unfold try_catch, bind at 1, WebpageService.fetchAndExtractWebpage,
    bind at 1, call. cbv zeta.
  destruct (http_fetch env h url) as [html|e].
  - unfold ret at 1. cbn [WebpageService.wc_text]. rewrite !app_nil_r.
    destruct (Controller.blank _); [reflexivity|].
    unfold bind. fold (textToProcess (Webpage.extractTextFromHtml html)).
    destruct (Controller.extractRecipeFromText env _ _) as [[result|e] evs].
    + unfold ret. now rewrite !app_nil_r.
    + unfold failed, fetchFailure.
      destruct (includes _ _ || includes _ _); unfold ret, throw;
        now rewrite !app_nil_r.
  - unfold failed, fetchFailure.
    destruct (includes _ _ || includes _ _); unfold ret, throw;
      now rewrite !app_nil_r.
Qed.

(** X8.  When the page cannot be fetched, the model is not called; the
    answer is 502 if the message of the failure mentions a fetch or a
    timeout, and what the outer [catch] block makes of the failure
    otherwise. *)
Theorem fetch_failure_stops_the_request event url h e :
  urlOf env event = Some url ->
  WebpageService.isValidUrl env url = true ->
  http_fetch env h url = Throw e ->
  Handler.handleApiGatewayEvent env event h
  = (Return (if fetchFailure e
             then errorResponse env (js "Failed to fetch webpage") 502
                    [err_message e]
             else Handler.apiErrorResponse env e),
     [EvFetch url (Throw e)]).
Proof.
  intros U V F. rewrite (url_path_run _ _ _ U), V. cbv zeta. now rewrite F.
Qed.

(** X9.  A page without any text is answered 422, and the model is not
    called. *)
Theorem blank_page_is_unprocessable event url h html :
  urlOf env event = Some url ->
  WebpageService.isValidUrl env url = true ->
  http_fetch env h url = Return html ->
  trim (Webpage.extractTextFromHtml html) = [] ->
  Handler.handleApiGatewayEvent env event h
  = (Return (errorResponse env (js "No text content found at URL") 422 []),
     [EvFetch url (Return html)]).
Proof.
  intros U V F B. rewrite (url_path_run _ _ _ U), V. cbv zeta. rewrite F.
  unfold Controller.blank. now rewrite B.
Qed.

End UrlPathRuns.

Section UrlPathWitnesses.
Import Requests UrlPath.

Lemma fetch_failure_stops_the_request_witness :
  urlOf Demo.salade_env LengthSpec.url_event = Some Cases.salade_url
  /\ WebpageService.isValidUrl Demo.salade_env Cases.salade_url = true
  /\ exists r,
       Handler.handleApiGatewayEvent Demo.salade_env LengthSpec.url_event []
       = (Return r, [EvFetch Cases.salade_url Demo.no_page])
       /\ statusCode r = 502%Z.
Proof.
  assert (U : urlOf Demo.salade_env LengthSpec.url_event = Some Cases.salade_url)
    by (vm_compute; reflexivity).
  assert (V : WebpageService.isValidUrl Demo.salade_env Cases.salade_url = true)
    by (vm_compute; reflexivity).
  split; [exact U|]. split; [exact V|].
  eexists. split.
  - exact (fetch_failure_stops_the_request Demo.salade_env LengthSpec.url_event
             Cases.salade_url []
             (Error (js "Failed to fetch webpage: getaddrinfo ENOTFOUND"))
             U V eq_refl).
  - reflexivity.
Defined.

Lemma blank_page_is_unprocessable_witness :
  urlOf Cases.script_env LengthSpec.url_event = Some Cases.salade_url
  /\ WebpageService.isValidUrl Cases.script_env Cases.salade_url = true
  /\ trim (Webpage.extractTextFromHtml Cases.script_page) = []
  /\ Handler.handleApiGatewayEvent Cases.script_env LengthSpec.url_event []
     = (Return (errorResponse Cases.script_env
                  (js "No text content found at URL") 422 []),
        [EvFetch Cases.salade_url (Return Cases.script_page)]).
Proof.
  assert (U : urlOf Cases.script_env LengthSpec.url_event = Some Cases.salade_url)
    by (vm_compute; reflexivity).
  assert (V : WebpageService.isValidUrl Cases.script_env Cases.salade_url = true)
    by (vm_compute; reflexivity).
  assert (B : trim (Webpage.extractTextFromHtml Cases.script_page) = [])
    by (vm_compute; reflexivity).
  split; [exact U|]. split; [exact V|]. split; [exact B|].
  exact (blank_page_is_unprocessable Cases.script_env LengthSpec.url_event
           Cases.salade_url [] Cases.script_page U V eq_refl B).
Defined.

End UrlPathWitnesses.

(* ===================================================================== *)
(** ** Requests turned down before any call *)
(* ===================================================================== *)

Section RequestChecks.
Import RecipeModel Caught Outcome Trace Requests UrlPath.
Variable env : Env.

Lemma extractRecipeFromText_calls recipeText h :
  snd (Controller.extractRecipeFromText env recipeText h) <> [].
Proof.
  rewrite extractRecipeFromText_run. cbv zeta.
  destruct (config_get env h _ _); [|discriminate].
  destruct (Controller.blank recipeText); [discriminate|].
  destruct (Controller.attempt env _ _ _). discriminate.
Qed.

(** X10.  The direct-request handler always returns.  It answers 400
    without calling any collaborator when the body is not JSON, when there
    is no body, when the body has neither [url] nor [recipeText], when
    [url] is not an http(s) URL and when [recipeText] has more than 50,000
    characters; every other request starts with a call (the page is
    fetched or the configuration is read). *)
Theorem malformed_requests_call_nobody event h :
  exists r evs,
    Handler.handleApiGatewayEvent env event h = (Return r, evs)
    /\ (malformed env event = true -> evs = [] /\ statusCode r = 400%Z)
    /\ (malformed env event = false -> evs <> []).
Proof.
  destruct (Handler.requestBody env event) as [body|e] eqn:B.
  2:{ unfold malformed, Handler.handleApiGatewayEvent, Handler.processRequest.
      rewrite B. eexists. eexists. split; [reflexivity|].
      split; [auto | discriminate]. }
  destruct (truthy body) eqn:T.
  2:{ unfold malformed, Handler.handleApiGatewayEvent, Handler.processRequest.
      rewrite B, T. eexists. eexists. split; [reflexivity|].
      split; [auto | discriminate]. }
  pose proof (truthy_readable _ T) as R.
  destruct (truthy (field body "url")) eqn:U.
  - assert (UO : urlOf env event = Some (field body "url")).
    { unfold urlOf. now rewrite B, T, U. }
    rewrite (url_path_run _ _ _ _ UO). unfold malformed. rewrite B, T, U.
    cbn [negb orb].
    destruct (WebpageService.isValidUrl env (field body "url")); cbn [negb].
    + cbv zeta. destruct (http_fetch env h _) as [html|e].
      * destruct (Controller.blank _).
        -- eexists. eexists. split; [reflexivity|].
           split; [discriminate | intros _; discriminate].
        -- destruct (Controller.extractRecipeFromText env _ _) as [out evs].
           eexists. eexists. split; [reflexivity|].
           split; [discriminate | intros _; discriminate].
      * eexists. eexists. split; [reflexivity|].
        split; [discriminate | intros _; discriminate].
    + eexists. eexists. split; [reflexivity|]. split; [auto | discriminate].
  - destruct (truthy (field body "recipeText")) eqn:X.
    + assert (TO : textOf env event = Some (field body "recipeText")).
      { unfold textOf. now rewrite B, T, U, X. }
      rewrite (text_path_run _ _ _ _ TO). unfold malformed. rewrite B, T, U, X.
      cbn [negb orb].
      destruct (length_gt env (field body "recipeText") 50000).
      * eexists. eexists. split; [reflexivity|]. split; [auto | discriminate].
      * pose proof (extractRecipeFromText_calls (field body "recipeText") h) as N.
        destruct (Controller.extractRecipeFromText env _ h) as [out evs].
        eexists. eexists. split; [reflexivity|].
        split; [discriminate | intros _; exact N].
    + unfold malformed, Handler.handleApiGatewayEvent, Handler.processRequest.
      rewrite B, T, U, X. cbn [negb orb]. unfold try_catch.
      unfold bind at 1, lift at 1. rewrite get_field by exact R. rewrite U.
      unfold bind at 1, lift at 1. rewrite get_field by exact R. rewrite X.
      eexists. eexists. split; [reflexivity|]. split; [auto | discriminate].
Qed.

End RequestChecks.

(* ===================================================================== *)
(** ** The handler never throws *)
(* ===================================================================== *)

Section HandlerAnswers.
Import RecipeModel EnvelopeSpec HandlerSpec.
Variable env : Env.

Lemma answer_of_envelope r : envelope env r -> answer r.
Proof.
  intros [H [[_ S]|[_ S]]]; (split; [exact H|]); unfold statuses.
  - rewrite S. simpl. tauto.
  - simpl in *. tauto.
Qed.

Lemma yields_impl {A} (P Q : A -> Prop) (m : M A) :
  (forall a, P a -> Q a) -> yields P m -> yields Q m.
Proof.
  intros PQ Y h out evs E. specialize (Y h out evs E).
  destruct out; [now apply PQ | exact I].
Qed.

Lemma handleApiGatewayEvent_envelope event :
  yields (envelope env) (Handler.handleApiGatewayEvent env event).
Proof.
  unfold Handler.handleApiGatewayEvent. apply yields_try_catch.
  - unfold Handler.processRequest.
    destruct (Handler.requestBody env event) as [body|parseError].
    + destruct (negb (truthy body)).
      * apply yields_ret, envelope_error. simpl. tauto.
      * apply yields_bind. intros url.
        destruct (truthy url); [apply handleUrlExtraction_envelope|].
        apply yields_bind. intros recipeText.
        destruct (truthy recipeText); [apply handleTextExtraction_envelope|].
        apply yields_ret, envelope_error. simpl. tauto.
    + apply yields_ret, envelope_error. simpl. tauto.
  - intros e. apply yields_ret, envelope_apiErrorResponse.
Qed.

Lemma answer_success data status :
  In status statuses -> answer (successResponse env data status).
Proof. intros H. split; [reflexivity | exact H]. Qed.

Lemma answer_error message status details :
  In status statuses -> answer (errorResponse env message status details).
Proof. intros H. split; [reflexivity | exact H]. Qed.

Lemma handleSqsEvent_answer event :
  yields answer (Handler.handleSqsEvent env event).
Proof.
  unfold Handler.handleSqsEvent.
  apply yields_bind; intros records. apply yields_bind; intros items.
  apply yields_bind; intros results.
  apply yields_ret, answer_success. simpl. tauto.
Qed.

Lemma handleS3Event_answer event :
  yields answer (Handler.handleS3Event env event).
Proof.
  unfold Handler.handleS3Event. cbv zeta.
  assert (Run : forall sync a b,
            yields answer
              (records <- lift (get event "Records") ;;
               records <- Handler.iterate records ;;
               results <- Handler.forRecords
                            (Handler.processS3Record env sync a b) records ;;
               ret (successResponse env
                      (obj [ ("message", str "S3 event processed");
                             ("results", arr results) ]) 202))).
  { intros sync a b.
    apply yields_bind; intros records. apply yields_bind; intros items.
    apply yields_bind; intros results.
    apply yields_ret, answer_success. simpl. tauto. }
  destruct (negb _); [|apply Run].
  apply yields_bind; intros a. apply yields_bind; intros b.
  destruct (opt_falsy a || opt_falsy b); [|apply Run].
  apply yields_ret, answer_error. simpl. tauto.
Qed.

(** X11.  For every event, the Lambda handler returns a response: it never
    throws.  The response carries the three JSON and CORS headers and one
    of the statuses 200, 202, 400, 422, 500, 502, 503. *)
Theorem handler_always_answers event h :
  exists r evs,
    Handler.handler env event h = (Return r, evs)
    /\ headers r = json_headers
    /\ In (statusCode r) [200; 202; 400; 422; 500; 502; 503]%Z.
Proof.
  assert (Y : yields answer (Handler.handler env event)).
  { unfold Handler.handler. apply yields_try_catch.
    - apply yields_bind; intros isSqs.
      destruct isSqs; [apply handleSqsEvent_answer|].
      apply yields_bind; intros isS3.
      destruct isS3; [apply handleS3Event_answer|].
      exact (yields_impl _ _ _ answer_of_envelope
               (handleApiGatewayEvent_envelope event)).
    - intros e. apply yields_ret, answer_error. simpl. tauto. }
  destruct (Handler.handler env event h) as [out evs] eqn:E.
  pose proof (Y _ _ _ E) as Q.
  unfold Handler.handler in E.
  apply try_catch_inv in E as [(a & _ & ->)|(e & evs1 & evs2 & _ & E & _)].
  - exists a, evs. split; [reflexivity | exact Q].
  - apply ret_inv in E as [-> _]. eexists. eexists. split; [reflexivity|].
    exact Q.
Qed.

End HandlerAnswers.

(* ===================================================================== *)
(** ** The status of the health endpoint *)
(* ===================================================================== *)

Section HealthEndpoint.
Import RecipeModel HealthSpec.
Variable env : Env.

(** X12.  The health endpoint always returns, with status 200 when both
    probes report available and 207 otherwise: the probes catch every
    failure, so the statuses 503 and 500 of the source are never sent. *)
Theorem healthCheck_answers_200_or_207 h :
  exists r evs,
    Handler.healthCheck env h = (Return r, evs)
    /\ (statusCode r = 200%Z \/ statusCode r = 207%Z)
    /\ (statusCode r = 200%Z
        <-> probed (Bedrock.checkBedrockAvailability env)
                   (Lambda.checkAPIAvailability env) h = Some (true, true)).
Proof.
  destruct (probes_never_throw env h) as [(b1 & evs1 & P1) _].
  destruct (probes_never_throw env (h ++ evs1)) as [_ (b2 & evs2 & P2)].
  unfold probed. rewrite P1, P2.
  unfold Handler.healthCheck, Controller.healthCheck, Controller.healthCheckWith.
  unfold try_catch, bind. rewrite P1, P2. unfold now, ret, lift.
  destruct b1, b2; cbn; eexists; eexists;
    (split; [reflexivity|]); cbn; split; auto;
    split; intros H; try reflexivity; discriminate.
Qed.

End HealthEndpoint.

(* ===================================================================== *)
(** ** What is submitted, and what a submission returns *)
(* ===================================================================== *)

Section Submissions.
Import RecipeModel Caught Outcome Trace RecipeShape.
Variable env : Env.

(** X13.  The controller submits a recipe to the downstream API only when
    the adapter returned it and the validator accepted it. *)
Theorem only_accepted_recipes_are_submitted recipeText h out evs recipe sent :
  Controller.extractRecipeFromText env recipeText h = (out, evs) ->
  In (EvSendRecipe recipe sent) evs ->
  In (EvExtractRecipe recipeText (Return recipe)) evs
  /\ conforms recipe = true.
Proof.
  intros H I.
  apply extractRecipeFromText_cases in H
    as [(F & _)|(modelId & preA & r & v & preS & sent' & iso & -> & OA & OS
                 & _ & V & Val & _)].
  { exfalso. exact (Forall_In_absurd _ _ _ F I (fun x => x)). }
  assert (E : recipe = r).
  { rewrite !in_app_iff in I. simpl in I.
    repeat match goal with
           | H : _ \/ _ |- _ => destruct H as [H|H]
           | H : False |- _ => destruct H
           end;
      try discriminate;
      try (exfalso; exact (Forall_In_absurd _ _ _ OA I (fun x => x)));
      try (exfalso; exact (Forall_In_absurd _ _ _ OS I (fun x => x))).
    now injection I. }
  subst recipe. split.
  - rewrite !in_app_iff. simpl. auto 10.
  - exact (accepted_conforms _ _ V Val).
Qed.

(** X14.  [sendRecipeToAPI] invokes the downstream Lambda once, with a POST
    to /recipes that carries the recipe.  When it returns, the invocation
    reported no function error and the response it returns has no status
    of 400 or more. *)
Theorem sendRecipeToAPI_returns_no_error recipe h v evs :
  Lambda.sendRecipeToAPI env recipe h = (Return v, evs) ->
  exists payload functionError,
    evs = [EvLambdaSend (Lambda.lambdaName env) (submission env recipe)
             (Return (payload, functionError));
           EvSendRecipe recipe (Return v)]
    /\ truthy functionError = false
    /\ truthy (field v "statusCode")
       && num_ge env (field v "statusCode") 400 = false.
Proof.
  rewrite sendRecipeToAPI_run. cbv zeta.
  destruct (lambda_send env h _ _) as [[payload functionError]|e];
    cbn [rbind through]; [|discriminate].
  destruct (Lambda.responseOfInvocation env (payload, functionError))
    as [v'|e] eqn:R; cbn [through]; [|discriminate].
  intros H; injection H as -> <-.
  exists payload, functionError. split; [reflexivity|].
  unfold Lambda.responseOfInvocation in R.
  destruct (parse env (JStr payload)) as [responsePayload|]; [|discriminate].
  cbn [rbind] in R.
  destruct (truthy functionError); [discriminate|]. split; [reflexivity|].
  destruct (get responsePayload "body") as [body|]; [|discriminate].
  cbn [rbind] in R.
  destruct (if truthy body && type_eqb (typeof body) TString
            then parsedBody <~ parse env body ;;
                 Return (JObj (assign (js "body") parsedBody
                                 (spread responsePayload)))
            else Return responsePayload) as [parsedResponse|]; [|discriminate].
  cbn [rbind] in R.
  destruct (get parsedResponse "statusCode") as [statusCode|] eqn:G;
    [|discriminate].
  cbn [rbind] in R. apply field_of_get in G.
  destruct (truthy statusCode && num_ge env statusCode 400) eqn:C.
  - destruct (get parsedResponse "body"); discriminate.
  - injection R as <-. now rewrite G.
Qed.

End Submissions.

Section SubmissionWitnesses.
Import RecipeModel RecipeShape Caught.

Lemma only_accepted_recipes_are_submitted_witness :
  exists out evs recipe sent,
    Controller.extractRecipeFromText Demo.salade_env Demo.salade_request []
    = (out, evs)
    /\ In (EvSendRecipe recipe sent) evs
    /\ In (EvExtractRecipe Demo.salade_request (Return recipe)) evs
    /\ conforms recipe = true.
Proof.
  eexists. eexists. eexists. eexists.
  match goal with
  | |- ?A /\ ?B /\ _ =>
      assert (R : A) by (vm_compute; reflexivity);
      assert (I : B) by (do 5 right; left; reflexivity)
  end.
  split; [exact R|]. split; [exact I|].
  exact (only_accepted_recipes_are_submitted _ _ _ _ _ _ _ R I).
Defined.

Lemma sendRecipeToAPI_returns_no_error_witness :
  exists v evs,
    Lambda.sendRecipeToAPI Cases.stored_env Samples.farine [] = (Return v, evs)
    /\ truthy (field v "statusCode")
       && num_ge Cases.stored_env (field v "statusCode") 400 = false.
Proof.
  eexists. eexists.
  match goal with
  | |- ?A /\ _ => assert (R : A) by (vm_compute; reflexivity)
  end.
  split; [exact R|].
  destruct (sendRecipeToAPI_returns_no_error _ _ _ _ _ R)
    as (payload & functionError & _ & _ & S).
  exact S.
Defined.

End SubmissionWitnesses.

(* ===================================================================== *)
(** ** Batches of records *)
(* ===================================================================== *)

Section Batches.
Import RecipeModel Trace Events.
Variable env : Env.

Lemma forRecords_length (f : value -> M value) records :
  forall h results evs,
    Handler.forRecords f records h = (Return results, evs) ->
    List.length results = List.length records.
Proof.
  induction records as [|record rest IH]; intros h results evs H;
    cbn [Handler.forRecords] in H.
  - apply ret_inv in H as [H _]. injection H as H. now subst results.
  - apply bind_inv_return in H as (x & evs1 & evs2 & _ & H & _).
    apply bind_inv_return in H as (xs & evs3 & evs4 & HR & H & _).
    apply ret_inv in H as [H _]. injection H as H. subst results.
    cbn [List.length]. f_equal. exact (IH _ _ _ HR).
Qed.


Lemma forRecords_emits (P : event -> Prop) (f : value -> M value) records :
  (forall record, emits P (f record)) ->
  emits P (Handler.forRecords f records).
Proof.
  intros Hf. induction records as [|record rest IH]; cbn [Handler.forRecords].
  - apply emits_ret.
  - apply emits_bind; [apply Hf|]. intros x.
    apply emits_bind; [exact IH|]. intros xs. apply emits_ret.
Qed.



(** When the storage path answers 202, its body lists one result per
    record of the event. *)
Lemma handleS3Event_results event h r evs :
  Handler.handleS3Event env event h = (Return r, evs) ->
  statusCode r = 202%Z ->
  exists records extra results,
    field event "Records" = JArr records extra
    /\ r = successResponse env
             (obj [ ("message", str "S3 event processed");
                    ("results", arr results) ]) 202
    /\ List.length results = List.length records.
Proof.
  unfold Handler.handleS3Event. cbv zeta. intros H S.
  assert (Run : forall sync a b h' evs',
            (records <- lift (get event "Records") ;;
             records <- Handler.iterate records ;;
             results <- Handler.forRecords
                          (Handler.processS3Record env sync a b) records ;;
             ret (successResponse env
                    (obj [ ("message", str "S3 event processed");
                           ("results", arr results) ]) 202)) h'
            = (Return r, evs') ->
            exists records extra results,
              field event "Records" = JArr records extra
              /\ r = successResponse env
                       (obj [ ("message", str "S3 event processed");
                              ("results", arr results) ]) 202
              /\ List.length results = List.length records).
  { clear. intros sync a b h' evs' H.
    apply bind_inv_return in H as (recs & evs1 & evs2 & G & H & _).
    apply lift_inv in G as [G _]. symmetry in G. apply field_of_get in G.
    apply bind_inv_return in H as (items & evs3 & evs4 & It & H & _).
    destruct recs as [| | | | |records extra|]; cbn [Handler.iterate] in It;
      try (apply throw_inv in It as [It _]; discriminate).
    apply ret_inv in It as [It _]. injection It as ->.
    apply bind_inv_return in H as (results & evs5 & evs6 & FR & H & _).
    apply ret_inv in H as [H _]. injection H as ->.
    exists records, extra, results. split; [exact G|]. split; [reflexivity|].
    exact (forRecords_length _ _ _ _ _ FR). }
  destruct (negb _); [|exact (Run _ _ _ _ _ H)].
  apply bind_inv_return in H as (a & evs1 & evs2 & _ & H & _).
  apply bind_inv_return in H as (b & evs3 & evs4 & _ & H & _).
  destruct (opt_falsy a || opt_falsy b); [|exact (Run _ _ _ _ _ H)].
  apply ret_inv in H as [H _]. injection H as ->. discriminate S.
Qed.

Lemma handleSqsEvent_status event :
  EnvelopeSpec.yields (fun r => statusCode r = 200%Z)
    (Handler.handleSqsEvent env event).
Proof.
  unfold Handler.handleSqsEvent.
  apply yields_bind; intros records. apply yields_bind; intros items.
  apply yields_bind; intros results. now apply yields_ret.
Qed.

(** X16.  When the Lambda handler answers 202, the event is an upload whose
    [Records] is an array, and the body lists one result per record. *)
Theorem accepted_upload_has_one_result_per_record event h r evs :
  Handler.handler env event h = (Return r, evs) ->
  statusCode r = 202%Z ->
  exists records extra results,
    field event "Records" = JArr records extra
    /\ r = successResponse env
             (obj [ ("message", str "S3 event processed");
                    ("results", arr results) ]) 202
    /\ List.length results = List.length records.
Proof.
  unfold Handler.handler. intros H S.
  apply try_catch_inv in H as [(a & H & E)|(e & evs1 & evs2 & _ & H & _)].
  2:{ apply ret_inv in H as [H _]. injection H as ->. discriminate S. }
  injection E as <-.
  apply bind_inv_return in H as (isSqs & ? & ? & _ & H & _).
  destruct isSqs.
  { pose proof (handleSqsEvent_status event _ _ _ H) as Q. cbn in Q.
    rewrite Q in S. discriminate. }
  apply bind_inv_return in H as (isS3 & ? & ? & _ & H & _).
  destruct isS3; [exact (handleS3Event_results _ _ _ _ H S)|].
  pose proof (handleApiGatewayEvent_envelope env event _ _ _ H) as Q.
  cbn in Q. destruct Q as [_ [[_ Q]|[_ Q]]].
  - rewrite Q in S. discriminate.
  - rewrite S in Q. simpl in Q.
    repeat (destruct Q as [Q|Q]; try discriminate). destruct Q.
Qed.

(** X17.  In asynchronous mode the storage path reads the configuration and
    starts Textract jobs, for supported files only: it extracts no text,
    calls no model and submits nothing. *)
Theorem s3_async_upload_only_starts_jobs event h out evs :
  useSyncMode env = false ->
  Handler.handleS3Event env event h = (out, evs) ->
  Forall (ofAsyncUpload env) evs.
Proof.
  intros A. revert h out evs.
  change (emits (ofAsyncUpload env) (Handler.handleS3Event env event)).
  unfold Handler.handleS3Event. cbv zeta. fold (useSyncMode env). rewrite A.
  cbn [negb].
  apply emits_bind; [apply emits_call; intros r; exact I|]. intros a.
  apply emits_bind; [apply emits_call; intros r; exact I|]. intros b.
  destruct (opt_falsy a || opt_falsy b); [apply emits_ret|].
  apply emits_bind; [apply emits_lift|]. intros records.
  apply emits_bind.
  { unfold Handler.iterate. destruct records; try apply emits_throw.
    apply emits_ret. }
  intros items. apply emits_bind; [|intros results; apply emits_ret].
  apply forRecords_emits. intros record. unfold Handler.processS3Record.
  apply emits_bind; [apply emits_lift|]. intros s3.
  apply emits_bind; [apply emits_lift|]. intros bucket.
  apply emits_bind; [apply emits_lift|]. intros rawKey.
  apply emits_bind.
  { destruct rawKey; try apply emits_throw.
    destruct (decodeURIComponent env _); [apply emits_ret | apply emits_throw]. }
  intros key. destruct (S3.isSupportedFile env key) eqn:Sup; cbn [negb];
    [|apply emits_ret].
  apply emits_try_catch; [|intros e; apply emits_ret].
  apply emits_bind; [apply emits_call; intros r; exact Sup|].
  intros textractResult.
  apply emits_bind; [apply emits_lift|]. intros jobId. apply emits_ret.
Qed.

End Batches.

Section BatchWitnesses.
Import RecipeModel Events.


Lemma accepted_upload_has_one_result_per_record_witness :
  exists r evs,
    Handler.handler Cases.upload_env Cases.s3_event [] = (Return r, evs)
    /\ statusCode r = 202%Z
    /\ exists records extra results,
         field Cases.s3_event "Records" = JArr records extra
         /\ r = successResponse Cases.upload_env
                  (obj [ ("message", str "S3 event processed");
                         ("results", arr results) ]) 202
         /\ List.length results = List.length records.
Proof.
  eexists. eexists.
  match goal with
  | |- ?A /\ ?B /\ _ =>
      assert (R : A) by (vm_compute; reflexivity);
      assert (S : B) by reflexivity
  end.
  split; [exact R|]. split; [exact S|].
  exact (accepted_upload_has_one_result_per_record Cases.upload_env
           Cases.s3_event [] _ _ R S).
Defined.

Lemma s3_async_upload_only_starts_jobs_witness :
  useSyncMode Cases.upload_env = false
  /\ exists out evs,
       Handler.handleS3Event Cases.upload_env Cases.s3_event [] = (out, evs)
       /\ List.length evs = 3
       /\ Forall (ofAsyncUpload Cases.upload_env) evs.
Proof.
  split; [reflexivity|]. eexists. eexists.
  match goal with
  | |- ?A /\ _ => assert (R : A) by (vm_compute; reflexivity)
  end.
  split; [exact R|]. split; [reflexivity|].
  exact (s3_async_upload_only_starts_jobs Cases.upload_env Cases.s3_event []
           _ _ eq_refl R).
Defined.

End BatchWitnesses.

(* ===================================================================== *)
(** ** The extracted text: white space and length *)
(* ===================================================================== *)

Section ExtractedText.
Import Regex Webpage Whitespace Lengths.

Lemma blanks_normal_no_tab s : blanks_normal s -> ~ In 9%N s.
Proof.
  induction s as [|c s IH]; simpl; [tauto|].
  intros (N & _ & B) [E|I]; [congruence | exact (IH B I)].
Qed.

(** X18.  The text [extractTextFromHtml] returns has no white space at
    either end, no tab, no two spaces in a row and no three line feeds in a
    row. *)
Theorem extractTextFromHtml_squeezes_white_space (html : jsstring) :
  let text := extractTextFromHtml html in
  trim text = text
  /\ ~ In 9%N text
  /\ (forall pre post, text <> pre ++ [32%N; 32%N] ++ post)
  /\ (forall pre post, text <> pre ++ [10%N; 10%N; 10%N] ++ post).
Proof.
  destruct (extractTextFromHtml_normal html) as (L & B & T). cbv zeta.
  split; [exact T|]. split; [now apply blanks_normal_no_tab|]. split.
  - intros pre post E. rewrite E in B.
    apply blanks_normal_suffix in B. simpl in B.
    destruct B as (_ & B & _). specialize (B eq_refl). discriminate.
  - intros pre post E. rewrite E in L.
    apply lines_normal_suffix in L. simpl in L.
    destruct L as (L & _). destruct (L eq_refl eq_refl) as (t' & Et & W).
    injection Et as <-. discriminate.
Qed.

(** *** Length *)

Lemma replace_from_length r rep (Hm : shrinks r rep) :
  forall s n, n <= List.length s ->
    List.length (replace_from r rep n s) + n <= List.length s.
Proof.
  induction s as [|c s IH]; intros n Hn; cbn [replace_from].
  - cbn [List.length] in *. assert (n = 0) by lia. subst n.
    destruct (match_at r []) as [rest|] eqn:M; [|simpl; lia].
    pose proof (Hm _ _ M) as L. cbn [List.length] in L. lia.
  - destruct n as [|n].
    + destruct (match_at r (c :: s)) as [rest|] eqn:M.
      * pose proof (Hm _ _ M) as L.
        destruct (match_at_suffix _ _ _ M) as [pre E].
        apply (f_equal (@List.length N)) in E. rewrite length_app in E.
        destruct (List.length (c :: s) - List.length rest) as [|k] eqn:D.
        -- rewrite length_app. cbn [List.length] in *.
           specialize (IH 0 (Nat.le_0_l _)). lia.
        -- rewrite length_app. cbn [List.length] in *.
           assert (K : k <= List.length s) by lia.
           specialize (IH k K). lia.
      * cbn [List.length]. specialize (IH 0 (Nat.le_0_l _)). lia.
    + cbn [List.length] in *. specialize (IH n). lia.
Qed.

Lemma replace_length r rep s :
  shrinks r rep -> List.length (replace r rep s) <= List.length s.
Proof.
  intros Hm. pose proof (replace_from_length r rep Hm s 0 (Nat.le_0_l _)).
  unfold replace. lia.
Qed.

Lemma shrinks_nil r : shrinks r [].
Proof.
  intros s rest M. destruct (match_at_suffix _ _ _ M) as [pre ->].
  rewrite length_app. simpl. lia.
Qed.

Lemma shrinks_chr p b rep :
  List.length rep <= 1 -> shrinks (Seq (Chr p) b) rep.
Proof.
  intros R [|c s] rest M; [discriminate|].
  destruct (match_at_chr _ _ _ _ _ M) as [pre ->].
  cbn [List.length]. rewrite length_app. lia.
Qed.

Lemma shrinks_blank_lines : shrinks re_blank_lines (newline ++ newline).
Proof.
  intros [|c s] rest M; [discriminate|].
  unfold match_at, re_blank_lines in M. cbn [exec] in M.
  destruct (N.eqb 10 c); [|discriminate].
  apply star_greedy_suffix in M as (pre & rest1 & -> & M).
  destruct rest1 as [|c2 rest2]; [discriminate|].
  destruct (N.eqb 10 c2); [|discriminate]. injection M as ->.
  cbn [List.length app newline]. rewrite length_app. cbn [List.length]. lia.
Qed.

Lemma trim_length s : List.length (trim s) <= List.length s.
Proof.
  destruct (trim_infix s) as (pre & post & E).
  rewrite E at 2. rewrite !length_app. lia.
Qed.

(** X19.  The text [extractTextFromHtml] returns is never longer than the
    page. *)
Theorem extractTextFromHtml_never_longer (html : jsstring) :
  List.length (extractTextFromHtml html) <= List.length html.
Proof.
  unfold extractTextFromHtml.
  repeat match goal with
         | |- List.length (trim ?s) <= _ =>
             apply (Nat.le_trans _ _ _ (trim_length s))
         | |- List.length (replace ?r ?rep ?s) <= _ =>
             apply (Nat.le_trans _ (List.length s) _);
             [apply replace_length;
              first [ apply shrinks_nil
                    | apply shrinks_blank_lines
                    | apply shrinks_chr; cbn; lia ] |]
         end.
  apply Nat.le_refl.
Qed.

End ExtractedText.

(* ===================================================================== *)
(** ** The content item the adapter reads *)
(* ===================================================================== *)

Section ContentItems.
Import RecipeModel.
Variable env : Env.

Lemma find_first pred pre item post :
  (forall x, In x pre -> pred x = Return false) ->
  pred item = Return true ->
  find pred (pre ++ item :: post) = Return item.
Proof.
  intros Hpre Hitem. induction pre as [|x pre IH]; cbn [app find].
  - now rewrite Hitem.
  - rewrite (Hpre x (or_introl eq_refl)). cbn [rbind].
    apply IH. intros y I. apply Hpre. now right.
Qed.

(** X20.  In a response of the Claude shape, the recipe is parsed from the
    first content item of type 'text'; the items before it and after it
    are not read. *)
Theorem recipe_is_parsed_from_first_text_item
    raw responseBody pre item post extra :
  JSON_parse env raw = inl responseBody ->
  field responseBody "output" = JUndefined ->
  field responseBody "content" = JArr (pre ++ item :: post) extra ->
  forallb (fun x => readable x && negb (is_str (field x "type") "text")) pre
  = true ->
  is_str (field item "type") "text" = true ->
  truthy (field item "text") = true ->
  Bedrock.parsedRecipe env raw = parse env (field item "text").
Proof.
  intros P O C Hpre Hitem T.
  assert (R : readable responseBody = true).
  { apply (field_defined responseBody "content"). rewrite C. discriminate. }
  assert (RI : readable item = true /\ truthy item = true).
  { destruct (field_defined item "text") as [A B]; [|auto].
    intros E. rewrite E in T. discriminate. }
  destruct RI as [RI TI].
  unfold Bedrock.parsedRecipe, parse at 1. cbn [to_string]. rewrite P.
  cbn [rbind]. unfold Bedrock.textContentOf.
  rewrite get_field by exact R. rewrite O. cbn [rbind truthy].
  rewrite get_field by exact R. rewrite C. cbn [rbind].
  rewrite find_first.
  - cbn [rbind]. rewrite TI. rewrite get_field by exact RI. cbn [rbind].
    rewrite T. reflexivity.
  - intros x I. rewrite forallb_forall in Hpre. specialize (Hpre x I).
    apply andb_true_iff in Hpre as [Rx Nx]. apply negb_true_iff in Nx.
    rewrite get_field by exact Rx. cbn [rbind]. now rewrite Nx.
  - rewrite get_field by exact RI. cbn [rbind]. now rewrite Hitem.
Qed.

End ContentItems.

Lemma recipe_is_parsed_from_first_text_item_witness :
  Bedrock.parsedRecipe Cases.thinking_env Cases.thinking_raw = Return (obj []).
Proof.
  exact (recipe_is_parsed_from_first_text_item Cases.thinking_env
           Cases.thinking_raw Cases.thinking_response
           [ obj [ ("type", str "thinking"); ("thinking", str "...") ] ]
           (obj [ ("type", str "text"); ("text", str "{}") ])
           [ obj [ ("type", str "text"); ("text", str "[]") ] ] []
           eq_refl eq_refl eq_refl eq_refl eq_refl eq_refl).
Defined.

(* ===================================================================== *)
(** ** The CommonJS handler and the current one *)
(* ===================================================================== *)

Section LegacyHandler.
Import RecipeModel Requests.
Variable env : Env.

(** The text of a request as the CommonJS handler reads it. *)
Lemma legacy_text_run extractRecipeFromText event body h :
  Handler.requestBody env event = Return body ->
  truthy body = true ->
  truthy (field body "recipeText") = true ->
  Legacy.extractRecipe env extractRecipeFromText event h
  = if length_gt env (field body "recipeText") 50000 then
      (Return (errorResponse env
                 (js "Recipe text too long (max 50000 characters)") 400 []), [])
    else
      let (out, evs) := extractRecipeFromText (field body "recipeText") h in
      (Return (match out with
               | Return result => successResponse env result 200
               | Throw e => Handler.apiErrorResponse env e
               end), evs).
Proof.
  intros B T X. pose proof (truthy_readable _ T) as R.
  unfold Legacy.extractRecipe, try_catch, Legacy.processRequest.
  rewrite B, T. cbn [negb].
  unfold bind at 1, lift at 1. rewrite get_field by exact R. rewrite X.
  cbn [negb]. destruct (length_gt env _ 50000); [reflexivity|].
  unfold bind. rewrite app_nil_r.
  destruct (extractRecipeFromText _ h) as [[result|e] evs];
    unfold ret; now rewrite !app_nil_r.
Qed.

(** X21.  On a request with a [recipeText] and no [url], the CommonJS
    handler, run with the controller of the current version, does what the
    current direct-request handler does: same calls, same response. *)
Theorem legacy_handler_agrees_on_text event t h :
  textOf env event = Some t ->
  Legacy.extractRecipe env (Controller.extractRecipeFromText env) event h
  = Handler.handleApiGatewayEvent env event h.
Proof.
  intros T. rewrite (text_path_run _ _ _ _ T).
  unfold textOf in T.
  destruct (Handler.requestBody env event) as [body|e] eqn:B; [|discriminate].
  destruct (truthy body) eqn:TB; [|discriminate].
  destruct (truthy (field body "url")); [discriminate|].
  destruct (truthy (field body "recipeText")) eqn:X; [|discriminate].
  injection T as <-.
  exact (legacy_text_run _ _ _ _ B TB X).
Qed.

End LegacyHandler.

Lemma legacy_handler_agrees_on_text_witness :
  Requests.textOf Demo.salade_env Demo.salade_event = Some Demo.salade_request
  /\ Legacy.extractRecipe Demo.salade_env
       (Controller.extractRecipeFromText Demo.salade_env) Demo.salade_event []
     = Handler.handleApiGatewayEvent Demo.salade_env Demo.salade_event [].
Proof.
  assert (T : Requests.textOf Demo.salade_env Demo.salade_event
              = Some Demo.salade_request) by (vm_compute; reflexivity).
  split; [exact T|].
  exact (legacy_handler_agrees_on_text Demo.salade_env Demo.salade_event _ [] T).
Defined.

(* ===================================================================== *)
(** ** Textract: the text of a document *)
(* ===================================================================== *)

Section TextractText.
Import RecipeModel Textract.
Variable env : Env.

Lemma lineBlocks_filter blocks :
  forallb readable blocks = true ->
  lineBlocks blocks
  = Return (filter (fun block => is_str (field block "BlockType") "LINE")
                   blocks).
Proof.
  induction blocks as [|block rest IH]; cbn [forallb lineBlocks filter];
    [reflexivity|].
  intros H. apply andb_true_iff in H as [R H].
  rewrite get_field by exact R. cbn [rbind]. rewrite (IH H). cbn [rbind].
  now destruct (is_str _ _).
Qed.

Lemma texts_map blocks :
  forallb readable blocks = true ->
  texts blocks = Return (map (fun block => field block "Text") blocks).
Proof.
  induction blocks as [|block rest IH]; cbn [forallb texts map];
    [reflexivity|].
  intros H. apply andb_true_iff in H as [R H].
  rewrite get_field by exact R. cbn [rbind]. now rewrite (IH H).
Qed.

Lemma forallb_filter {A} (p q : A -> bool) l :
  forallb p l = true -> forallb p (filter q l) = true.
Proof.
  induction l as [|x l IH]; simpl; [reflexivity|].
  intros H. apply andb_true_iff in H as [Hx H].
  destruct (q x); simpl; [rewrite Hx|]; now apply IH.
Qed.

Lemma linesOf_lineTexts blocks extra :
  forallb readable blocks = true ->
  linesOf (JArr blocks extra) = Return (lineTexts blocks).
Proof.
  intros R. unfold linesOf, lineTexts. rewrite (lineBlocks_filter _ R).
  cbn [rbind]. apply texts_map. now apply forallb_filter.
Qed.

(** The loop over the pages of a job, from page [n] on. *)
Lemma pages_paged tokens job :
  forall n before allText,
    job <> [] ->
    (forall i, tokens i <> []) ->
    Forall (fun blocks => forallb readable blocks = true) job ->
    List.length before = n ->
    forall token,
      expected tokens n token = true ->
      pages env (List.length job)
            (serving tokens (before ++ paged tokens n job)) n token allText
      = Some (Return (allText ++ flat_map lineTexts job)).
Proof.
  induction job as [|blocks rest IH]; intros n before allText NE T R L token X;
    [congruence|].
  cbn [List.length pages]. unfold serving at 1. rewrite X.
  assert (N : nth_error (before ++ paged tokens n (blocks :: rest)) n
              = Some (succeeded blocks
                        (match rest with
                         | [] => JUndefined
                         | _ => JStr (tokens n)
                         end))).
  { rewrite nth_error_app2 by lia. rewrite L, Nat.sub_diag.
    destruct rest; reflexivity. }
  rewrite N. cbn [rbind].
  inversion R as [|b r Rb Rr]; subst.
  assert (P : forall nextToken,
            page env (succeeded blocks nextToken) allText
            = Return (allText ++ lineTexts blocks, nextToken)).
  { intros nextToken. unfold page, succeeded.
    change (get (obj [("JobStatus", str "SUCCEEDED"); ("Blocks", arr blocks);
                      ("NextToken", nextToken)]) "JobStatus")
      with (Return (str "SUCCEEDED")).
    cbn [rbind].
    change (is_str (str "SUCCEEDED") "FAILED") with false.
    change (is_str (str "SUCCEEDED") "SUCCEEDED") with true.
    cbn [negb].
    change (get (obj [("JobStatus", str "SUCCEEDED"); ("Blocks", arr blocks);
                      ("NextToken", nextToken)]) "Blocks")
      with (Return (arr blocks)).
    change (get (obj [("JobStatus", str "SUCCEEDED"); ("Blocks", arr blocks);
                      ("NextToken", nextToken)]) "NextToken")
      with (Return nextToken).
    cbn [rbind]. unfold arr at 1. cbn [truthy].
    unfold arr. rewrite (linesOf_lineTexts _ _ Rb). reflexivity. }
  rewrite P. clear P N.
  destruct rest as [|blocks' rest'].
  - cbn [truthy flat_map]. now rewrite app_nil_r.
  - assert (TT : truthy (JStr (tokens (List.length before))) = true).
    { specialize (T (List.length before)).
      destruct (tokens (List.length before)); [congruence | reflexivity]. }
    rewrite TT.
    replace (before ++ paged tokens (List.length before)
                         (blocks :: blocks' :: rest'))
      with ((before ++ [succeeded blocks (JStr (tokens (List.length before)))])
            ++ paged tokens (S (List.length before)) (blocks' :: rest')).
    2:{ rewrite <- app_assoc. reflexivity. }
    rewrite (IH (S (List.length before))
               (before ++ [succeeded blocks (JStr (tokens (List.length before)))])
               (allText ++ lineTexts blocks)); try assumption.
    + cbn [flat_map]. now rewrite <- app_assoc.
    + discriminate.
    + rewrite length_app. cbn [List.length]. lia.
    + cbn [expected]. apply str_eqb_refl.
Qed.

(** X22.  For a finished job of one page or more, [getTextExtractionResult]
    asks for each page once, the first without token and each other one
    with the token of the page before, and returns the texts of the LINE
    blocks of all pages, in order, joined by line feeds. *)
Theorem getTextExtractionResult_joins_all_pages tokens job :
  job <> [] ->
  (forall i, tokens i <> []) ->
  Forall (fun blocks => forallb readable blocks = true) job ->
  getTextExtractionResult env (List.length job)
    (serving tokens (paged tokens 0 job))
  = Some (Return (joinLines env (flat_map lineTexts job))).
Proof.
  intros NE T R. unfold getTextExtractionResult.
  pose proof (pages_paged tokens job 0 [] [] NE T R eq_refl JNull eq_refl) as P.
  cbn [app] in P. now rewrite P.
Qed.

(** X23.  On the response of a finished job without further page and with
    blocks, the asynchronous reader returns the text the synchronous reader
    returns. *)
Theorem textract_modes_agree response text send :
  is_str (field response "JobStatus") "SUCCEEDED" = true ->
  truthy (field response "Blocks") = true ->
  truthy (field response "NextToken") = false ->
  send 0 JNull = Return response ->
  detectDocumentTextSync env (Return response) = Return text ->
  getTextExtractionResult env 1 send = Some (Return text).
Proof.
  intros S B N Q D.
  assert (R : readable response = true).
  { apply (field_defined response "Blocks"). intros E. rewrite E in B.
    discriminate. }
  unfold getTextExtractionResult. cbn [pages]. rewrite Q. cbn [rbind].
  unfold page. rewrite get_field by exact R. cbn [rbind].
  assert (F : is_str (field response "JobStatus") "FAILED" = false).
  { apply is_str_spec in S. rewrite S. reflexivity. }
  rewrite F, S. cbn [negb].
  rewrite get_field by exact R. cbn [rbind]. rewrite B.
  unfold detectDocumentTextSync in D. cbn [rbind] in D.
  rewrite get_field in D by exact R. cbn [rbind] in D.
  destruct (linesOf (field response "Blocks")) as [lines|e]; [|discriminate].
  cbn [rbind app] in *. rewrite get_field by exact R. cbn [rbind].
  rewrite N. congruence.
Qed.

End TextractText.

Section TextractWitnesses.
Import Textract.

Lemma getTextExtractionResult_joins_all_pages_witness :
  getTextExtractionResult Demo.salade_env 2
    (serving Cases.tokens (paged Cases.tokens 0 Cases.job))
  = Some (Return (js "Tarte aux pommes
5 pommes
Cuire 35 minutes")).
Proof.
  assert (NE : Cases.job <> []) by discriminate.
  assert (T : forall i, Cases.tokens i <> []) by discriminate.
  assert (R : Forall (fun blocks => forallb RecipeModel.readable blocks = true)
                Cases.job) by (repeat constructor).
  exact (getTextExtractionResult_joins_all_pages Demo.salade_env Cases.tokens
           Cases.job NE T R).
Defined.

Lemma textract_modes_agree_witness :
  detectDocumentTextSync Demo.salade_env
    (Return (succeeded [Cases.block "LINE" "5 pommes"] JUndefined))
  = Return (js "5 pommes")
  /\ getTextExtractionResult Demo.salade_env 1
       (fun _ _ => Return (succeeded [Cases.block "LINE" "5 pommes"] JUndefined))
     = Some (Return (js "5 pommes")).
Proof.
  split; [reflexivity|].
  exact (textract_modes_agree Demo.salade_env
           (succeeded [Cases.block "LINE" "5 pommes"] JUndefined)
           (js "5 pommes")
           (fun _ _ => Return (succeeded [Cases.block "LINE" "5 pommes"] JUndefined))
           eq_refl eq_refl eq_refl eq_refl eq_refl).
Defined.

End TextractWitnesses.

(* ===================================================================== *)
(** ** The URL path when the model fails, and uploads in synchronous mode *)
(* ===================================================================== *)

Section MorePaths.
Import RecipeModel Caught Outcome Trace Requests UrlPath Events.
Variable env : Env.

Lemma includes_app_r a b n : includes b n = true -> includes (a ++ b) n = true.
Proof.
  intros H. induction a as [|x a IH]; [exact H|].
  cbn [app includes]. rewrite IH. apply orb_true_r.
Qed.

(** X24.  On the URL path, a service error of the model whose message
    mentions a timeout is answered 502 "Failed to fetch webpage", although
    the page was fetched: the [catch] block of [handleUrlExtraction] sees
    the errors of the extraction too. *)
Theorem model_timeout_on_url_path_is_bad_gateway event url h r evs id p e :
  urlOf env event = Some url ->
  Handler.handleApiGatewayEvent env event h = (Return r, evs) ->
  In (EvBedrockSend id p (Throw e)) evs ->
  err_metadata e = true ->
  str_eqb (err_name e) (js "SyntaxError") = false ->
  includes (err_message e) (js "timeout") = true ->
  r = errorResponse env (js "Failed to fetch webpage") 502
        [js "Bedrock service error: AWS Bedrock error: " ++ err_message e].
Proof.
  intros U H I M S T. rewrite (url_path_run _ _ _ _ U) in H.
  destruct (WebpageService.isValidUrl env url).
  2:{ injection H as _ <-. destruct I. }
  cbv zeta in H. destruct (http_fetch env h url) as [html|e'].
  2:{ injection H as _ <-. destruct I as [I|[]]. discriminate. }
  destruct (Controller.blank _).
  { injection H as _ <-. destruct I as [I|[]]. discriminate. }
  destruct (Controller.extractRecipeFromText env _ _) as [out evs0] eqn:C.
  injection H as <- <-. destruct I as [I|I]; [discriminate|].
  rewrite (extractRecipeFromText_send_failure _ _ _ _ _ _ _ _ C I).
  unfold byAdapter. rewrite S, M.
  assert (B : byController (Error (js "AWS Bedrock error: " ++ err_message e))
              = Error (js "Bedrock service error: AWS Bedrock error: "
                       ++ err_message e)).
  { unfold byController. cbn [err_message Error].
    rewrite (includes_app_l (js "AWS Bedrock error: ") _ (js "Bedrock") eq_refl).
    rewrite app_assoc. reflexivity. }
  rewrite B. unfold failed, fetchFailure. cbn [err_message Error].
  rewrite (includes_app_r _ _ _ T). now rewrite orb_true_r.
Qed.

Lemma emits_observed (P : event -> Prop) ev (m : M value) :
  emits P m -> (forall r, P (ev r)) -> emits P (observed ev m).
Proof.
  intros Hm Hev h out evs H. apply observed_inv in H as (evs0 & H & ->).
  apply Forall_app. split; [exact (Hm _ _ _ H)|]. repeat constructor. apply Hev.
Qed.

(** Every event of a run of the controller is one of its own. *)
Lemma controller_emits (P : event -> Prop) recipeText :
  (forall ns key out, ns = js "bedrock" -> P (EvConfig ns key out)) ->
  (forall ev, match ev with
              | EvBedrockSend _ _ _ | EvExtractRecipe _ _ | EvLambdaSend _ _ _
              | EvSendRecipe _ _ | EvClock _ => P ev
              | _ => True
              end) ->
  emits P (Controller.extractRecipeFromText env recipeText).
Proof.
  intros PC PO. unfold Controller.extractRecipeFromText.
  apply emits_bind; [apply emits_call; intros r; now apply PC|].
  intros modelId. destruct (Controller.blank recipeText); [apply emits_throw|].
  apply emits_try_catch.
  2:{ intros e. unfold Controller.catchExtraction.
      destruct (includes _ _); [apply emits_throw|].
      destruct (includes _ _); apply emits_throw. }
  unfold Controller.attempt. apply emits_bind.
  { unfold Bedrock.extractRecipe. apply emits_observed.
    - apply emits_bind; [apply emits_call; intros r; now apply PC|].
      intros m. apply emits_bind.
      + destruct m; [apply emits_ret | apply emits_throw].
      + intros profile. destruct (negb _ || _); [apply emits_throw|].
        apply emits_try_catch.
        * apply emits_bind; [|intros raw; apply emits_lift].
          apply emits_call. intros r.
          exact (PO (EvBedrockSend _ _ r)).
        * intros e. unfold Bedrock.catchExtract.
          destruct (str_eqb _ _); [apply emits_throw|].
          destruct (err_metadata e); apply emits_throw.
    - intros r. exact (PO (EvExtractRecipe _ r)). }
  intros extracted. apply emits_bind; [apply emits_lift|]. intros v.
  destruct (negb (valid v)); [apply emits_throw|].
  apply emits_bind.
  { apply emits_try_catch; [|intros e; apply emits_ret].
    unfold Lambda.sendRecipeToAPI. apply emits_observed.
    - apply emits_try_catch.
      + apply emits_bind; [|intros response; apply emits_lift].
        apply emits_call. intros r. exact (PO (EvLambdaSend _ _ r)).
      + intros e. unfold Lambda.catchSend.
        destruct (str_eqb _ _); [apply emits_throw|].
        destruct (str_eqb _ _); apply emits_throw.
    - intros r. exact (PO (EvSendRecipe _ r)). }
  intros api. apply emits_bind; [|intros iso; apply emits_ret].
  apply emits_now. intros iso. exact (PO (EvClock iso)).
Qed.

(** X25.  In synchronous mode the storage path detects the text of
    supported files and hands it to the controller: it does not read the
    configuration of Textract, starts no job and fetches no page. *)
Theorem s3_sync_upload_starts_no_job event h out evs :
  useSyncMode env = true ->
  Handler.handleS3Event env event h = (out, evs) ->
  Forall (ofSyncUpload env) evs.
Proof.
  intros A. revert h out evs.
  change (emits (ofSyncUpload env) (Handler.handleS3Event env event)).
  unfold Handler.handleS3Event. cbv zeta. fold (useSyncMode env). rewrite A.
  cbn [negb].
  apply emits_bind; [apply emits_lift|]. intros records.
  apply emits_bind.
  { unfold Handler.iterate. destruct records; try apply emits_throw.
    apply emits_ret. }
  intros items. apply emits_bind; [|intros results; apply emits_ret].
  apply forRecords_emits. intros record. unfold Handler.processS3Record.
  apply emits_bind; [apply emits_lift|]. intros s3.
  apply emits_bind; [apply emits_lift|]. intros bucket.
  apply emits_bind; [apply emits_lift|]. intros rawKey.
  apply emits_bind.
  { destruct rawKey; try apply emits_throw.
    destruct (decodeURIComponent env _); [apply emits_ret | apply emits_throw]. }
  intros key. destruct (S3.isSupportedFile env key) eqn:Sup; cbn [negb];
    [|apply emits_ret].
  apply emits_try_catch; [|intros e; apply emits_ret].
  apply emits_bind; [apply emits_call; intros r; exact Sup|].
  intros extractedText.
  apply emits_bind; [|intros recipe; apply emits_ret].
  apply controller_emits.
  - intros ns key0 o E. exact E.
  - intros []; exact I.
Qed.

End MorePaths.

Section MorePathsWitnesses.
Import Requests Events.

Lemma model_timeout_on_url_path_is_bad_gateway_witness :
  exists r evs id p,
    urlOf Cases.timeout_env LengthSpec.url_event = Some Cases.salade_url
    /\ Handler.handleApiGatewayEvent Cases.timeout_env LengthSpec.url_event []
       = (Return r, evs)
    /\ In (EvBedrockSend id p (Throw Cases.model_timeout)) evs
    /\ statusCode r = 502%Z.
Proof.
  eexists. eexists. eexists. eexists.
  match goal with
  | |- ?A /\ ?B /\ ?C /\ _ =>
      assert (U : A) by (vm_compute; reflexivity);
      assert (R : B) by (vm_compute; reflexivity);
      assert (I : C) by (do 3 right; left; reflexivity)
  end.
  split; [exact U|]. split; [exact R|]. split; [exact I|].
  rewrite (model_timeout_on_url_path_is_bad_gateway _ _ _ _ _ _ _ _ _ U R I
             eq_refl eq_refl eq_refl).
  reflexivity.
Defined.

Lemma s3_sync_upload_starts_no_job_witness :
  useSyncMode Cases.sync_env = true
  /\ exists out evs,
       Handler.handleS3Event Cases.sync_env Cases.s3_event [] = (out, evs)
       /\ In (EvTextractDetect (str "recettes") (js "tarte aux pommes.PDF")
                (Return (js "Salade verte: laitue."))) evs
       /\ Forall (ofSyncUpload Cases.sync_env) evs.
Proof.
  split; [reflexivity|]. eexists. eexists.
  match goal with
  | |- ?A /\ ?B /\ _ =>
      assert (R : A) by (vm_compute; reflexivity);
      assert (D : B) by (left; reflexivity)
  end.
  split; [exact R|]. split; [exact D|].
  exact (s3_sync_upload_starts_no_job Cases.sync_env Cases.s3_event []
           _ _ eq_refl R).
Defined.

End MorePathsWitnesses.

(* ===================================================================== *)
(** ** Job notifications *)
(* ===================================================================== *)

Section Notifications.
Import RecipeModel Trace Events.
Variable env : Env.

Lemma forRecords_event (f : value -> M value) ev records :
  forall h out evs,
    Handler.forRecords f records h = (out, evs) ->
    In ev evs ->
    exists record h' out' evs',
      In record records /\ f record h' = (out', evs') /\ In ev evs'.
Proof.
  induction records as [|record rest IH]; intros h out evs H I;
    cbn [Handler.forRecords] in H.
  - apply ret_inv in H as [_ ->]. destruct I.
  - apply bind_inv in H as [(e & H & _)|(x & evs1 & evs2 & H1 & H & ->)].
    { exists record, h, (Throw e), evs. split; [now left | auto]. }
    apply in_app_iff in I as [I|I].
    { exists record, h, (Return x), evs1. split; [now left | auto]. }
    apply bind_inv in H as [(e & H & _)|(xs & evs3 & evs4 & H2 & H & ->)].
    + destruct (IH _ _ _ H I) as (r & h' & o & es & In' & F & J).
      exists r, h', o, es. split; [now right | auto].
    + apply ret_inv in H as [_ ->]. rewrite app_nil_r in I.
      destruct (IH _ _ _ H2 I) as (r & h' & o & es & In' & F & J).
      exists r, h', o, es. split; [now right | auto].
Qed.

Lemma processSqsRecord_fetches record h out evs jobId fetched :
  Handler.processSqsRecord env record h = (out, evs) ->
  In (EvTextractResult jobId fetched) evs ->
  exists textractMessage,
    notificationOf env record = Return textractMessage
    /\ field textractMessage "Status" = str "SUCCEEDED"
    /\ field textractMessage "JobId" = jobId.
Proof.
  unfold Handler.processSqsRecord, notificationOf. intros H I.
  assert (Body : exists out' evs' rest,
            evs = evs' ++ rest /\ rest = [] /\
            (recordBody <- lift (get record "body") ;;
             snsMessage <- lift (parse env recordBody) ;;
             inner <- lift (get snsMessage "Message") ;;
             textractMessage <- lift (parse env inner) ;;
             jobId <- lift (get textractMessage "JobId") ;;
             status <- lift (get textractMessage "Status") ;;
             if negb (is_str status "SUCCEEDED") then
               ret (obj [ ("jobId", jobId); ("status", status);
                          ("processed", JBool false) ])
             else
               extractedText <- call (fun h => textract_result env h jobId)
                                     (EvTextractResult jobId) ;;
               if Controller.blank (JStr extractedText) then
                 throw (Error (js "No text extracted from document"))
               else
                 result <- Controller.extractRecipeFromText env
                             (JStr extractedText) ;;
                 recipe <- lift (get result "recipe") ;;
                 apiResponse <- lift (get result "apiResponse") ;;
                 ret (obj [ ("jobId", jobId); ("status", str "completed");
                            ("recipe", recipe);
                            ("apiResponse", apiResponse) ])) h
            = (out', evs')).
  { apply try_catch_inv in H as [(a & H & _)|(e & evs1 & evs2 & H & HC & ->)].
    - exists (Return a), evs, []. now rewrite app_nil_r.
    - exists (Throw e), evs1, evs2. split; [reflexivity|]. split; [|exact H].
      apply bind_inv in HC as [(e' & HC & _)|(m & evs3 & evs4 & H1 & HC & ->)].
      + now apply lift_inv in HC as [_ ->].
      + apply lift_inv in H1 as [_ ->]. now apply ret_inv in HC as [_ ->]. }
  destruct Body as (out' & evs' & rest & -> & -> & B). clear H.
  rewrite app_nil_r in I.
  apply bind_inv in B as [(e & B & _)|(recordBody & ? & ? & G1 & B & ->)];
    [apply lift_inv in B as [_ ->]; destruct I|].
  apply lift_inv in G1 as [G1 ->]. cbn [app] in I. rewrite <- G1. cbn [rbind].
  apply bind_inv in B as [(e & B & _)|(snsMessage & ? & ? & G2 & B & ->)];
    [apply lift_inv in B as [_ ->]; destruct I|].
  apply lift_inv in G2 as [G2 ->]. cbn [app] in I. rewrite <- G2. cbn [rbind].
  apply bind_inv in B as [(e & B & _)|(inner & ? & ? & G3 & B & ->)];
    [apply lift_inv in B as [_ ->]; destruct I|].
  apply lift_inv in G3 as [G3 ->]. cbn [app] in I. rewrite <- G3. cbn [rbind].
  apply bind_inv in B as [(e & B & _)|(textractMessage & ? & ? & G4 & B & ->)];
    [apply lift_inv in B as [_ ->]; destruct I|].
  apply lift_inv in G4 as [G4 ->]. cbn [app] in I. rewrite <- G4.
  exists textractMessage. split; [reflexivity|].
  apply bind_inv in B as [(e & B & _)|(job & ? & ? & G5 & B & ->)];
    [apply lift_inv in B as [_ ->]; destruct I|].
  apply lift_inv in G5 as [G5 ->]. cbn [app] in I.
  symmetry in G5. apply field_of_get in G5.
  apply bind_inv in B as [(e & B & _)|(status & ? & ? & G6 & B & ->)];
    [apply lift_inv in B as [_ ->]; destruct I|].
  apply lift_inv in G6 as [G6 ->]. cbn [app] in I.
  symmetry in G6. apply field_of_get in G6.
  destruct (is_str status "SUCCEEDED") eqn:S; cbn [negb] in B.
  2:{ apply ret_inv in B as [_ ->]. destruct I. }
  apply is_str_spec in S. split; [congruence|].
  apply bind_inv in B as [(e & B & _)|(text & ? & ? & C & B & ->)].
  { apply call_inv in B as [_ ->]. destruct I as [I|[]].
    injection I as <- _. exact G5. }
  apply call_inv in C as [_ ->]. cbn [app] in I. destruct I as [I|I].
  { injection I as <- _. exact G5. }
  exfalso.
  assert (NF : forall t h' o es,
            Controller.extractRecipeFromText env t h' = (o, es) ->
            ~ In (EvTextractResult jobId fetched) es).
  { intros t h' o es C J.
    assert (F : Forall (fun ev => match ev with
                                  | EvTextractResult _ _ => False
                                  | _ => True
                                  end) es).
    { revert C. apply controller_emits; [intros; constructor | intros []; constructor]. }
    exact (Forall_In_absurd _ _ _ F J (fun x => x)). }
  destruct (Controller.blank _).
  { apply throw_inv in B as [_ ->]. destruct I. }
  apply bind_inv in B as [(e & B & _)|(result & evsC & ? & C & B & ->)].
  { exact (NF _ _ _ _ B I). }
  apply in_app_iff in I as [I|I]; [exact (NF _ _ _ _ C I)|].
  apply bind_inv in B as [(e & B & _)|(recipe & ? & ? & G7 & B & ->)];
    [apply lift_inv in B as [_ ->]; destruct I|].
  apply lift_inv in G7 as [_ ->]. cbn [app] in I.
  apply bind_inv in B as [(e & B & _)|(api & ? & ? & G8 & B & ->)];
    [apply lift_inv in B as [_ ->]; destruct I|].
  apply lift_inv in G8 as [_ ->]. cbn [app] in I.
  apply ret_inv in B as [_ ->]. destruct I.
Qed.

(** X26.  In a batch of job notifications, the results of a job are fetched
    from Textract only for a record whose notification says SUCCEEDED, and
    for the job that notification names. *)
Theorem results_are_fetched_for_succeeded_jobs_only
    event records extra h out evs jobId fetched :
  field event "Records" = JArr records extra ->
  Handler.handleSqsEvent env event h = (out, evs) ->
  In (EvTextractResult jobId fetched) evs ->
  exists record textractMessage,
    In record records
    /\ notificationOf env record = Return textractMessage
    /\ field textractMessage "Status" = str "SUCCEEDED"
    /\ field textractMessage "JobId" = jobId.
Proof.
  intros F H I.
  assert (RE : readable event = true).
  { apply (field_defined event "Records"). rewrite F. discriminate. }
  unfold Handler.handleSqsEvent in H.
  apply bind_inv in H as [(e & H & _)|(recs & ? & ? & G & H & ->)];
    [apply lift_inv in H as [_ ->]; destruct I|].
  apply lift_inv in G as [G ->]. cbn [app] in I.
  rewrite get_field in G by exact RE. rewrite F in G. injection G as ->.
  apply bind_inv in H as [(e & H & _)|(items & ? & ? & It & H & ->)];
    [cbn [Handler.iterate] in H; apply ret_inv in H as [H _]; discriminate|].
  cbn [Handler.iterate] in It. apply ret_inv in It as [It ->].
  injection It as ->. cbn [app] in I.
  apply bind_inv in H as [(e & H & _)|(results & evsR & ? & FR & H & ->)].
  - destruct (forRecords_event _ _ _ _ _ _ H I) as (r & h' & o & es & J & P & K).
    destruct (processSqsRecord_fetches _ _ _ _ _ _ P K) as (m & N & S & Id).
    now exists r, m.
  - apply ret_inv in H as [_ ->]. rewrite app_nil_r in I.
    destruct (forRecords_event _ _ _ _ _ _ FR I) as (r & h' & o & es & J & P & K).
    destruct (processSqsRecord_fetches _ _ _ _ _ _ P K) as (m & N & S & Id).
    now exists r, m.
Qed.

End Notifications.

Lemma results_are_fetched_for_succeeded_jobs_only_witness :
  exists out evs fetched,
    Handler.handleSqsEvent Cases.notified_env Cases.notified_event []
    = (out, evs)
    /\ In (EvTextractResult (str "job-1") fetched) evs
    /\ exists record textractMessage,
         Events.notificationOf Cases.notified_env record
         = Return textractMessage
         /\ RecipeModel.field textractMessage "Status" = str "SUCCEEDED".
Proof.
  eexists. eexists. eexists.
  match goal with
  | |- ?A /\ ?B /\ _ =>
      assert (R : A) by (vm_compute; reflexivity);
      assert (I : B) by (left; reflexivity)
  end.
  split; [exact R|]. split; [exact I|].
  destruct (results_are_fetched_for_succeeded_jobs_only Cases.notified_env
              Cases.notified_event _ [] [] _ _ _ _ eq_refl R I)
    as (record & m & _ & N & S & _).
  now exists record, m.
Defined.

(* ===================================================================== *)
(** ** No second attempt *)
(* ===================================================================== *)

Section Counts.
Import RecipeModel Caught Trace Events.
Variable env : Env.

(** The events of a run of the controller: the configuration, the run of
    the adapter and, if it comes to that, the run of the submission and
    the time stamp. *)
Lemma extractRecipeFromText_parts recipeText h out evs :
  Controller.extractRecipeFromText env recipeText h = (out, evs) ->
  exists read,
    ofConfig read
    /\ (evs = [read]
        \/ exists extracted evsA,
             Bedrock.extractRecipe env recipeText (h ++ [read])
             = (extracted, evsA)
             /\ (evs = read :: evsA
                 \/ exists r sent evsS iso,
                      Lambda.sendRecipeToAPI env r ((h ++ [read]) ++ evsA)
                      = (sent, evsS)
                      /\ evs = read :: evsA ++ evsS ++ [EvClock iso])).
Proof.
  rewrite extractRecipeFromText_run. cbv zeta. intros H.
  exists (EvConfig (js "bedrock") (js "MODEL_ID")
            (config_get env h (js "bedrock") (js "MODEL_ID"))).
  split; [exact I|].
  destruct (config_get env h _ _) as [modelId|e].
  2:{ injection H as <- <-. now left. }
  destruct (Controller.blank recipeText).
  { injection H as <- <-. now left. }
  right. rewrite attempt_run in H.
  destruct (Bedrock.extractRecipe env recipeText _) as [extracted evsA].
  exists extracted, evsA. split; [reflexivity|].
  destruct extracted as [r|e].
  - destruct (validateRecipe r) as [v|e].
    + destruct (valid v).
      * destruct (Lambda.sendRecipeToAPI env r _) as [sent evsS] eqn:S.
        injection H as <- <-. right. eexists r, sent, evsS, _.
        split; [exact S | reflexivity].
      * injection H as <- <-. now left.
    + injection H as <- <-. now left.
  - injection H as <- <-. now left.
Qed.

Lemma extractRecipe_counts recipeText h extracted evsA :
  Bedrock.extractRecipe env recipeText h = (extracted, evsA) ->
  List.length (filter isModelCall evsA) <= 1
  /\ List.length (filter isSubmission evsA) = 0.
Proof.
  rewrite extractRecipe_run. cbv zeta.
  destruct (config_get env h _ _) as [[m|]|e];
    [destruct (refused recipeText)| |];
    intros H; injection H as _ <-; cbn; lia.
Qed.

Lemma sendRecipeToAPI_counts recipe h sent evsS :
  Lambda.sendRecipeToAPI env recipe h = (sent, evsS) ->
  List.length (filter isModelCall evsS) = 0
  /\ List.length (filter isSubmission evsS) = 1.
Proof.
  rewrite sendRecipeToAPI_run. cbv zeta.
  intros H; injection H as _ <-. cbn. lia.
Qed.

(** X27.  A run of [extractRecipeFromText] invokes the model at most once
    and the downstream Lambda at most once: no call is tried again after a
    failure. *)
Theorem each_service_is_called_once_at_most recipeText h out evs :
  Controller.extractRecipeFromText env recipeText h = (out, evs) ->
  List.length (filter isModelCall evs) <= 1
  /\ List.length (filter isSubmission evs) <= 1.
Proof.
  intros H.
  destruct (extractRecipeFromText_parts _ _ _ _ H)
    as (read & C & [->|(extracted & evsA & A & [->|(r & sent & evsS & iso & S & ->)])]);
    destruct read; try destruct C.
  - cbn. lia.
  - destruct (extractRecipe_counts _ _ _ _ A) as [M N].
    cbn [filter isModelCall isSubmission]. lia.
  - destruct (extractRecipe_counts _ _ _ _ A) as [M N].
    destruct (sendRecipeToAPI_counts _ _ _ _ S) as [M' N'].
    cbn [filter isModelCall isSubmission].
    rewrite !filter_app, !length_app. cbn. lia.
Qed.

End Counts.

Lemma each_service_is_called_once_at_most_witness :
  exists out evs,
    Controller.extractRecipeFromText Demo.salade_env Demo.salade_request []
    = (out, evs)
    /\ List.length (filter Events.isModelCall evs) <= 1
    /\ List.length (filter Events.isSubmission evs) <= 1.
Proof.
  eexists. eexists.
  match goal with
  | |- ?A /\ _ => assert (R : A) by (vm_compute; reflexivity)
  end.
  split; [exact R|].
  exact (each_service_is_called_once_at_most Demo.salade_env _ _ _ _ R).
Defined.

(* ===================================================================== *)
(** ** A recipe that is no object *)
(* ===================================================================== *)

(** When the text of the backend parses to a string, the first default
    cannot be written on it: the [TypeError] quotes the string, and the
    [catch] blocks of the controller and of the handler answer by what the
    string holds, here 422. *)
Example scalar_recipe_is_answered_by_its_text :
  exists r evs,
    Handler.handleApiGatewayEvent Cases.scalar_env Demo.salade_event []
    = (Return r, evs)
    /\ statusCode r = 422%Z
    /\ In (EvExtractRecipe Demo.salade_request
             (Throw (TypeError
                       (js "Cannot create property 'servings' on string 'parse'"))))
          evs.
Proof.
  eexists. eexists.
  match goal with
  | |- ?A /\ _ => assert (R : A) by (vm_compute; reflexivity)
  end.
  split; [exact R|]. split; [reflexivity|].
  do 3 right. left. reflexivity.
Qed.
